(** * SouthBridge ACP client: session engine, write queue and session store

    A shallow embedding of [src/client.ts], [src/types.ts],
    [src/session-manager.ts] and [src/utils.ts], with the properties of
    the specification stated over it, followed by the file tools of
    [src/tools/fs.ts], the mock agent of [src/mock-server.ts] and the
    start-up of [src/index.ts], with further properties of the code.

    Conventions of the embedding.
    - JavaScript values that reach the engine are JSON values ([json]);
      [undefined] is [None] at type [option json].
    - Strings are byte strings: a JavaScript string is represented by its
      UTF-8 encoding, which is also what [writeFile(..., "utf-8")] puts on
      disk.
    - Numbers are the integer-valued ones ([Z]); fractional and exponent
      forms are outside the embedded fragment.
    - Objects are association lists in insertion order; an object of the
      program has no repeated key ([wf_json]).  The engine-defined
      enumeration order of array-index-like keys is not modelled.
    - Every asynchronous function is run to completion ([Engine]); the
      interleaving that the write queue is there for is modelled apart as
      a step relation ([Serializer]).
    - What the client prints on the console is left out; what it appends
      to [session.log] is kept ([audit]). *)

From Stdlib Require Import ZArith NArith Ascii String List Lia Bool.
From Stdlib Require Import DecimalN DecimalFacts Sorted.
From stdpp Require Import base option list strings gmap.
Import ListNotations.

Local Open Scope string_scope.
Local Open Scope list_scope.

(* ===================================================================== *)
(** ** JSON values *)
(* ===================================================================== *)

Local Unset Elimination Schemes.
Inductive json : Type :=
| JNull
| JBool (b : bool)
| JNum (n : Z)
| JStr (s : string)
| JArr (vs : list json)
| JObj (kvs : list (string * json)).
Local Set Elimination Schemes.

(** Structural induction that reaches the elements of arrays and the
    members of objects. *)
Section JsonInd.
Variable P : json -> Prop.
Hypothesis Hnull : P JNull.
Hypothesis Hbool : forall b, P (JBool b).
Hypothesis Hnum : forall n, P (JNum n).
Hypothesis Hstr : forall s, P (JStr s).
Hypothesis Harr : forall vs, Forall P vs -> P (JArr vs).
Hypothesis Hobj : forall kvs, Forall (fun kv => P (snd kv)) kvs -> P (JObj kvs).

Fixpoint json_ind' (v : json) : P v :=
  match v with
  | JNull => Hnull
  | JBool b => Hbool b
  | JNum n => Hnum n
  | JStr s => Hstr s
  | JArr vs =>
      Harr vs ((fix go (l : list json) : Forall P l :=
                  match l with
                  | [] => @Stdlib.Lists.List.Forall_nil _ _
                  | x :: r => @Stdlib.Lists.List.Forall_cons _ _ x r (json_ind' x) (go r)
                  end) vs)
  | JObj kvs =>
      Hobj kvs ((fix go (l : list (string * json)) : Forall (fun kv => P (snd kv)) l :=
                   match l with
                   | [] => @Stdlib.Lists.List.Forall_nil _ _
                   | x :: r => @Stdlib.Lists.List.Forall_cons _ _ x r (json_ind' (snd x)) (go r)
                   end) kvs)
  end.
End JsonInd.

(** JavaScript truthiness of a value ([!v], [v || d], [if (v)]). *)
Definition truthy (v : json) : bool :=
  match v with
  | JNull => false
  | JBool b => b
  | JNum n => negb (n =? 0)%Z
  | JStr s => negb (String.eqb s EmptyString)
  | JArr _ => true
  | JObj _ => true
  end.

Definition truthy_opt (o : option json) : bool :=
  match o with Some v => truthy v | None => false end.

Definition str_truthy (s : string) : bool := negb (String.eqb s EmptyString).

(** Truthiness at type [string | undefined]. *)
Definition opt_str_truthy (o : option string) : bool :=
  match o with Some s => str_truthy s | None => false end.

(** [a || b] on possibly-undefined values. *)
Definition js_or (a : option json) (b : json) : json :=
  match a with
  | Some v => if truthy v then v else b
  | None => b
  end.

(** Own-property lookup in an association list of members. *)
Fixpoint assoc (k : string) (kvs : list (string * json)) : option json :=
  match kvs with
  | [] => None
  | (k', v) :: r => if String.eqb k k' then Some v else assoc k r
  end.

(** [v.k] for a value that is not null: the member of an object, and
    [undefined] on anything else (the properties of primitives and the
    elements of arrays are not used by the engine). *)
Definition get_prop (v : json) (k : string) : option json :=
  match v with
  | JObj kvs => assoc k kvs
  | _ => None
  end.

(** [v?.k]: like [v.k], and [undefined] when [v] is null. *)
Definition opt_prop (v : json) (k : string) : option json := get_prop v k.

(** Defining a property on an object under construction: a key already
    there keeps its place and takes the new value, a new key goes last. *)
Fixpoint obj_set (kvs : list (string * json)) (k : string) (v : json)
  : list (string * json) :=
  match kvs with
  | [] => [(k, v)]
  | (k', v') :: r =>
      if String.eqb k k' then (k', v) :: r else (k', v') :: obj_set r k v
  end.

Fixpoint nodup_keys (ks : list string) : bool :=
  match ks with
  | [] => true
  | k :: r => negb (existsb (String.eqb k) r) && nodup_keys r
  end.

(** An object of the program has pairwise distinct keys, at every depth. *)
Fixpoint wf_json (v : json) : bool :=
  match v with
  | JArr vs => forallb wf_json vs
  | JObj kvs =>
      nodup_keys (map fst kvs) && forallb (fun kv => wf_json (snd kv)) kvs
  | _ => true
  end.

Fixpoint json_size (v : json) : nat :=
  match v with
  | JArr vs => S (list_sum (map json_size vs))
  | JObj kvs => S (list_sum (map (fun kv => S (json_size (snd kv))) kvs))
  | _ => 1
  end.

(* ===================================================================== *)
(** ** JSON text: [JSON.stringify(v, null, 2)] and [JSON.parse] *)
(* ===================================================================== *)

Module JsonText.

Local Open Scope char_scope.

Definition dquote : ascii := ascii_of_nat 34.
Definition bslash : ascii := ascii_of_nat 92.
Definition newline : ascii := ascii_of_nat 10.
Definition chars (s : string) : list ascii := list_ascii_of_string s.

(** *** Printing *)

Definition hex_digit (n : N) : ascii :=
  nth (N.to_nat n) (chars "0123456789abcdef") "0".

(** QuoteJSONString, one code unit: the quote, the backslash and the
    control characters are escaped, everything else is copied. *)
Definition escape_char (c : ascii) : list ascii :=
  if Ascii.eqb c dquote then [bslash; dquote]
  else if Ascii.eqb c bslash then [bslash; bslash]
  else
    let n := N_of_ascii c in
    if (n =? 8)%N then [bslash; "b"]
    else if (n =? 9)%N then [bslash; "t"]
    else if (n =? 10)%N then [bslash; "n"]
    else if (n =? 12)%N then [bslash; "f"]
    else if (n =? 13)%N then [bslash; "r"]
    else if (n <? 32)%N then
      [bslash; "u"; "0"; "0"; hex_digit (n / 16); hex_digit (n mod 16)]
    else [c].

Definition quote (s : string) : list ascii :=
  dquote :: flat_map escape_char (chars s) ++ [dquote].

Fixpoint uint_chars (d : Decimal.uint) : list ascii :=
  match d with
  | Decimal.Nil => []
  | Decimal.D0 d => "0" :: uint_chars d
  | Decimal.D1 d => "1" :: uint_chars d
  | Decimal.D2 d => "2" :: uint_chars d
  | Decimal.D3 d => "3" :: uint_chars d
  | Decimal.D4 d => "4" :: uint_chars d
  | Decimal.D5 d => "5" :: uint_chars d
  | Decimal.D6 d => "6" :: uint_chars d
  | Decimal.D7 d => "7" :: uint_chars d
  | Decimal.D8 d => "8" :: uint_chars d
  | Decimal.D9 d => "9" :: uint_chars d
  end.

(** Decimal digits of a natural number, without leading zeros. *)
Definition N_chars (n : N) : list ascii := uint_chars (N.to_uint n).

Definition Z_chars (z : Z) : list ascii :=
  if (z <? 0)%Z then "-" :: N_chars (Z.abs_N z) else N_chars (Z.to_N z).

(** A line break followed by the indentation of nesting level [l]
    (the gap is two spaces). *)
Definition nl (l : nat) : list ascii := newline :: repeat " " (2 * l).

Fixpoint join (sep : list ascii) (xs : list (list ascii)) : list ascii :=
  match xs with
  | [] => []
  | [x] => x
  | x :: r => x ++ sep ++ join sep r
  end.

Fixpoint print (l : nat) (v : json) : list ascii :=
  match v with
  | JNull => chars "null"
  | JBool true => chars "true"
  | JBool false => chars "false"
  | JNum z => Z_chars z
  | JStr s => quote s
  | JArr [] => chars "[]"
  | JArr vs =>
      "[" :: nl (S l) ++ join ("," :: nl (S l)) (map (print (S l)) vs)
          ++ nl l ++ ["]"]
  | JObj [] => chars "{}"
  | JObj kvs =>
      "{" :: nl (S l)
          ++ join ("," :: nl (S l))
               (map (fun kv => quote (fst kv) ++ ":" :: " " :: print (S l) (snd kv)) kvs)
          ++ nl l ++ ["}"]
  end.

Definition stringify (v : json) : string := string_of_list_ascii (print 0 v).

(** *** Parsing *)

Definition is_ws (c : ascii) : bool :=
  let n := N_of_ascii c in
  (n =? 32)%N || (n =? 9)%N || (n =? 10)%N || (n =? 13)%N.

Fixpoint skip_ws (cs : list ascii) : list ascii :=
  match cs with
  | c :: r => if is_ws c then skip_ws r else cs
  | [] => []
  end.

Definition hex_val (c : ascii) : option N :=
  let n := N_of_ascii c in
  if (48 <=? n)%N && (n <=? 57)%N then Some (n - 48)%N
  else if (97 <=? n)%N && (n <=? 102)%N then Some (n - 87)%N
  else if (65 <=? n)%N && (n <=? 70)%N then Some (n - 55)%N
  else None.

(** A [\uXXXX] escape.  Code units from 0x80 on would need the UTF-8
    encoder and the pairing of surrogates; [JSON.stringify] never emits
    them, and they are outside the embedded fragment. *)
Definition unescape_u (h1 h2 h3 h4 : ascii) : option ascii :=
  match hex_val h1, hex_val h2, hex_val h3, hex_val h4 with
  | Some a, Some b, Some c, Some d =>
      let n := (((a * 16 + b) * 16 + c) * 16 + d)%N in
      if (n <? 128)%N then Some (ascii_of_N n) else None
  | _, _, _, _ => None
  end.

Definition unescape_simple (e : ascii) : option ascii :=
  if Ascii.eqb e dquote then Some dquote
  else if Ascii.eqb e bslash then Some bslash
  else if Ascii.eqb e "/" then Some "/"
  else if Ascii.eqb e "b" then Some (ascii_of_nat 8)
  else if Ascii.eqb e "f" then Some (ascii_of_nat 12)
  else if Ascii.eqb e "n" then Some (ascii_of_nat 10)
  else if Ascii.eqb e "r" then Some (ascii_of_nat 13)
  else if Ascii.eqb e "t" then Some (ascii_of_nat 9)
  else None.

Definition cons_fst {A B} (a : A) (o : option (list A * B)) : option (list A * B) :=
  match o with
  | Some (s, r) => Some (a :: s, r)
  | None => None
  end.

(** The characters of a string literal after its opening quote, up to
    and including the closing quote. *)
Fixpoint parse_chars (cs : list ascii) : option (list ascii * list ascii) :=
  match cs with
  | [] => None
  | c :: r =>
      if Ascii.eqb c dquote then Some ([], r)
      else if Ascii.eqb c bslash then
        match r with
        | [] => None
        | e :: r1 =>
            if Ascii.eqb e "u" then
              match r1 with
              | h1 :: h2 :: h3 :: h4 :: r2 =>
                  match unescape_u h1 h2 h3 h4 with
                  | Some a => cons_fst a (parse_chars r2)
                  | None => None
                  end
              | _ => None
              end
            else
              match unescape_simple e with
              | Some a => cons_fst a (parse_chars r1)
              | None => None
              end
        end
      else if (N_of_ascii c <? 32)%N then None
      else cons_fst c (parse_chars r)
  end.

Definition digit_of (c : ascii) : option (Decimal.uint -> Decimal.uint) :=
  if Ascii.eqb c "0" then Some Decimal.D0
  else if Ascii.eqb c "1" then Some Decimal.D1
  else if Ascii.eqb c "2" then Some Decimal.D2
  else if Ascii.eqb c "3" then Some Decimal.D3
  else if Ascii.eqb c "4" then Some Decimal.D4
  else if Ascii.eqb c "5" then Some Decimal.D5
  else if Ascii.eqb c "6" then Some Decimal.D6
  else if Ascii.eqb c "7" then Some Decimal.D7
  else if Ascii.eqb c "8" then Some Decimal.D8
  else if Ascii.eqb c "9" then Some Decimal.D9
  else None.

Fixpoint take_digits (cs : list ascii) : Decimal.uint * list ascii :=
  match cs with
  | [] => (Decimal.Nil, [])
  | c :: r =>
      match digit_of c with
      | Some mk => let '(d, r') := take_digits r in (mk d, r')
      | None => (Decimal.Nil, cs)
      end
  end.

(** The integer part of a number must be [0] or start with [1]..[9]. *)
Definition int_part_ok (d : Decimal.uint) : bool :=
  match d with
  | Decimal.Nil => false
  | Decimal.D0 Decimal.Nil => true
  | Decimal.D0 _ => false
  | _ => true
  end.

(** A fraction or an exponent follows: outside the embedded fragment. *)
Definition starts_frac_or_exp (cs : list ascii) : bool :=
  match cs with
  | c :: _ => Ascii.eqb c "." || Ascii.eqb c "e" || Ascii.eqb c "E"
  | [] => false
  end.

Definition parse_nat (cs : list ascii) : option (N * list ascii) :=
  let '(d, r) := take_digits cs in
  if int_part_ok d && negb (starts_frac_or_exp r)
  then Some (N.of_uint d, r) else None.

Definition parse_number (cs : list ascii) : option (json * list ascii) :=
  match cs with
  | c :: r =>
      if Ascii.eqb c "-" then
        match parse_nat r with
        | Some (n, r') => Some (JNum (- Z.of_N n), r')
        | None => None
        end
      else
        match parse_nat cs with
        | Some (n, r') => Some (JNum (Z.of_N n), r')
        | None => None
        end
  | [] => None
  end.

Fixpoint strip_prefix (p cs : list ascii) : option (list ascii) :=
  match p, cs with
  | [], _ => Some cs
  | a :: p', c :: cs' => if Ascii.eqb a c then strip_prefix p' cs' else None
  | _ :: _, [] => None
  end.

Section Composite.
(** The parser of one value, as seen from the loops over the elements
    of an array and the members of an object. *)
Variable pv : list ascii -> option (json * list ascii).

Fixpoint parse_elems (n : nat) (cs : list ascii)
  : option (list json * list ascii) :=
  match n with
  | 0 => None
  | S n' =>
      match pv cs with
      | Some (v, r) =>
          match skip_ws r with
          | c :: r' =>
              if Ascii.eqb c "," then cons_fst v (parse_elems n' r')
              else if Ascii.eqb c "]" then Some ([v], r')
              else None
          | [] => None
          end
      | None => None
      end
  end.

Fixpoint parse_members (n : nat) (acc : list (string * json)) (cs : list ascii)
  : option (list (string * json) * list ascii) :=
  match n with
  | 0 => None
  | S n' =>
      match skip_ws cs with
      | q :: r =>
          if Ascii.eqb q dquote then
            match parse_chars r with
            | Some (k, r1) =>
                match skip_ws r1 with
                | c :: r2 =>
                    if Ascii.eqb c ":" then
                      match pv r2 with
                      | Some (v, r3) =>
                          let acc' := obj_set acc (string_of_list_ascii k) v in
                          match skip_ws r3 with
                          | d :: r4 =>
                              if Ascii.eqb d "," then parse_members n' acc' r4
                              else if Ascii.eqb d "}" then Some (acc', r4)
                              else None
                          | [] => None
                          end
                      | None => None
                      end
                    else None
                | [] => None
                end
            | None => None
            end
          else None
      | [] => None
      end
  end.
End Composite.

Fixpoint parse_value (fuel : nat) (cs : list ascii) : option (json * list ascii) :=
  match fuel with
  | 0 => None
  | S f =>
      match skip_ws cs with
      | [] => None
      | c :: r =>
          if Ascii.eqb c "{" then
            match skip_ws r with
            | c' :: r' =>
                if Ascii.eqb c' "}" then Some (JObj [], r')
                else
                  match parse_members (parse_value f) f [] r with
                  | Some (kvs, r'') => Some (JObj kvs, r'')
                  | None => None
                  end
            | [] => None
            end
          else if Ascii.eqb c "[" then
            match skip_ws r with
            | c' :: r' =>
                if Ascii.eqb c' "]" then Some (JArr [], r')
                else
                  match parse_elems (parse_value f) f r with
                  | Some (vs, r'') => Some (JArr vs, r'')
                  | None => None
                  end
            | [] => None
            end
          else if Ascii.eqb c dquote then
            match parse_chars r with
            | Some (s, r') => Some (JStr (string_of_list_ascii s), r')
            | None => None
            end
          else if Ascii.eqb c "t" then
            match strip_prefix (chars "rue") r with
            | Some r' => Some (JBool true, r')
            | None => None
            end
          else if Ascii.eqb c "f" then
            match strip_prefix (chars "alse") r with
            | Some r' => Some (JBool false, r')
            | None => None
            end
          else if Ascii.eqb c "n" then
            match strip_prefix (chars "ull") r with
            | Some r' => Some (JNull, r')
            | None => None
            end
          else parse_number (c :: r)
      end
  end.

(** [JSON.parse]: one value, white space around it, nothing else.
    [None] stands for the SyntaxError. *)
Definition parse (s : string) : option json :=
  let cs := chars s in
  match parse_value (S (length cs)) cs with
  | Some (v, r) => match skip_ws r with [] => Some v | _ => None end
  | None => None
  end.

(** *** Notions for the round trip *)

(** What may follow a value in printed text: the end, a comma or a
    line break. *)
Definition follow_ok (rest : list ascii) : Prop :=
  match rest with
  | [] => True
  | c :: _ => c = "," \/ c = newline
  end.

(** The characters a printed value can start with. *)
Definition value_start (c : ascii) : bool :=
  Ascii.eqb c "-" || bool_decide (is_Some (digit_of c))
  || Ascii.eqb c dquote || Ascii.eqb c "[" || Ascii.eqb c "{"
  || Ascii.eqb c "n" || Ascii.eqb c "t" || Ascii.eqb c "f".

(** The object that the loop over the members builds. *)
Definition obj_sets (acc kvs : list (string * json)) : list (string * json) :=
  fold_left (fun a kv => obj_set a (fst kv) (snd kv)) kvs acc.

Definition sep (l : nat) : list ascii := "," :: nl (S l).

Definition print_member (l : nat) (kv : string * json) : list ascii :=
  quote (fst kv) ++ ":" :: " " :: print (S l) (snd kv).

End JsonText.

(* ===================================================================== *)
(** ** [src/types.ts]: messages, tool results, method-name table *)
(* ===================================================================== *)

(** [id: number | string]. *)
Inductive rpc_id : Type :=
| IdNum (n : Z)
| IdStr (s : string).

Record JSONRPCError : Type := mkError {
  err_code : Z;
  err_message : string;
  err_data : option json
}.

(** A JSON-RPC 2.0 message; [jsonrpc: "2.0"] is constant and left out.
    An inbound message may lack its [id], so the member is optional. *)
Record JSONRPCMessage : Type := mkMsg {
  rpc_id_of : option rpc_id;
  rpc_method : option string;
  rpc_params : option json;
  rpc_result : option json;
  rpc_error : option JSONRPCError
}.

Record ToolResult : Type := mkToolResult {
  tr_success : option bool;
  tr_content : option string;
  tr_entries : option (list (string * bool));
  tr_error : option string;
  tr_exitCode : option Z;
  tr_stdout : option string;
  tr_stderr : option string;
  tr_path : option string
}.

Definition emptyResult : ToolResult :=
  mkToolResult None None None None None None None None.

Module TOOL_METHODS.
Definition WRITE_FILE : list string :=
  ["writeTextFile"; "fs/writeTextFile"; "fs.writeTextFile"].
Definition READ_FILE : list string :=
  ["readTextFile"; "fs/readTextFile"; "fs.readTextFile"].
Definition LIST_DIRECTORY : list string :=
  ["listDirectory"; "fs/listDirectory"; "fs.listDirectory"].
Definition CREATE_TERMINAL : list string :=
  ["createTerminal"; "terminal/create"; "terminal.create"].
End TOOL_METHODS.

(** [toolMethods.includes(method)]. *)
Definition matchesTool (method : string) (toolMethods : list string) : bool :=
  existsb (String.eqb method) toolMethods.

(** The members of a value as they appear on the wire and in the logs:
    a member that is [undefined] is absent. *)
Definition member (k : string) (o : option json) : list (string * json) :=
  match o with Some v => [(k, v)] | None => [] end.

Definition id_json (i : rpc_id) : json :=
  match i with IdNum n => JNum n | IdStr s => JStr s end.

Definition error_json (e : JSONRPCError) : json :=
  JObj ([("code", JNum (err_code e)); ("message", JStr (err_message e))]
          ++ member "data" (err_data e)).

Definition msg_json (m : JSONRPCMessage) : json :=
  JObj ([("jsonrpc", JStr "2.0")]
          ++ member "id" (id_json <$> rpc_id_of m)
          ++ member "method" (JStr <$> rpc_method m)
          ++ member "params" (rpc_params m)
          ++ member "result" (rpc_result m)
          ++ member "error" (error_json <$> rpc_error m)).

Definition entries_json (es : list (string * bool)) : json :=
  JArr (map (fun e => JObj [("name", JStr (fst e)); ("isDirectory", JBool (snd e))]) es).

Definition toolResult_json (r : ToolResult) : json :=
  JObj (member "success" (JBool <$> tr_success r)
          ++ member "content" (JStr <$> tr_content r)
          ++ member "entries" (entries_json <$> tr_entries r)
          ++ member "error" (JStr <$> tr_error r)
          ++ member "exitCode" (JNum <$> tr_exitCode r)
          ++ member "stdout" (JStr <$> tr_stdout r)
          ++ member "stderr" (JStr <$> tr_stderr r)
          ++ member "path" (JStr <$> tr_path r)).

(* ===================================================================== *)
(** ** The file system the engine runs on *)
(* ===================================================================== *)

Inductive LogType : Type :=
| PROMPT | TOOL_CALL | TOOL_RESULT | TOOL_ERROR | INFO | ERROR.

(** One entry of [session.log]: time stamp, kind, payload. *)
Record LogEntry : Type := mkLog {
  log_time : string;
  log_type : LogType;
  log_data : json
}.

Inductive FsOp : Type :=
| OpMkdir (p : string)
| OpWrite (p : string)
| OpRead (p : string)
| OpAppend (p : string).

(** The operations that the operating system refuses, for whatever
    reason: a missing parent directory, a directory in the place of the
    file, permissions, a full disk ([fault op = Some message]). *)
Definition Faults : Type := FsOp -> option string.

(** Files by path, the directories that exist, and the entries appended
    to [session.log]. *)
Record FileSystem : Type := mkFs {
  files : gmap string string;
  dirs : gset string;
  audit : list LogEntry
}.

Definition existsSync (p : string) (fs : FileSystem) : bool :=
  bool_decide (p ∈ dirs fs) || bool_decide (is_Some (files fs !! p)).

(** The outcome of an operation that can throw. *)
Inductive io (A : Type) : Type :=
| Done (a : A)
| Fails (e : string).
Arguments Done {A} a.
Arguments Fails {A} e.

Definition fs_mkdir (fault : Faults) (p : string) (fs : FileSystem) : io FileSystem :=
  match fault (OpMkdir p) with
  | Some e => Fails e
  | None => Done (mkFs (files fs) ({[p]} ∪ dirs fs) (audit fs))
  end.

Definition fs_writeFile (fault : Faults) (p content : string) (fs : FileSystem)
  : io FileSystem :=
  match fault (OpWrite p) with
  | Some e => Fails e
  | None => Done (mkFs (<[p := content]> (files fs)) (dirs fs) (audit fs))
  end.

Definition fs_readFile (fault : Faults) (p : string) (fs : FileSystem) : io string :=
  match fault (OpRead p) with
  | Some e => Fails e
  | None =>
      match files fs !! p with
      | Some c => Done c
      | None => Fails "ENOENT: no such file or directory"
      end
  end.

Definition fs_appendLog (fault : Faults) (e : LogEntry) (fs : FileSystem)
  : io FileSystem :=
  match fault (OpAppend "session.log") with
  | Some m => Fails m
  | None => Done (mkFs (files fs) (dirs fs) (audit fs ++ [e]))
  end.

(** [try { await appendFile("session.log", logEntry) } catch (e) { ... }]. *)
Definition appendLog (fault : Faults) (e : LogEntry) (fs : FileSystem) : FileSystem :=
  match fs_appendLog fault e fs with
  | Done fs' => fs'
  | Fails _ => fs
  end.

(* ===================================================================== *)
(** ** The environment of the engine *)
(* ===================================================================== *)

(** What a tool collaborator hands back: a [ToolResult], or an exception
    that escapes it. *)
Inductive ToolOutcome : Type :=
| Returned (r : ToolResult)
| Threw (message : string).

(** Platform functions and external collaborators.  The tools of
    [src/tools/] see their arguments as the engine passes them (possibly
    [undefined]) and act on the file system. *)
Record Env : Type := mkEnv {
  toISOString : N -> string;
  clock : nat -> N;
  path_join : string -> string -> string;
  cwd : string;
  valid_url : string -> bool;
  fs_fault : Faults;
  writeFile : option json -> option json -> FileSystem -> ToolOutcome * FileSystem;
  readFile : option json -> FileSystem -> ToolOutcome * FileSystem;
  listDir : json -> FileSystem -> ToolOutcome * FileSystem;
  runShellCommand : option json -> json -> FileSystem -> ToolOutcome * FileSystem
}.

(* ===================================================================== *)
(** ** [src/session-manager.ts] *)
(* ===================================================================== *)

Inductive EntryType : Type := prompt | tool_call | tool_result.

Record HistoryEntry : Type := mkEntry {
  he_type : EntryType;
  he_data : json;
  he_timestamp : string
}.

Record SessionData : Type := mkSession {
  sd_sessionId : string;
  sd_model : string;
  sd_workspaceDir : string;
  sd_timestamp : string;
  sd_history : list HistoryEntry
}.

Definition SESSIONS_DIR : string := ".acp-sessions".

Definition type_name (t : EntryType) : string :=
  match t with
  | prompt => "prompt"
  | tool_call => "tool_call"
  | tool_result => "tool_result"
  end.

(** The JavaScript object that a [SessionData] is. *)
Definition entry_json (e : HistoryEntry) : json :=
  JObj [("type", JStr (type_name (he_type e)));
        ("data", he_data e);
        ("timestamp", JStr (he_timestamp e))].

Definition session_json (d : SessionData) : json :=
  JObj [("sessionId", JStr (sd_sessionId d));
        ("model", JStr (sd_model d));
        ("workspaceDir", JStr (sd_workspaceDir d));
        ("timestamp", JStr (sd_timestamp d));
        ("history", JArr (map entry_json (sd_history d)))].

(** Reading a parsed record at its declared type.  The source trusts the
    type ([JSON.parse(content)] is returned as [SessionData]); a member
    that is absent or of another type reads here as the empty string,
    resp. is skipped, which does not happen for a file that [saveSession]
    wrote. *)
Definition str_field (v : json) (k : string) : string :=
  match get_prop v k with Some (JStr s) => s | _ => EmptyString end.

Definition opt_str_field (v : json) (k : string) : option string :=
  match get_prop v k with Some (JStr s) => Some s | _ => None end.

Definition type_of_name (s : string) : option EntryType :=
  if String.eqb s "prompt" then Some prompt
  else if String.eqb s "tool_call" then Some tool_call
  else if String.eqb s "tool_result" then Some tool_result
  else None.

Definition entry_of_json (v : json) : option HistoryEntry :=
  match type_of_name (str_field v "type"), get_prop v "data" with
  | Some t, Some d => Some (mkEntry t d (str_field v "timestamp"))
  | _, _ => None
  end.

Definition history_of_json (v : option json) : list HistoryEntry :=
  match v with
  | Some (JArr vs) => omap entry_of_json vs
  | _ => []
  end.

Definition session_of_json (v : json) : SessionData :=
  mkSession (str_field v "sessionId") (str_field v "model")
            (str_field v "workspaceDir") (str_field v "timestamp")
            (history_of_json (get_prop v "history")).

Definition session_path (env : Env) (sessionId : string) : string :=
  path_join env SESSIONS_DIR (sessionId ++ ".json").

(** [saveSession]: every failure is caught and reported on the console. *)
Definition saveSession (env : Env) (sessionId : string) (data : SessionData)
           (fs : FileSystem) : FileSystem :=
  match (if existsSync SESSIONS_DIR fs then Done fs
         else fs_mkdir (fs_fault env) SESSIONS_DIR fs) with
  | Fails _ => fs
  | Done fs1 =>
      match fs_writeFile (fs_fault env) (session_path env sessionId)
                         (JsonText.stringify (session_json data)) fs1 with
      | Fails _ => fs1
      | Done fs2 => fs2
      end
  end.

(** [loadSession]: the parsed content of the file, or [null]. *)
Definition loadSession (env : Env) (sessionId : string) (fs : FileSystem) : json :=
  let filePath := session_path env sessionId in
  if existsSync filePath fs then
    match fs_readFile (fs_fault env) filePath fs with
    | Fails _ => JNull
    | Done content =>
        match JsonText.parse content with
        | Some v => v
        | None => JNull
        end
    end
  else JNull.

(* ===================================================================== *)
(** ** [src/client.ts]: the state of a [CodingAgentClient] and its world *)
(* ===================================================================== *)

(** The fields of the class.  [transport] is unset until [startSession];
    a transport made by [createSSEStream] is identified by its base URL. *)
#[projections(primitive)]
Record Client : Type := mkClient {
  url : string;
  transport : option string;
  sessionId : option string;
  requestId : Z;
  writeQueue : list JSONRPCMessage;
  isWriting : bool;
  model : string;
  workspaceDir : string;
  history : list HistoryEntry;
  autoSave : bool
}.

(** What lies outside the object: the file system, the chunks that the
    sink of the transport was given ([wire]), and two traces kept for the
    statements: every message ever pushed on the write queue ([pushed])
    and every call of a tool collaborator ([executed]).  [ticks] counts
    the readings of the clock taken so far. *)
#[projections(primitive)]
Record World : Type := mkWorld {
  fs : FileSystem;
  wire : list JSONRPCMessage;
  pushed : list JSONRPCMessage;
  executed : list (string * list (option json));
  ticks : nat
}.

#[projections(primitive)]
Record State : Type := mkState { cl : Client; wd : World }.

Definition set_transport (t : option string) (c : Client) : Client :=
  mkClient (url c) t (sessionId c) (requestId c) (writeQueue c) (isWriting c)
           (model c) (workspaceDir c) (history c) (autoSave c).
Definition set_sessionId (s : option string) (c : Client) : Client :=
  mkClient (url c) (transport c) s (requestId c) (writeQueue c) (isWriting c)
           (model c) (workspaceDir c) (history c) (autoSave c).
Definition set_requestId (n : Z) (c : Client) : Client :=
  mkClient (url c) (transport c) (sessionId c) n (writeQueue c) (isWriting c)
           (model c) (workspaceDir c) (history c) (autoSave c).
Definition set_writeQueue (q : list JSONRPCMessage) (c : Client) : Client :=
  mkClient (url c) (transport c) (sessionId c) (requestId c) q (isWriting c)
           (model c) (workspaceDir c) (history c) (autoSave c).
Definition set_isWriting (b : bool) (c : Client) : Client :=
  mkClient (url c) (transport c) (sessionId c) (requestId c) (writeQueue c) b
           (model c) (workspaceDir c) (history c) (autoSave c).
Definition set_model (m : string) (c : Client) : Client :=
  mkClient (url c) (transport c) (sessionId c) (requestId c) (writeQueue c)
           (isWriting c) m (workspaceDir c) (history c) (autoSave c).
Definition set_workspaceDir (d : string) (c : Client) : Client :=
  mkClient (url c) (transport c) (sessionId c) (requestId c) (writeQueue c)
           (isWriting c) (model c) d (history c) (autoSave c).
Definition set_history (h : list HistoryEntry) (c : Client) : Client :=
  mkClient (url c) (transport c) (sessionId c) (requestId c) (writeQueue c)
           (isWriting c) (model c) (workspaceDir c) h (autoSave c).
Definition set_autoSave (b : bool) (c : Client) : Client :=
  mkClient (url c) (transport c) (sessionId c) (requestId c) (writeQueue c)
           (isWriting c) (model c) (workspaceDir c) (history c) b.

Definition set_fs (f : FileSystem) (w : World) : World :=
  mkWorld f (wire w) (pushed w) (executed w) (ticks w).
Definition set_wire (l : list JSONRPCMessage) (w : World) : World :=
  mkWorld (fs w) l (pushed w) (executed w) (ticks w).
Definition set_pushed (l : list JSONRPCMessage) (w : World) : World :=
  mkWorld (fs w) (wire w) l (executed w) (ticks w).
Definition set_executed (l : list (string * list (option json))) (w : World) : World :=
  mkWorld (fs w) (wire w) (pushed w) l (ticks w).
Definition set_ticks (n : nat) (w : World) : World :=
  mkWorld (fs w) (wire w) (pushed w) (executed w) n.

(** *** Computations: state and exceptions *)

Inductive Res (A : Type) : Type :=
| Ok (a : A) (s : State)
| Throw (e : string) (s : State).
Arguments Ok {A} a s.
Arguments Throw {A} e s.

Definition M (A : Type) : Type := State -> Res A.

Definition ret {A} (a : A) : M A := fun s => Ok a s.
Definition bind {A B} (m : M A) (k : A -> M B) : M B :=
  fun s => match m s with
           | Ok a s' => k a s'
           | Throw e s' => Throw e s'
           end.
Definition throw {A} (e : string) : M A := fun s => Throw e s.
(** [try { m } catch (error) { h error.message }]. *)
Definition try_catch {A} (m : M A) (h : string -> M A) : M A :=
  fun s => match m s with
           | Ok a s' => Ok a s'
           | Throw e s' => h e s'
           end.
Definition gets {A} (f : State -> A) : M A := fun s => Ok (f s) s.
Definition on_client (f : Client -> Client) : M unit :=
  fun s => Ok tt (mkState (f (cl s)) (wd s)).
Definition on_world (f : World -> World) : M unit :=
  fun s => Ok tt (mkState (cl s) (f (wd s))).
Definition when (b : bool) (m : M unit) : M unit := if b then m else ret tt.

Definition final {A} (r : Res A) : State :=
  match r with Ok _ s => s | Throw _ s => s end.

Declare Scope engine_scope.
Delimit Scope engine_scope with engine.
Notation "x <- m ;; k" := (bind m (fun x => k))
  (at level 100, m at next level, k at level 200, right associativity) : engine_scope.
Notation "m ;; k" := (bind m (fun _ => k))
  (at level 100, k at level 200, right associativity) : engine_scope.
Local Open Scope engine_scope.

(** [this.requestId++] on a number that holds a non-negative integer: a
    double represents the integers exactly up to 2^53, where adding one
    rounds back to the same value. *)
Definition js_succ (n : Z) : Z :=
  if (n <? 2 ^ 53)%Z then (n + 1)%Z else n.

Module Engine.
Section WithEnv.
Variable env : Env.

(** [new Date()] / [Date.now()]: the next reading of the clock. *)
Definition now : M N :=
  t <- gets (fun s => ticks (wd s)) ;;
  on_world (set_ticks (S t)) ;;
  ret (clock env t).

Definition isoNow : M string :=
  t <- now ;; ret (toISOString env t).

(** [logReceipt] of [src/utils.ts]: a failure to append is caught. *)
Definition logReceipt (type : LogType) (data : json) : M unit :=
  timestamp <- isoNow ;;
  on_world (fun w =>
    set_fs (appendLog (fs_fault env) (mkLog timestamp type data) (fs w)) w).

(** [constructor(url, model?, workspaceDir?)]. *)
Definition newClient (url : string) (model workspaceDir : option string) : Client :=
  mkClient url None None 0 [] false
           (match model with
            | Some m => if str_truthy m then m else "claude-3-5-sonnet-20241022"
            | None => "claude-3-5-sonnet-20241022"
            end)
           (match workspaceDir with
            | Some d => if str_truthy d then d else cwd env
            | None => cwd env
            end)
           [] true.

(** The loop of [processWriteQueue] over the queue it finds, with nothing
    else running: each message is shifted off and written; without a
    transport the write throws, which is caught, and the message is
    lost. *)
Fixpoint drain (t : option string) (q : list JSONRPCMessage)
         (sent : list JSONRPCMessage) : list JSONRPCMessage :=
  match q with
  | [] => sent
  | msg :: q' =>
      drain t q' (match t with Some _ => sent ++ [msg] | None => sent end)
  end.

Definition processWriteQueue : M unit :=
  writing <- gets (fun s => isWriting (cl s)) ;;
  if writing then ret tt
  else
    on_client (set_isWriting true) ;;
    t <- gets (fun s => transport (cl s)) ;;
    q <- gets (fun s => writeQueue (cl s)) ;;
    on_world (fun w => set_wire (drain t q (wire w)) w) ;;
    on_client (set_writeQueue []) ;;
    on_client (set_isWriting false).

(** [this.writeQueue.push(msg)]. *)
Definition push (msg : JSONRPCMessage) : M unit :=
  on_client (fun c => set_writeQueue (writeQueue c ++ [msg]) c) ;;
  on_world (fun w => set_pushed (pushed w ++ [msg]) w).

Definition sendRPC (method : string) (params : json) : M json :=
  id <- gets (fun s => requestId (cl s)) ;;
  on_client (set_requestId (js_succ id)) ;;
  push (mkMsg (Some (IdNum id)) (Some method) (Some params) None None) ;;
  processWriteQueue ;;
  ret JNull.

(** [{ jsonrpc, id, ...(error ? { error } : { result }) }]. *)
Definition sendRPCResponse (id : option rpc_id) (result : json)
           (error : option JSONRPCError) : M unit :=
  push (match error with
        | Some e => mkMsg id None None None (Some e)
        | None => mkMsg id None None (Some result) None
        end) ;;
  processWriteQueue.

Definition persistSession : M unit :=
  c <- gets cl ;;
  if negb (autoSave c) || negb (opt_str_truthy (sessionId c)) then ret tt
  else
    let sid := default EmptyString (sessionId c) in
    timestamp <- isoNow ;;
    h <- gets (fun s => history (cl s)) ;;
    on_world (fun w =>
      set_fs (saveSession env sid
                (mkSession sid (model c) (workspaceDir c) timestamp h)
                (fs w)) w).

Definition push_history (t : EntryType) (data : json) : M unit :=
  timestamp <- isoNow ;;
  on_client (fun c => set_history (history c ++ [mkEntry t data timestamp]) c).

(** Calling a collaborator: it acts on the file system, and the call is
    recorded. *)
Definition call_tool (name : string) (args : list (option json))
           (f : FileSystem -> ToolOutcome * FileSystem) : M ToolResult :=
  on_world (fun w => set_executed (executed w ++ [(name, args)]) w) ;;
  w <- gets wd ;;
  let '(out, fs') := f (fs w) in
  on_world (set_fs fs') ;;
  match out with
  | Returned r => ret r
  | Threw e => throw e
  end.

(** [if (result.error) throw new Error(result.error)]. *)
Definition throw_if_error (r : ToolResult) : M unit :=
  match tr_error r with
  | Some e => if str_truthy e then throw e else ret tt
  | None => ret tt
  end.

(** [(params.args || []).join(" ")] throws a TypeError unless the value
    is an array. *)
Definition join_args (args : json) : M unit :=
  match args with
  | JArr _ => ret tt
  | _ => throw "(params.args || []).join is not a function"
  end.

(** The [switch] of [handleToolCall], inside its [try]. *)
Definition execute (toolName : string) (requestId : option rpc_id)
           (params : json) : M unit :=
  if String.eqb toolName "writeTextFile" then
    result <- call_tool toolName [get_prop params "path"; get_prop params "content"]
                (writeFile env (get_prop params "path") (get_prop params "content")) ;;
    throw_if_error result ;;
    push_history tool_result
      (JObj [("tool", JStr toolName); ("result", JObj [("success", JBool true)])]) ;;
    logReceipt TOOL_RESULT (JObj [("success", JBool true)]) ;;
    sendRPCResponse requestId (JObj []) None
  else if String.eqb toolName "readTextFile" then
    result <- call_tool toolName [get_prop params "path"]
                (readFile env (get_prop params "path")) ;;
    throw_if_error result ;;
    logReceipt TOOL_RESULT (JObj (member "content" (JStr <$> tr_content result))) ;;
    sendRPCResponse requestId
      (JObj (member "content" (JStr <$> tr_content result))) None
  else if String.eqb toolName "listDirectory" then
    let path := js_or (get_prop params "path") (JStr ".") in
    result <- call_tool toolName [Some path] (listDir env path) ;;
    throw_if_error result ;;
    logReceipt TOOL_RESULT (toolResult_json result) ;;
    sendRPCResponse requestId
      (JObj (member "entries" (entries_json <$> tr_entries result))) None
  else if String.eqb toolName "createTerminal" then
    let args := js_or (get_prop params "args") (JArr []) in
    join_args args ;;
    result <- call_tool toolName [get_prop params "command"; Some args]
                (runShellCommand env (get_prop params "command") args) ;;
    logReceipt TOOL_RESULT (toolResult_json result) ;;
    sendRPCResponse requestId
      (JObj ([("id", JStr "terminal-1")]
               ++ member "exitCode" (JNum <$> tr_exitCode result)
               ++ member "stdout" (JStr <$> tr_stdout result)
               ++ member "stderr" (JStr <$> tr_stderr result))) None
  else throw ("Unknown tool: " ++ toolName).

(** [handleToolCall]; [approved] is the answer of the operator to the
    [inquirer] prompt. *)
Definition handleToolCall (approved : bool) (toolName : string)
           (requestId : option rpc_id) (params : json) : M unit :=
  push_history tool_call (JObj [("tool", JStr toolName); ("params", params)]) ;;
  logReceipt TOOL_CALL (JObj [("tool", JStr toolName); ("params", params)]) ;;
  if negb approved then
    logReceipt TOOL_ERROR (JStr "User rejected") ;;
    sendRPCResponse requestId JNull
      (Some (mkError (-32000) "User rejected tool call" None))
  else
    try_catch (execute toolName requestId params)
      (fun message =>
         logReceipt TOOL_ERROR (JStr message) ;;
         sendRPCResponse requestId JNull (Some (mkError (-32603) message None))) ;;
    persistSession.

(** [handleMessage]: a message without a method is logged when it has a
    truthy result; a tool method in any spelling goes to
    [handleToolCall] under the name of its family; anything else is
    ignored. *)
Definition handleMessage (approved : bool) (msg : JSONRPCMessage) : M unit :=
  if negb (opt_str_truthy (rpc_method msg)) then
    when (truthy_opt (rpc_result msg)) (logReceipt INFO (msg_json msg))
  else
    let method := default EmptyString (rpc_method msg) in
    let params := js_or (rpc_params msg) (JObj []) in
    if matchesTool method TOOL_METHODS.WRITE_FILE then
      handleToolCall approved "writeTextFile" (rpc_id_of msg) params
    else if matchesTool method TOOL_METHODS.READ_FILE then
      handleToolCall approved "readTextFile" (rpc_id_of msg) params
    else if matchesTool method TOOL_METHODS.LIST_DIRECTORY then
      handleToolCall approved "listDirectory" (rpc_id_of msg) params
    else if matchesTool method TOOL_METHODS.CREATE_TERMINAL then
      handleToolCall approved "createTerminal" (rpc_id_of msg) params
    else ret tt.

(** [`session-${Date.now()}`]. *)
Definition fallback_session_id (t : N) : string :=
  "session-" ++ string_of_list_ascii (JsonText.N_chars t).

(** [sessionResp?.sessionId] when it is truthy, at type [string]. *)
Definition server_session_id (sessionResp : json) : option string :=
  match opt_prop sessionResp "sessionId" with
  | Some (JStr s) => if str_truthy s then Some s else None
  | _ => None
  end.

Definition prompt_params (message : string) : json :=
  JObj [("prompt",
         JObj [("role", JStr "user");
               ("content",
                JArr [JObj [("type", JStr "text"); ("text", JStr message)]])])].

Definition sendPrompt (message : string) : M unit :=
  logReceipt PROMPT (JStr message) ;;
  sid <- gets (fun s => sessionId (cl s)) ;;
  when (negb (opt_str_truthy sid))
    (sessionResp <- sendRPC "session/new" (JObj []) ;;
     sid' <- match server_session_id sessionResp with
             | Some s => ret s
             | None => t <- now ;; ret (fallback_session_id t)
             end ;;
     on_client (set_sessionId (Some sid'))) ;;
  push_history prompt (JStr message) ;;
  sendRPC "session/prompt" (prompt_params message) ;;
  persistSession.

Definition initialize_params (c : Client) : json :=
  JObj [("capabilities",
         JObj [("fs.readTextFile", JBool true);
               ("fs.writeTextFile", JBool true);
               ("fs.listDirectory", JBool true);
               ("terminal", JBool true)]);
        ("clientInfo",
         JObj [("name", JStr "SouthBridgeClient"); ("version", JStr "1.0.0")]);
        ("workspaceDirectory", JStr (workspaceDir c));
        ("model", JStr (model c))].

(** [startSession]: [createSSEStream] throws on a URL that does not
    parse; the reader it starts delivers the inbound messages, which
    are the [Inbound] events below. *)
Definition startSession : M unit :=
  c <- gets cl ;;
  (if valid_url env (url c) then on_client (set_transport (Some (url c)))
   else throw "Invalid URL") ;;
  c <- gets cl ;;
  sendRPC "initialize" (initialize_params c) ;;
  logReceipt INFO
    (JObj [("event", JStr "Connected to Agent");
           ("model", JStr (model c));
           ("workspace", JStr (workspaceDir c))]).

Definition resumeSession (sessionId : string) : M bool :=
  w <- gets wd ;;
  let sessionData := loadSession env sessionId (fs w) in
  if negb (truthy sessionData) then ret false
  else
    on_client (fun c =>
      set_history (history_of_json (get_prop sessionData "history"))
        (set_workspaceDir (str_field sessionData "workspaceDir")
           (set_model (str_field sessionData "model")
              (set_sessionId (opt_str_field sessionData "sessionId") c)))) ;;
    h <- gets (fun s => history (cl s)) ;;
    logReceipt INFO
      (JObj [("event", JStr "Session resumed");
             ("sessionId", JStr sessionId);
             ("historyLength", JNum (Z.of_nat (length h)))]) ;;
    ret true.

(** *** The life of a client

    What happens to a client, one operation at a time: the calls of the
    application and the messages that the reader of the transport
    hands to [handleMessage], each with the answer that the operator
    would give if asked. *)
Inductive Event : Type :=
| EvStart
| EvPrompt (message : string)
| EvInbound (approved : bool) (msg : JSONRPCMessage)
| EvResume (sessionId : string)
| EvSetModel (model : string)
| EvSetWorkspaceDir (workspaceDir : string)
| EvSetAutoSave (enabled : bool).

Definition step (s : State) (ev : Event) : State :=
  match ev with
  | EvStart => final (startSession s)
  | EvPrompt message => final (sendPrompt message s)
  | EvInbound approved msg => final (handleMessage approved msg s)
  | EvResume sessionId => final (resumeSession sessionId s)
  | EvSetModel m => mkState (set_model m (cl s)) (wd s)
  | EvSetWorkspaceDir d => mkState (set_workspaceDir d (cl s)) (wd s)
  | EvSetAutoSave b => mkState (set_autoSave b (cl s)) (wd s)
  end.

Definition run (s : State) (evs : list Event) : State := fold_left step evs s.

(** The ids of the requests among the messages pushed on the queue. *)
Definition request_ids (l : list JSONRPCMessage) : list Z :=
  omap (fun m => match rpc_method m, rpc_id_of m with
                 | Some _, Some (IdNum n) => Some n
                 | _, _ => None
                 end) l.

Definition is_response_to (id : option rpc_id) (m : JSONRPCMessage) : Prop :=
  rpc_id_of m = id /\ rpc_method m = None /\
  (is_Some (rpc_result m) <-> rpc_error m = None).
End WithEnv.
End Engine.

(* ===================================================================== *)
(** ** The write queue under interleaving *)
(* ===================================================================== *)

(** [processWriteQueue] gives up control at [await writer.write(msg)],
    and other code of the client runs before it resumes.  Here the
    function is cut at that point.  A system is the state of the engine
    together with the activations of [processWriteQueue] that are
    suspended in the [await], each with the message it is writing. *)
Module Serializer.

Record Sys : Type := mkSys {
  sys : State;
  suspended : list JSONRPCMessage
}.

(** The [while] loop, from its test to the next [await] or to its end.
    [getWriter] throws when there is no transport and when the stream
    is locked by a writer that has not been released, i.e. while
    another write is awaited; the [catch] then drops the message and
    the loop goes on. *)
Fixpoint drain_loop (q : list JSONRPCMessage) (c : Client) (w : World)
         (susp : list JSONRPCMessage) : Sys :=
  match q with
  | [] => mkSys (mkState (set_isWriting false (set_writeQueue [] c)) w) susp
  | msg :: q' =>
      match transport c, susp with
      | Some _, [] =>
          mkSys (mkState (set_writeQueue q' c) (set_wire (wire w ++ [msg]) w)) [msg]
      | _, _ => drain_loop q' c w susp
      end
  end.

(** A call of [processWriteQueue], up to the point where it returns or
    is suspended. *)
Definition call_processWriteQueue (y : Sys) : Sys :=
  let c := cl (sys y) in
  if isWriting c then y
  else drain_loop (writeQueue c) (set_isWriting true c) (wd (sys y)) (suspended y).

(** [this.writeQueue.push(msg); await this.processWriteQueue()], as in
    [sendRPC] and [sendRPCResponse]. *)
Definition enqueue (msg : JSONRPCMessage) (y : Sys) : Sys :=
  call_processWriteQueue (mkSys (final (Engine.push msg (sys y))) (suspended y)).

(** The write of the [k]-th suspended activation settles: it releases
    its writer and goes round the loop again. *)
Definition settle (k : nat) (y : Sys) : option Sys :=
  match suspended y !! k with
  | Some _ =>
      let c := cl (sys y) in
      Some (drain_loop (writeQueue c) c (wd (sys y)) (delete k (suspended y)))
  | None => None
  end.

Inductive Ev : Type :=
| Enqueue (msg : JSONRPCMessage)
| Settle (k : nat).

Definition next (y : Sys) (e : Ev) : option Sys :=
  match e with
  | Enqueue msg => Some (enqueue msg y)
  | Settle k => settle k y
  end.

Fixpoint exec (y : Sys) (es : list Ev) : option Sys :=
  match es with
  | [] => Some y
  | e :: es' =>
      match next y e with
      | Some y' => exec y' es'
      | None => None
      end
  end.

(** The messages of the [Enqueue] events, in the order of the calls. *)
Definition enqueued (es : list Ev) : list JSONRPCMessage :=
  omap (fun e => match e with Enqueue m => Some m | Settle _ => None end) es.

(** Nothing is in progress: the flag is down, no activation is
    suspended and the queue is empty. *)
Definition quiescent (y : Sys) : Prop :=
  isWriting (cl (sys y)) = false /\ suspended y = [] /\ writeQueue (cl (sys y)) = [].

(** The invariant of the write queue: with the flag down nothing is in
    progress; with the flag up exactly one activation is suspended. *)
Definition inv (y : Sys) : Prop :=
  (isWriting (cl (sys y)) = false /\ suspended y = []
   /\ writeQueue (cl (sys y)) = [])
  \/ (isWriting (cl (sys y)) = true /\ exists msg, suspended y = [msg]).

(** What the transport was given, followed by what still waits. *)
Definition stream (y : Sys) : list JSONRPCMessage :=
  wire (wd (sys y)) ++ writeQueue (cl (sys y)).
End Serializer.

(* ===================================================================== *)
(** ** Notions used in the statements *)
(* ===================================================================== *)

Definition known_spellings : list string :=
  TOOL_METHODS.WRITE_FILE ++ TOOL_METHODS.READ_FILE
    ++ TOOL_METHODS.LIST_DIRECTORY ++ TOOL_METHODS.CREATE_TERMINAL.

(** An inbound request that is accepted for handling: its method is one
    of the spellings of a tool. *)
Definition accepted (msg : JSONRPCMessage) : Prop :=
  exists method, rpc_method msg = Some method /\ In method known_spellings.

(** The names under which [handleMessage] calls [handleToolCall]. *)
Definition tool_names : list string :=
  ["writeTextFile"; "readTextFile"; "listDirectory"; "createTerminal"].

Definition families : list (list string) :=
  [TOOL_METHODS.WRITE_FILE; TOOL_METHODS.READ_FILE;
   TOOL_METHODS.LIST_DIRECTORY; TOOL_METHODS.CREATE_TERMINAL].

(** The response to a rejected tool call. *)
Definition rejection (id : option rpc_id) : JSONRPCMessage :=
  mkMsg id None None None (Some (mkError (-32000) "User rejected tool call" None)).

(** The session store takes the record of session [sid]: no operation on
    its directory or on the file of the session is refused. *)
Definition store_ok (env : Env) (sid : string) : Prop :=
  fs_fault env (OpMkdir SESSIONS_DIR) = None
  /\ fs_fault env (OpWrite (session_path env sid)) = None
  /\ fs_fault env (OpRead (session_path env sid)) = None.

(** The members of every object in the history are pairwise distinct. *)
Definition wf_history (h : list HistoryEntry) : Prop :=
  Forall (fun e => wf_json (he_data e) = true) h.

(** A collaborator that returns, and reports no error. *)
Definition succeeds (o : ToolOutcome * FileSystem) : Prop :=
  exists r, fst o = Returned r /\ opt_str_truthy (tr_error r) = false.

(** The two requests of [sendPrompt]. *)
Definition new_request (id : Z) : JSONRPCMessage :=
  mkMsg (Some (IdNum id)) (Some "session/new") (Some (JObj [])) None None.

Definition prompt_request (id : Z) (message : string) : JSONRPCMessage :=
  mkMsg (Some (IdNum id)) (Some "session/prompt")
        (Some (Engine.prompt_params message)) None None.

(** The next [j] request ids, from a counter that stands at [n], and the
    counter after them. *)
Fixpoint alloc (n : Z) (j : nat) : list Z :=
  match j with
  | 0 => []
  | S j' => n :: alloc (js_succ n) j'
  end.

Definition bump (j : nat) (n : Z) : Z := Nat.iter j js_succ n.

(* ===================================================================== *)
(** ** A concrete world for the scenarios *)
(* ===================================================================== *)

Module Demo.
Definition emptyFs : FileSystem := mkFs ∅ ∅ [].
Definition no_fault : Faults := fun _ => None.
Definition emptyWorld : World := mkWorld emptyFs [] [] [] 0.

(** The success path of [writeFile] in [src/tools/fs.ts]: the content is
    written and [{ success: true, path }] is returned. *)
Definition demo_writeFile (path content : option json) (fs : FileSystem)
  : ToolOutcome * FileSystem :=
  match path, content with
  | Some (JStr p), Some (JStr c) =>
      match fs_writeFile no_fault p c fs with
      | Done fs' => (Returned (mkToolResult (Some true) None None None None None None (Some p)), fs')
      | Fails e => (Returned (mkToolResult None None None (Some e) None None None None), fs)
      end
  | _, _ =>
      (Returned (mkToolResult None None None
                   (Some "The path argument must be of type string") None None None None), fs)
  end.

Definition demo_readFile (path : option json) (fs : FileSystem)
  : ToolOutcome * FileSystem :=
  match path with
  | Some (JStr p) =>
      if existsSync p fs then
        match fs_readFile no_fault p fs with
        | Done c => (Returned (mkToolResult None (Some c) None None None None None None), fs)
        | Fails e => (Returned (mkToolResult None None None (Some e) None None None None), fs)
        end
      else (Returned (mkToolResult None None None (Some ("File not found: " ++ p)%string)
                        None None None None), fs)
  | _ => (Returned (mkToolResult None None None
                      (Some "The path argument must be of type string") None None None None), fs)
  end.

Definition demo_env : Env :=
  mkEnv (fun t => String.append "T" (string_of_list_ascii (JsonText.N_chars t)))
        (fun i => (1700000000000 + N.of_nat i)%N)
        (fun a b => String.append a (String.append "/" b))
        "/work"
        (fun _ => true)
        no_fault
        demo_writeFile
        demo_readFile
        (fun _ fs => (Returned (mkToolResult None None (Some []) None None None None None), fs))
        (fun _ _ fs => (Returned (mkToolResult None None None None (Some 0%Z)
                                    (Some EmptyString) (Some EmptyString) None), fs)).

Definition fresh : State :=
  mkState (Engine.newClient demo_env "http://localhost:3000" None None) emptyWorld.

(** The request that the mock agent of [src/mock-server.ts] sends. *)
Definition write_request : JSONRPCMessage :=
  mkMsg (Some (IdStr "req_1")) (Some "writeTextFile")
        (Some (JObj [("path", JStr "a.txt"); ("content", JStr "hi")])) None None.

(** Its answer to [session/new]. *)
Definition session_new_response (id : Z) : JSONRPCMessage :=
  mkMsg (Some (IdNum id)) None None
        (Some (JObj [("sessionId", JStr "mock-session-1")])) None.

(** The scenario of the specification: handshake, one prompt, one
    approved write. *)
Definition scenario : list Engine.Event :=
  [Engine.EvStart; Engine.EvPrompt "hello"; Engine.EvInbound true write_request].

(** A first prompt, and then the answer of the agent to [session/new]. *)
Definition new_session_scenario : list Engine.Event :=
  [Engine.EvStart; Engine.EvPrompt "hello";
   Engine.EvInbound true (session_new_response 1)].

(** The history of the session as stored under the id of the client. *)
Definition persisted_history (s : State) : list HistoryEntry :=
  match sessionId (cl s) with
  | Some sid => sd_history (session_of_json (loadSession demo_env sid (fs (wd s))))
  | None => []
  end.

Definition demo_session : SessionData :=
  mkSession "s1" "claude-3-5-sonnet-20241022" "/work" "T0"
    [mkEntry prompt (JStr "hello") "T1";
     mkEntry tool_call
       (JObj [("tool", JStr "writeTextFile");
              ("params", JObj [("path", JStr "a.txt"); ("content", JStr "hi")])])
       "T2"].

(** A client that is connected and idle. *)
Definition idle : Serializer.Sys :=
  Serializer.mkSys
    (mkState (set_transport (Some "http://localhost:3000") (cl fresh)) emptyWorld) [].

Definition two_sends : list Serializer.Ev :=
  [Serializer.Enqueue (new_request 0); Serializer.Enqueue (rejection (Some (IdStr "req_1")));
   Serializer.Settle 0].
End Demo.

(* ===================================================================== *)
(** ** [src/session-manager.ts]: listing and deleting sessions *)
(* ===================================================================== *)

(** What the platform gives besides [Env]: [readdir], which yields the
    entries of a directory, each with whether it is a directory itself,
    or throws; and the paths that [unlink] refuses. *)
Definition Readdir : Type := string -> FileSystem -> io (list (string * bool)).
Definition Refusals : Type := string -> option string.

(** [s.endsWith(searchString)]. *)
Definition endsWith (s searchString : string) : bool :=
  let cs := JsonText.chars s in
  let p := JsonText.chars searchString in
  (length p <=? length cs)%nat && bool_decide (drop (length cs - length p) cs = p).

(** [s.replace(pattern, replacement)] for a pattern that is a string and
    a replacement without [$]: the first occurrence is replaced, the
    others stay. *)
Fixpoint replace_chars (pattern replacement cs : list ascii) : list ascii :=
  match JsonText.strip_prefix pattern cs with
  | Some rest => replacement ++ rest
  | None =>
      match cs with
      | [] => []
      | c :: r => c :: replace_chars pattern replacement r
      end
  end.

Definition replace (s pattern replacement : string) : string :=
  string_of_list_ascii
    (replace_chars (JsonText.chars pattern) (JsonText.chars replacement)
       (JsonText.chars s)).

(** [s.includes(sub)]. *)
Definition includes (s sub : string) : Prop :=
  exists a b, s = (a ++ sub ++ b)%string.

(** [listSessions]: the names in the directory that end in [.json],
    each with its first [.json] taken out; nothing when the directory
    is missing or cannot be read. *)
Definition listSessions (readdir : Readdir) (fs : FileSystem) : list string :=
  if negb (existsSync SESSIONS_DIR fs) then []
  else
    match readdir SESSIONS_DIR fs with
    | Fails _ => []
    | Done entries =>
        map (fun f => replace f ".json" EmptyString)
            (List.filter (fun f => endsWith f ".json") (map fst entries))
    end.

(** [unlink]: removes a file; fails on a path that is refused and on
    one that holds no file. *)
Definition fs_unlink (refused : Refusals) (p : string) (fs : FileSystem)
  : io FileSystem :=
  match refused p with
  | Some e => Fails e
  | None =>
      match files fs !! p with
      | Some _ => Done (mkFs (delete p (files fs)) (dirs fs) (audit fs))
      | None => Fails "ENOENT: no such file or directory"
      end
  end.

(** [deleteSession]: every failure is caught and reported on the console. *)
Definition deleteSession (env : Env) (refused : Refusals) (sessionId : string)
           (fs : FileSystem) : FileSystem :=
  let filePath := session_path env sessionId in
  if existsSync filePath fs then
    match fs_unlink refused filePath fs with
    | Done fs' => fs'
    | Fails _ => fs
    end
  else fs.

(* ===================================================================== *)
(** ** [src/tools/fs.ts] *)
(* ===================================================================== *)

(** The three file tools at their declared types.  [bun] tells whether
    the run time is Bun ([typeof Bun !== "undefined"]): [Bun.file(path)
    .exists()] holds of files only, [existsSync] of directories too. *)
Module Tools.

Definition failure (message : string) : ToolResult :=
  mkToolResult None None None (Some message) None None None None.

Definition readFile (fault : Faults) (bun : bool) (path : string)
           (fs : FileSystem) : ToolResult :=
  let found := if bun then bool_decide (is_Some (files fs !! path))
               else existsSync path fs in
  if negb found then failure ("File not found: " ++ path)
  else
    match fs_readFile fault path fs with
    | Done content => mkToolResult None (Some content) None None None None None None
    | Fails e => failure e
    end.

Definition writeFile (fault : Faults) (path content : string) (fs : FileSystem)
  : ToolResult * FileSystem :=
  match fs_writeFile fault path content fs with
  | Done fs' => (mkToolResult (Some true) None None None None None None (Some path), fs')
  | Fails e => (failure e, fs)
  end.

Definition listDir (readdir : Readdir) (path : string) (fs : FileSystem)
  : ToolResult :=
  match readdir path fs with
  | Done entries => mkToolResult None None (Some entries) None None None None None
  | Fails e => failure e
  end.

End Tools.


(* ===================================================================== *)
(** ** [src/mock-server.ts] *)
(* ===================================================================== *)

(** The mock agent.  A connection to [/sse] is a number; [clients] is
    the [Set] of the open connections and [clientSessions] the [Map]
    from a connection to its [toolCallSent] flag, both in insertion
    order.  What a request makes the server do is a list of outputs: a
    message broadcast at once, or a timer whose callback broadcasts the
    message it builds from the clock when it fires. *)
Module MockServer.

Record Server : Type := mkServer {
  clients : list nat;
  clientSessions : list (nat * bool)
}.

Inductive Output : Type :=
| Broadcast (msg : json)
| SetTimeout (ms : N) (callback : N -> json).

(** [clients.add(res)]. *)
Definition set_add (res : nat) (s : list nat) : list nat :=
  if existsb (Nat.eqb res) s then s else s ++ [res].

(** [clientSessions.set(res, { toolCallSent })]. *)
Fixpoint map_set (res : nat) (sent : bool) (m : list (nat * bool)) : list (nat * bool) :=
  match m with
  | [] => [(res, sent)]
  | (k, v) :: r => if Nat.eqb res k then (k, sent) :: r else (k, v) :: map_set res sent r
  end.

Definition connect (res : nat) (sv : Server) : Server :=
  mkServer (set_add res (clients sv)) (map_set res false (clientSessions sv)).

Definition close (res : nat) (sv : Server) : Server :=
  mkServer (List.filter (fun c => negb (Nat.eqb res c)) (clients sv))
           (List.filter (fun kv => negb (Nat.eqb res (fst kv))) (clientSessions sv)).

(** [{ jsonrpc: "2.0", id: json.id, result }]. *)
Definition response (id : option json) (result : json) : json :=
  JObj ([("jsonrpc", JStr "2.0")] ++ member "id" id ++ [("result", result)]).

Definition toolCallReq (t : N) : json :=
  JObj [("jsonrpc", JStr "2.0");
        ("id", JStr ("req_" ++ string_of_list_ascii (JsonText.N_chars t)));
        ("method", JStr "writeTextFile");
        ("params",
         JObj [("path", JStr "hello_from_agent.txt");
               ("content",
                JStr "Hello from the Mock Agent! I verified your code works.")])].

Definition completion : json :=
  JObj [("jsonrpc", JStr "2.0");
        ("method", JStr "session/update");
        ("params",
         JObj [("content",
                JStr "Great! The file was written successfully. The client is working perfectly!")])].

(** The loop over [clientSessions.entries()]: the first connection that
    is open and has not had its tool call is marked. *)
Fixpoint mark_first (open : list nat) (m : list (nat * bool))
  : option (list (nat * bool)) :=
  match m with
  | [] => None
  | (client, sent) :: r =>
      if existsb (Nat.eqb client) open && negb sent then Some ((client, true) :: r)
      else
        match mark_first open r with
        | Some r' => Some ((client, sent) :: r')
        | None => None
        end
  end.

(** [json.method === name]. *)
Definition method_is (json : json) (name : string) : bool :=
  match get_prop json "method" with
  | Some (JStr m) => String.eqb m name
  | _ => false
  end.

(** The handler of [POST /messages] from the parsed body on; [None]
    when it throws ([json.method] on [null]). *)
Definition on_post (json : json) (sv : Server) : option (Server * list Output) :=
  match json with
  | JNull => None
  | _ =>
      let id := get_prop json "id" in
      if method_is json "initialize" then
        Some (sv, [Broadcast
                     (response id
                        (JObj [("serverInfo",
                                JObj [("name", JStr "MockAgent");
                                      ("version", JStr "0.0.1")]);
                               ("capabilities", JObj [])]))])
      else if method_is json "session/new" then
        Some (sv, [Broadcast (response id (JObj [("sessionId", JStr "mock-session-1")]))])
      else if method_is json "session/prompt" then
        let ack := Broadcast (response id (JObj [("stopReason", JStr "tool_use")])) in
        match mark_first (clients sv) (clientSessions sv) with
        | Some m => Some (mkServer (clients sv) m, [ack; SetTimeout 1000 toolCallReq])
        | None => Some (sv, [ack])
        end
      else if bool_decide (is_Some (get_prop json "result"))
              || bool_decide (is_Some (get_prop json "error")) then
        Some (sv, [SetTimeout 500 (fun _ => completion)])
      else if truthy_opt id then Some (sv, [Broadcast (response id (JObj []))])
      else Some (sv, [])
  end.

Inductive Request : Type :=
| Connect (res : nat)
| Close (res : nat)
| Post (json : json).

(** One request: the server after it and what it put out; a handler
    that throws leaves the server as it was. *)
Definition serve (sv : Server) (r : Request) : Server * list Output :=
  match r with
  | Connect res => (connect res sv, [])
  | Close res => (close res sv, [])
  | Post json =>
      match on_post json sv with
      | Some out => out
      | None => (sv, [])
      end
  end.

Fixpoint serve_all (sv : Server) (rs : list Request) : Server * list Output :=
  match rs with
  | [] => (sv, [])
  | r :: rs' =>
      let '(sv1, out1) := serve sv r in
      let '(sv2, out2) := serve_all sv1 rs' in
      (sv2, out1 ++ out2)
  end.

(** The timers that send the demo tool call. *)
Definition is_tool_call (o : Output) : bool :=
  match o with
  | SetTimeout _ callback => method_is (callback 0%N) "writeTextFile"
  | Broadcast _ => false
  end.

Definition is_connect (r : Request) : bool :=
  match r with Connect _ => true | _ => false end.

(** The connections that are still to get their tool call. *)
Definition unsent (m : list (nat * bool)) : nat :=
  length (List.filter (fun kv => negb (snd kv)) m).

Definition pending (sv : Server) : nat := unsent (clientSessions sv).

(** The tool calls set off among the outputs. *)
Definition calls (out : list Output) : nat :=
  length (List.filter is_tool_call out).

End MockServer.

(** The message that the reader of the client is handed when the
    server broadcasts [v]: [JSON.parse] of the event data, seen at the
    type [JSONRPCMessage]. *)
Definition of_wire (v : json) : JSONRPCMessage :=
  mkMsg (match get_prop v "id" with
         | Some (JNum n) => Some (IdNum n)
         | Some (JStr s) => Some (IdStr s)
         | _ => None
         end)
        (opt_str_field v "method")
        (get_prop v "params")
        (get_prop v "result")
        (match get_prop v "error" with
         | Some e =>
             match get_prop e "code", get_prop e "message" with
             | Some (JNum code), Some (JStr message) =>
                 Some (mkError code message (get_prop e "data"))
             | _, _ => None
             end
         | None => None
         end).

(* ===================================================================== *)
(** ** [src/index.ts] *)
(* ===================================================================== *)

Module Main.

(** The answers of the operator to the two questions of [main]. *)
Inductive Action : Type := ActNew | ActResume.

Record Operator : Type := mkOperator {
  action : Action;
  selectedSession : string
}.

(** [process.env.NAME || fallback]. *)
Definition env_or (v : option string) (fallback : string) : string :=
  match v with
  | Some s => if str_truthy s then s else fallback
  | None => fallback
  end.

(** [getSystemPrompt] of [src/client.ts]. *)
Definition getSystemPrompt (c : Client) : string :=
  "Current Workspace: " ++ workspaceDir c.

(** The white space and the line terminators of ECMAScript in UTF-8, as
    [String.prototype.trim] strips them from the start of a string. *)
Definition ws1 (a : N) : bool :=
  (a =? 9)%N || (a =? 10)%N || (a =? 11)%N || (a =? 12)%N || (a =? 13)%N
  || (a =? 32)%N.

Definition ws2 (a b : N) : bool := (a =? 194)%N && (b =? 160)%N.

Definition ws3 (a b c : N) : bool :=
  ((a =? 225)%N && (b =? 154)%N && (c =? 128)%N)
  || ((a =? 226)%N && (b =? 128)%N
      && (((128 <=? c)%N && (c <=? 138)%N) || (c =? 168)%N || (c =? 169)%N
          || (c =? 175)%N))
  || ((a =? 226)%N && (b =? 129)%N && (c =? 159)%N)
  || ((a =? 227)%N && (b =? 128)%N && (c =? 128)%N)
  || ((a =? 239)%N && (b =? 187)%N && (c =? 191)%N).

Fixpoint trim_start (cs : list ascii) : list ascii :=
  match cs with
  | [] => []
  | a :: r =>
      if ws1 (N_of_ascii a) then trim_start r
      else
        match r with
        | [] => cs
        | b :: r2 =>
            if ws2 (N_of_ascii a) (N_of_ascii b) then trim_start r2
            else
              match r2 with
              | [] => cs
              | c :: r3 =>
                  if ws3 (N_of_ascii a) (N_of_ascii b) (N_of_ascii c)
                  then trim_start r3
                  else cs
              end
        end
  end.

(** [if (line.trim())]: something is left once the white space is off. *)
Definition blank (line : string) : bool :=
  match trim_start (JsonText.chars line) with
  | [] => true
  | _ :: _ => false
  end.

Section WithEnv.
Variable env : Env.
Variable readdir : Readdir.

(** [new CodingAgentClient(AGENT_URL, MODEL, WORKSPACE)]. *)
Definition client (AGENT_URL MODEL WORKSPACE : option string) : Client :=
  Engine.newClient env (env_or AGENT_URL "http://localhost:3000")
    (Some (env_or MODEL "claude-3-5-sonnet-20241022"))
    (Some (env_or WORKSPACE (cwd env))).

(** [main] from the listing of the sessions to the point where it is
    ready for input; the result tells whether a session was resumed.
    An exception is the fatal error that ends the process. *)
Definition startup (op : Operator) : M bool :=
  w <- gets wd ;;
  let sessions := listSessions readdir (fs w) in
  resumed <-
    match sessions, action op with
    | _ :: _, ActResume =>
        Engine.startSession env ;;
        Engine.resumeSession env (selectedSession op)
    | _, _ => ret false
    end ;;
  when (negb resumed) (Engine.startSession env) ;;
  when (negb resumed)
    (c <- gets cl ;;
     Engine.sendPrompt env ("You are a coding agent. " ++ getSystemPrompt c)) ;;
  ret resumed.

(** The body of the loop over the lines of the standard input. *)
Definition on_line (line : string) : M unit :=
  when (negb (blank line)) (Engine.sendPrompt env line).

Fixpoint on_lines (lines : list string) : M unit :=
  match lines with
  | [] => ret tt
  | line :: r => on_line line ;; on_lines r
  end.

Definition main (op : Operator) (lines : list string) : M unit :=
  startup op ;; on_lines lines.
End WithEnv.

End Main.
(* ===================================================================== *)
(** ** Further notions used in the statements *)
(* ===================================================================== *)

Definition dotjson : list ascii := JsonText.chars ".json".

(** A collaborator that fails with [message]: it throws, or it returns
    a result whose [error] is that message, not empty. *)
Definition fails_with (message : string) (o : ToolOutcome * FileSystem) : Prop :=
  fst o = Threw message
  \/ exists r, fst o = Returned r /\ tr_error r = Some message
               /\ str_truthy message = true.

(** The call that [handleToolCall] makes for a file tool. *)
Definition file_tool_call (env : Env) (toolName : string) (params : json)
  : FileSystem -> ToolOutcome * FileSystem :=
  if String.eqb toolName "writeTextFile" then
    writeFile env (get_prop params "path") (get_prop params "content")
  else if String.eqb toolName "readTextFile" then
    readFile env (get_prop params "path")
  else listDir env (js_or (get_prop params "path") (JStr ".")).

Definition file_tools : list string :=
  ["writeTextFile"; "readTextFile"; "listDirectory"].

(** The two kinds of response to a tool call that was approved. *)
Definition internal_error (id : option rpc_id) (message : string) : JSONRPCMessage :=
  mkMsg id None None None (Some (mkError (-32603) message None)).

Definition result_response (id : option rpc_id) (result : json) : JSONRPCMessage :=
  mkMsg id None None (Some result) None.


Definition terminal_payload (result : ToolResult) : json :=
  JObj ([("id", JStr "terminal-1")]
          ++ member "exitCode" (JNum <$> tr_exitCode result)
          ++ member "stdout" (JStr <$> tr_stdout result)
          ++ member "stderr" (JStr <$> tr_stderr result)).

(** Events that store nothing while auto-save is off: all but an
    approved tool call, whose tool may write, and switching auto-save
    on. *)
Definition quiet (ev : Engine.Event) : Prop :=
  match ev with
  | Engine.EvInbound true _ => False
  | Engine.EvSetAutoSave true => False
  | _ => True
  end.

Definition is_resume (ev : Engine.Event) : bool :=
  match ev with Engine.EvResume _ => true | _ => false end.

Definition is_start (ev : Engine.Event) : bool :=
  match ev with Engine.EvStart => true | _ => false end.

(** The request of the handshake, as a client in state [c] sends it. *)
Definition initialize_request (c : Client) : JSONRPCMessage :=
  mkMsg (Some (IdNum (requestId c))) (Some "initialize")
        (Some (Engine.initialize_params c)) None None.

(** No [session/new] request among the messages. *)
Definition no_session_new (l : list JSONRPCMessage) : Prop :=
  Forall (fun m => rpc_method m <> Some "session/new") l.

(** From [s] to [s'] the write queue was drained: it is empty again,
    the flag is down, and what was pushed went to the transport if
    there is one; the transport changed at most by a start. *)
Definition flushes (s s' : State) (start : bool) : Prop :=
  writeQueue (cl s') = [] /\ isWriting (cl s') = false
  /\ exists l,
       pushed (wd s') = pushed (wd s) ++ l
       /\ match transport (cl s') with
          | Some _ => wire (wd s') = wire (wd s) ++ l
          | None => wire (wd s') = wire (wd s)
          end
       /\ (transport (cl s') = transport (cl s)
           \/ (start = true /\ is_Some (transport (cl s')))).

(* ===================================================================== *)
(** ** More of the concrete world *)
(* ===================================================================== *)

Module Fixtures.
Import Demo.




Definition no_refusal : Refusals := fun _ => None.

(** The directory of the sessions with two records and a stray file;
    no other directory can be read. *)
Definition demo_readdir : Readdir :=
  fun dir _ =>
    if String.eqb dir SESSIONS_DIR
    then Done [("s1.json", false); ("notes.txt", false); ("a.json.b.json", false)]
    else Fails "ENOENT: no such file or directory".

Definition no_entries : Readdir := fun _ _ => Done [].

(** The store after [demo_session] was saved. *)
Definition stored : FileSystem := saveSession demo_env "s1" demo_session emptyFs.


Definition with_fs (f : FileSystem) (s : State) : State :=
  mkState (cl s) (set_fs f (wd s)).


(** A client that is connected and idle, and one that has a session. *)
Definition connected : State := Serializer.sys idle.

Definition in_session : State :=
  mkState (set_sessionId (Some "s1") (cl connected)) (wd connected).

(** Requests of the agent, and what the operator may answer. *)
Definition request (method : string) (params : list (string * json))
  : JSONRPCMessage :=
  mkMsg (Some (IdStr "req_2")) (Some method) (Some (JObj params)) None None.

Definition resume_s1 : Main.Operator := Main.mkOperator Main.ActResume "s1".
Definition start_new : Main.Operator := Main.mkOperator Main.ActNew EmptyString.
End Fixtures.

(* ===================================================================== *)
(** * Properties *)
(* ===================================================================== *)

(** ** The JSON text round trip *)

Module JsonFacts.
Import JsonText.
Local Open Scope char_scope.

Lemma parse_chars_escape (c : ascii) (r : list ascii) :
  parse_chars (escape_char c ++ r) = cons_fst c (parse_chars r).
Proof.
  destruct c as [[] [] [] [] [] [] [] []]; reflexivity.
Qed.

Lemma parse_chars_quoted (s rest : list ascii) :
  parse_chars (flat_map escape_char s ++ dquote :: rest) = Some (s, rest).
Proof.
  induction s as [|c s IH]; [reflexivity|].
  cbn [flat_map]. rewrite <- app_assoc, parse_chars_escape, IH. reflexivity.
Qed.

Lemma follow_ok_digit (rest : list ascii) :
  follow_ok rest -> take_digits rest = (Decimal.Nil, rest).
Proof.
  destruct rest as [|c r]; [reflexivity|].
  intros [-> | ->]; reflexivity.
Qed.

Lemma follow_ok_frac (rest : list ascii) :
  follow_ok rest -> starts_frac_or_exp rest = false.
Proof.
  destruct rest as [|c r]; [reflexivity|].
  intros [-> | ->]; reflexivity.
Qed.

Lemma take_digits_uint (d : Decimal.uint) (rest : list ascii) :
  follow_ok rest -> take_digits (uint_chars d ++ rest) = (d, rest).
Proof.
  intros H. induction d; cbn [uint_chars app];
    [apply follow_ok_digit, H | cbn [take_digits]; cbv [digit_of Ascii.eqb Bool.eqb]; rewrite IHd; reflexivity ..].
Qed.

Lemma unorm_int_part_ok (d : Decimal.uint) :
  int_part_ok (Decimal.unorm d) = true.
Proof.
  unfold Decimal.unorm.
  destruct (Decimal.nzhead d) eqn:E; try reflexivity.
  exfalso. revert E. induction d; cbn; congruence.
Qed.

Lemma to_uint_ok (n : N) : int_part_ok (N.to_uint n) = true.
Proof.
  rewrite <- (DecimalN.Unsigned.of_to n) at 1.
  rewrite DecimalN.Unsigned.to_of. apply unorm_int_part_ok.
Qed.

Lemma parse_nat_chars (n : N) (rest : list ascii) :
  follow_ok rest -> parse_nat (N_chars n ++ rest) = Some (n, rest).
Proof.
  intros H. unfold parse_nat, N_chars.
  rewrite take_digits_uint by exact H.
  rewrite to_uint_ok, follow_ok_frac by exact H. cbn.
  rewrite DecimalN.Unsigned.of_to. reflexivity.
Qed.

Lemma value_start_facts (c : ascii) :
  value_start c = true ->
  is_ws c = false /\ Ascii.eqb c "]" = false /\ Ascii.eqb c "}" = false.
Proof.
  destruct c as [[] [] [] [] [] [] [] []]; vm_compute; intuition congruence.
Qed.

Lemma uint_chars_head (d : Decimal.uint) :
  int_part_ok d = true ->
  exists c r, uint_chars d = c :: r /\ bool_decide (is_Some (digit_of c)) = true.
Proof.
  destruct d; cbn; try discriminate; intros _; eexists _, _; split; reflexivity.
Qed.

Lemma N_chars_head (n : N) :
  exists c r, N_chars n = c :: r /\ bool_decide (is_Some (digit_of c)) = true.
Proof. apply uint_chars_head, to_uint_ok. Qed.

Lemma digit_not_minus (c : ascii) :
  bool_decide (is_Some (digit_of c)) = true -> Ascii.eqb c "-" = false.
Proof.
  destruct c as [[] [] [] [] [] [] [] []]; vm_compute; congruence.
Qed.

Lemma parse_number_chars (z : Z) (rest : list ascii) :
  follow_ok rest -> parse_number (Z_chars z ++ rest) = Some (JNum z, rest).
Proof.
  intros H. unfold Z_chars.
  destruct (Z.ltb_spec z 0) as [Hz | Hz].
  - cbn. rewrite parse_nat_chars by exact H. do 3 f_equal. lia.
  - destruct (N_chars_head (Z.to_N z)) as (c & r & E & Hc).
    unfold parse_number. rewrite E. cbn [app].
    rewrite (digit_not_minus c Hc), app_comm_cons, <- E.
    rewrite parse_nat_chars by exact H. do 3 f_equal. lia.
Qed.

Lemma print_head (l : nat) (v : json) :
  exists c r, print l v = c :: r /\ value_start c = true.
Proof.
  destruct v as [| [] | z | s | [|v vs] | [|kv kvs]];
    try (eexists _, _; split; reflexivity).
  unfold print, Z_chars. destruct (z <? 0)%Z.
  - eexists _, _; split; reflexivity.
  - destruct (N_chars_head (Z.to_N z)) as (c & r & E & Hc).
    exists c, r. split; [exact E|]. unfold value_start. rewrite Hc.
    rewrite orb_true_r. reflexivity.
Qed.

Lemma skip_ws_nl (l : nat) (cs : list ascii) : skip_ws (nl l ++ cs) = skip_ws cs.
Proof.
  unfold nl. cbn. induction (l + (l + 0)) as [|k IH]; [reflexivity | exact IH].
Qed.

Lemma skip_ws_value (c : ascii) (cs : list ascii) :
  is_ws c = false -> skip_ws (c :: cs) = c :: cs.
Proof. intros H. cbn. rewrite H. reflexivity. Qed.

Lemma skip_ws_print (l : nat) (v : json) (cs : list ascii) :
  skip_ws (print l v ++ cs) = print l v ++ cs.
Proof.
  destruct (print_head l v) as (c & r & -> & Hc).
  apply skip_ws_value, (value_start_facts c Hc).
Qed.

Lemma skip_ws_idem (cs : list ascii) : skip_ws (skip_ws cs) = skip_ws cs.
Proof.
  induction cs as [|c cs IH]; [reflexivity|].
  cbn. destruct (is_ws c) eqn:E; [exact IH | cbn; rewrite E; reflexivity].
Qed.

Lemma parse_value_skip (fuel : nat) (cs : list ascii) :
  parse_value fuel (skip_ws cs) = parse_value fuel cs.
Proof. destruct fuel; [reflexivity|]. cbn. rewrite skip_ws_idem. reflexivity. Qed.

Section Loops.
Variable pv : list ascii -> option (json * list ascii).
Variable l : nat.
Hypothesis pv_skip : forall cs, pv (skip_ws cs) = pv cs.

Lemma parse_elems_join (vs : list json) :
  Forall (fun v => forall r, follow_ok r -> pv (print (S l) v ++ r) = Some (v, r)) vs ->
  vs <> [] ->
  forall n rest, length vs <= n ->
    parse_elems pv n
      (nl (S l) ++ join (sep l) (map (print (S l)) vs) ++ nl l ++ "]" :: rest)
    = Some (vs, rest).
Proof.
  induction 1 as [|v vs Hv Hvs IH]; [congruence|]. intros _ n rest Hn.
  destruct n as [|n]; [cbn in Hn; lia|]. cbn [parse_elems].
  rewrite <- pv_skip, skip_ws_nl.
  destruct vs as [|v' vs'].
  - cbn [map join]. rewrite skip_ws_print, Hv by (left + right; reflexivity || (cbn; auto)).
    rewrite skip_ws_nl. reflexivity.
  - change (join (sep l) (map (print (S l)) (v :: v' :: vs')))
      with (print (S l) v ++ sep l ++ join (sep l) (map (print (S l)) (v' :: vs'))).
    rewrite <- !app_assoc, skip_ws_print, Hv by (cbn; auto).
    cbn [sep app skip_ws]. change (is_ws ",") with false. cbn iota.
    change (Ascii.eqb "," ",") with true. cbn iota.
    rewrite IH; [reflexivity | congruence | cbn in *; lia].
Qed.

Lemma parse_members_join (kvs : list (string * json)) :
  Forall (fun kv => forall r, follow_ok r ->
            pv (print (S l) (snd kv) ++ r) = Some (snd kv, r)) kvs ->
  kvs <> [] ->
  forall n acc rest, length kvs <= n ->
    parse_members pv n acc
      (nl (S l) ++ join (sep l) (map (print_member l) kvs) ++ nl l ++ "}" :: rest)
    = Some (obj_sets acc kvs, rest).
Proof.
  induction 1 as [|[k v] kvs Hv Hvs IH]; [congruence|]. intros _ n acc rest Hn.
  destruct n as [|n]; [cbn in Hn; lia|]. cbn [parse_members].
  rewrite skip_ws_nl.
  assert (Hq : forall X, skip_ws (print_member l (k, v) ++ X)
               = dquote :: flat_map escape_char (chars k)
                    ++ dquote :: ":" :: " " :: print (S l) v ++ X).
  { intros X. unfold print_member, quote. cbn [fst snd app].
    rewrite <- !app_assoc. cbn [app]. apply skip_ws_value. reflexivity. }
  cbn [snd] in Hv.
  destruct kvs as [|kv' kvs'].
  - cbn [map join]. rewrite Hq.
    change (Ascii.eqb dquote dquote) with true. cbn iota.
    rewrite parse_chars_quoted. cbn [skip_ws].
    change (is_ws ":") with false. cbn iota.
    change (Ascii.eqb ":" ":") with true. cbn iota.
    rewrite <- pv_skip. cbn [skip_ws]. change (is_ws " ") with true. cbn iota.
    rewrite skip_ws_print, Hv by (cbn; auto).
    rewrite skip_ws_nl. cbn [skip_ws]. change (is_ws "}") with false. cbn iota.
    change (Ascii.eqb "}" ",") with false. change (Ascii.eqb "}" "}") with true.
    cbn iota. unfold chars. rewrite string_of_list_ascii_of_string. reflexivity.
  - change (join (sep l) (map (print_member l) ((k, v) :: kv' :: kvs')))
      with (print_member l (k, v) ++ sep l
              ++ join (sep l) (map (print_member l) (kv' :: kvs'))).
    rewrite <- !app_assoc, Hq.
    change (Ascii.eqb dquote dquote) with true. cbn iota.
    rewrite parse_chars_quoted. cbn [skip_ws].
    change (is_ws ":") with false. cbn iota.
    change (Ascii.eqb ":" ":") with true. cbn iota.
    rewrite <- pv_skip. cbn [skip_ws]. change (is_ws " ") with true. cbn iota.
    rewrite skip_ws_print, Hv by (cbn; auto).
    cbn [sep app skip_ws]. change (is_ws ",") with false. cbn iota.
    change (Ascii.eqb "," ",") with true. cbn iota.
    unfold chars. rewrite string_of_list_ascii_of_string.
    rewrite IH; [reflexivity | congruence | cbn in *; lia].
Qed.
End Loops.

Lemma nodup_keys_NoDup (ks : list string) : nodup_keys ks = true <-> NoDup ks.
Proof.
  induction ks as [|k ks IH]; cbn.
  - split; [constructor | reflexivity].
  - rewrite andb_true_iff, negb_true_iff, IH, NoDup_cons.
    assert (existsb (String.eqb k) ks = false <-> k ∉ ks) as ->; [|reflexivity].
    rewrite <- not_true_iff_false, existsb_exists. split.
    + intros H Hin. apply H. exists k. rewrite String.eqb_refl.
      split; [apply list_elem_of_In, Hin | reflexivity].
    + intros H (x & Hin & Hx). apply String.eqb_eq in Hx as <-.
      apply H, list_elem_of_In, Hin.
Qed.

Lemma obj_set_fresh (acc : list (string * json)) (k : string) (v : json) :
  k ∉ map fst acc -> obj_set acc k v = acc ++ [(k, v)].
Proof.
  induction acc as [|[k' v'] acc IH]; [reflexivity|]. cbn. intros H.
  apply not_elem_of_cons in H as [Hne H].
  destruct (String.eqb_spec k k'); [congruence|]. rewrite IH by exact H. reflexivity.
Qed.

Lemma obj_sets_fresh (kvs acc : list (string * json)) :
  NoDup (map fst (acc ++ kvs)) -> obj_sets acc kvs = acc ++ kvs.
Proof.
  revert acc. induction kvs as [|[k v] kvs IH]; intros acc H.
  - cbn. rewrite app_nil_r. reflexivity.
  - cbn [obj_sets fold_left fst snd]. fold (obj_sets (obj_set acc k v) kvs).
    rewrite obj_set_fresh.
    + rewrite IH; rewrite <- app_assoc; [reflexivity | exact H].
    + rewrite map_app in H. apply NoDup_app in H as (_ & H & _).
      intros Hin. apply (H k Hin). cbn. left.
Qed.

Lemma length_join_ge (s : list ascii) (xs : list (list ascii)) :
  list_sum (map (@length ascii) xs) <= length (join s xs).
Proof.
  induction xs as [|x [|y xs] IH]; cbn [join map list_sum fold_right] in *; [lia | lia |].
  rewrite !length_app. lia.
Qed.

Lemma json_size_print (v : json) : forall l, json_size v <= length (print l v).
Proof.
  induction v as [| b | n | s | vs IH | kvs IH] using json_ind'; intros l.
  - cbn. lia.
  - destruct b; cbn; lia.
  - destruct (print_head l (JNum n)) as (c & r & -> & _). cbn. lia.
  - cbn. lia.
  - assert (Hs : list_sum (map json_size vs)
                 <= list_sum (map (@length ascii) (map (print (S l)) vs))).
    { unfold list_sum. induction IH as [|x xs Hx _ IHxs]; cbn; [lia|].
      specialize (Hx (S l)). lia. }
    destruct vs as [|v vs]; [cbn; lia|].
    change (print l (JArr (v :: vs)))
      with ("[" :: nl (S l) ++ join (sep l) (map (print (S l)) (v :: vs)) ++ nl l ++ ["]"]).
    cbn [json_size length]. rewrite !length_app.
    pose proof (length_join_ge (sep l) (map (print (S l)) (v :: vs))) as Hj.
    cbn [length]. lia.
  - assert (Hs : list_sum (map (fun kv => S (json_size (snd kv))) kvs)
                 <= list_sum (map (@length ascii) (map (print_member l) kvs))).
    { unfold list_sum. induction IH as [|x xs Hx _ IHxs]; cbn [map fold_right]; [lia|].
      specialize (Hx (S l)). unfold print_member at 1. rewrite length_app.
      cbn [length]. lia. }
    destruct kvs as [|kv kvs]; [cbn; lia|].
    change (print l (JObj (kv :: kvs)))
      with ("{" :: nl (S l) ++ join (sep l) (map (print_member l) (kv :: kvs)) ++ nl l ++ ["}"]).
    cbn [json_size length]. rewrite !length_app.
    pose proof (length_join_ge (sep l) (map (print_member l) (kv :: kvs))) as Hj.
    cbn [length]. lia.
Qed.

Lemma list_sum_ge_length (f : json -> nat) (vs : list json) :
  (forall v, 1 <= f v) -> length vs <= list_sum (map f vs).
Proof.
  intros H. unfold list_sum. induction vs as [|v vs IH]; cbn; [lia|].
  specialize (H v). lia.
Qed.

Lemma json_size_pos (v : json) : 1 <= json_size v.
Proof. destruct v; cbn; lia. Qed.

Lemma list_sum_elem (vs : list json) (v : json) :
  v ∈ vs -> json_size v <= list_sum (map json_size vs).
Proof. unfold list_sum. induction 1; cbn; lia. Qed.

Lemma num_start_dispatch (c : ascii) :
  (Ascii.eqb c "-" || bool_decide (is_Some (digit_of c))) = true ->
  is_ws c = false /\ Ascii.eqb c "{" = false /\ Ascii.eqb c "[" = false
  /\ Ascii.eqb c dquote = false /\ Ascii.eqb c "t" = false
  /\ Ascii.eqb c "f" = false /\ Ascii.eqb c "n" = false.
Proof.
  destruct c as [[] [] [] [] [] [] [] []]; vm_compute; intuition congruence.
Qed.

Lemma Z_chars_head (z : Z) :
  exists c r, Z_chars z = c :: r
              /\ (Ascii.eqb c "-" || bool_decide (is_Some (digit_of c))) = true.
Proof.
  unfold Z_chars. destruct (z <? 0)%Z.
  - eexists _, _; split; reflexivity.
  - destruct (N_chars_head (Z.to_N z)) as (c & r & E & Hc).
    exists c, r. split; [exact E|]. rewrite Hc. apply orb_true_r.
Qed.

(** Parsing inverts printing, at any nesting level and before any
    admissible continuation. *)
Lemma parse_print (v : json) :
  wf_json v = true ->
  forall l fuel rest, json_size v <= fuel -> follow_ok rest ->
    parse_value fuel (print l v ++ rest) = Some (v, rest).
Proof.
  induction v as [| b | n | s | vs IH | kvs IH] using json_ind';
    intros Hwf l fuel rest Hfuel Hrest;
    (destruct fuel as [|f]; [pose proof (json_size_pos); cbn in Hfuel; lia|]).
  - reflexivity.
  - destruct b; reflexivity.
  - destruct (Z_chars_head n) as (c & r & E & Hc).
    pose proof (parse_number_chars n rest Hrest) as Hn.
    change (print l (JNum n)) with (Z_chars n). rewrite E in *.
    destruct (num_start_dispatch c Hc) as (H1 & H2 & H3 & H4 & H5 & H6 & H7).
    cbn [parse_value app skip_ws]. rewrite H1, H2, H3, H4, H5, H6, H7. exact Hn.
  - change (print l (JStr s)) with (quote s). unfold quote.
    cbn [app]. rewrite <- app_assoc. cbn [app parse_value skip_ws].
    change (is_ws dquote) with false. cbn iota.
    change (Ascii.eqb dquote "{") with false.
    change (Ascii.eqb dquote "[") with false.
    change (Ascii.eqb dquote dquote) with true. cbn iota.
    rewrite parse_chars_quoted. unfold chars.
    rewrite string_of_list_ascii_of_string. reflexivity.
  - destruct vs as [|v vs]; [reflexivity|].
    change (print l (JArr (v :: vs)))
      with ("[" :: nl (S l) ++ join (sep l) (map (print (S l)) (v :: vs)) ++ nl l ++ ["]"]).
    cbn [app]. rewrite <- !app_assoc. cbn [app parse_value skip_ws].
    change (is_ws "[") with false. cbn iota.
    change (Ascii.eqb "[" "{") with false. change (Ascii.eqb "[" "[") with true.
    cbn iota. rewrite skip_ws_nl.
    destruct (print_head (S l) v) as (c & r & E & Hc).
    destruct (value_start_facts c Hc) as (Hws & Hb & _).
    assert (Hj : exists X, join (sep l) (map (print (S l)) (v :: vs)) = c :: X).
    { destruct vs; cbn [map join]; rewrite E; eexists; reflexivity. }
    destruct Hj as (X & HX). rewrite HX at 1. cbn [app skip_ws]. rewrite Hws, Hb.
    cbn in Hfuel. cbn [wf_json] in Hwf. rewrite forallb_forall in Hwf.
    rewrite (parse_elems_join (parse_value f) l (fun cs => parse_value_skip f cs) (v :: vs));
      [reflexivity | | congruence | ].
    + apply Forall_forall. intros x Hx r0 Hr0.
      rewrite Forall_forall in IH. apply IH; [exact Hx | | | exact Hr0].
      * apply Hwf. apply list_elem_of_In, Hx.
      * pose proof (list_sum_elem (v :: vs) x Hx). cbn in H. lia.
    + pose proof (list_sum_ge_length json_size (v :: vs) json_size_pos). cbn in *. lia.
  - destruct kvs as [|kv kvs]; [reflexivity|].
    change (print l (JObj (kv :: kvs)))
      with ("{" :: nl (S l) ++ join (sep l) (map (print_member l) (kv :: kvs)) ++ nl l ++ ["}"]).
    cbn [app]. rewrite <- !app_assoc. cbn [app parse_value skip_ws].
    change (is_ws "{") with false. cbn iota.
    change (Ascii.eqb "{" "{") with true. cbn iota. rewrite skip_ws_nl.
    assert (Hj : exists X, join (sep l) (map (print_member l) (kv :: kvs)) = dquote :: X).
    { destruct kvs; cbn [map join]; unfold print_member at 1, quote; cbn [app];
        eexists; reflexivity. }
    destruct Hj as (X & HX). rewrite HX at 1. cbn [app skip_ws].
    change (is_ws dquote) with false. cbn iota.
    change (Ascii.eqb dquote "}") with false. cbn iota.
    cbn in Hfuel. cbn [wf_json] in Hwf. apply andb_true_iff in Hwf as [Hnd Hwf].
    rewrite forallb_forall in Hwf.
    rewrite (parse_members_join (parse_value f) l (fun cs => parse_value_skip f cs) (kv :: kvs));
      [ | | congruence | ].
    + rewrite obj_sets_fresh; [reflexivity|]. apply nodup_keys_NoDup, Hnd.
    + apply Forall_forall. intros x Hx r0 Hr0.
      rewrite Forall_forall in IH. apply IH; [exact Hx | | | exact Hr0].
      * apply Hwf. apply list_elem_of_In, Hx.
      * assert (json_size (snd x) <= list_sum (map (fun kv => S (json_size (snd kv))) (kv :: kvs))).
        { clear -Hx. unfold list_sum. induction Hx; cbn; lia. }
        cbn in H. lia.
    + assert (length (kv :: kvs) <= list_sum (map (fun kv => S (json_size (snd kv))) (kv :: kvs))).
      { clear. unfold list_sum. induction (kv :: kvs); cbn; lia. }
      cbn in *. lia.
Qed.

(** [JSON.parse(JSON.stringify(v, null, 2))] is [v]. *)
Lemma parse_stringify (v : json) :
  wf_json v = true -> parse (stringify v) = Some v.
Proof.
  intros Hwf. unfold parse, stringify, chars.
  rewrite list_ascii_of_string_of_list_ascii.
  rewrite <- (app_nil_r (print 0 v)) at 2.
  rewrite parse_print; [reflexivity | exact Hwf | | exact I].
  pose proof (json_size_print v 0). lia.
Qed.
End JsonFacts.

(** ** The engine *)

Section EngineFacts.
Context (env : Env).
Import Engine.

Lemma accepted_routed (msg : JSONRPCMessage) :
  accepted msg ->
  exists toolName, In toolName tool_names /\
    forall approved s,
      handleMessage env approved msg s
      = handleToolCall env approved toolName (rpc_id_of msg)
          (js_or (rpc_params msg) (JObj [])) s.
Proof.
  intros (method & Hm & Hin). unfold handleMessage. rewrite Hm.
  cbn in Hin.
  repeat (destruct Hin as [<- | Hin];
          [eexists; split; [|intros; reflexivity]; cbn; tauto|]).
  destruct Hin.
Qed.

Local Arguments js_or : simpl never.
Local Arguments appendLog : simpl never.
Local Arguments saveSession : simpl never.
Local Arguments loadSession : simpl never.
Local Arguments toolResult_json : simpl never.
Local Arguments member : simpl never.
Local Arguments str_truthy : simpl never.
Local Arguments js_succ : simpl never.
Local Arguments JsonText.stringify : simpl never.
Local Arguments session_json : simpl never.

Ltac split_branch :=
  match goal with
  | |- context [match ?x with _ => _ end] =>
      lazymatch x with
      | context [match _ with _ => _ end] => fail
      | _ => destruct x eqn:?
      end
  end.

Ltac unfold_ops :=
  unfold handleToolCall, execute, sendPrompt, startSession, resumeSession,
    bind, try_catch, call_tool, throw_if_error, join_args, persistSession,
    processWriteQueue, sendRPCResponse, sendRPC, logReceipt, push_history,
    push, isoNow, now, ret, throw, gets, on_world, on_client, when.

Ltac exec := repeat (progress (unfold_ops; cbn) || split_branch).

(** The same, in a session whose id is known to be truthy ([H]). *)
Ltac exec_in H :=
  repeat (progress (unfold_ops; cbn; rewrite ?H; cbn) || split_branch).

(** Whatever the operator answers and whatever the tool does, handling
    a tool call returns normally, pushes one message, a response to the
    request, and leaves the counter of outbound requests alone. *)
Lemma handle_tool_response (approved : bool) (toolName : string)
      (id : option rpc_id) (params : json) (s : State) :
  In toolName tool_names ->
  exists s' r,
    handleToolCall env approved toolName id params s = Ok tt s'
    /\ pushed (wd s') = pushed (wd s) ++ [r]
    /\ is_response_to id r
    /\ requestId (cl s') = requestId (cl s).
Proof.
  intros Hin. destruct s as [c w]. cbn in Hin.
  destruct Hin as [<- | [<- | [<- | [<- | []]]]]; destruct approved; exec;
    (eexists _, _; split; [reflexivity|]; cbn; split; [reflexivity|];
     split; [|reflexivity]; unfold is_response_to; cbn;
     split; [reflexivity|]; split; [reflexivity|];
     split; [intros [? ?]; congruence
            | intros ?; first [discriminate | eexists; reflexivity]]).
Qed.

(** C1.  Every inbound request whose method is a known tool spelling is
    answered exactly once: [handleMessage] returns normally and pushes
    exactly one message on the write queue, a response that carries the
    id of the request and either a result or an error, whether the
    operator rejects the call, the tool succeeds, fails or throws. *)
Theorem one_response_per_tool_request (approved : bool) (msg : JSONRPCMessage) (s : State) :
  accepted msg ->
  exists s' r,
    handleMessage env approved msg s = Ok tt s'
    /\ pushed (wd s') = pushed (wd s) ++ [r]
    /\ is_response_to (rpc_id_of msg) r.
Proof.
  intros Hacc. destruct (accepted_routed msg Hacc) as (tn & Hin & Hroute).
  rewrite Hroute.
  destruct (handle_tool_response approved tn (rpc_id_of msg)
              (js_or (rpc_params msg) (JObj [])) s Hin) as (s' & r & H1 & H2 & H3 & _).
  eauto.
Qed.

(** C4.  When the operator rejects a tool call, the one response pushed
    for the request is the error -32000 "User rejected tool call", no
    tool collaborator is called, and the history grows by the
    [tool_call] entry only: no [tool_result] entry is appended. *)
Theorem rejected_tool_call (msg : JSONRPCMessage) (s : State) :
  accepted msg ->
  exists s' e,
    handleMessage env false msg s = Ok tt s'
    /\ pushed (wd s') = pushed (wd s) ++ [rejection (rpc_id_of msg)]
    /\ executed (wd s') = executed (wd s)
    /\ he_type e = tool_call
    /\ history (cl s') = history (cl s) ++ [e].
Proof.
  intros Hacc. destruct (accepted_routed msg Hacc) as (tn & _ & Hroute).
  rewrite Hroute. destruct s as [c w]. exec;
    (eexists _, _; split; [reflexivity|]; cbn; repeat split; reflexivity).
Qed.

(** C8.  For fixed id and params, two spellings of one family (write
    file, read file, list directory, create terminal) are handled
    alike: [handleMessage] gives the same outcome and the same final
    state for both, namely that of [handleToolCall] under the name of
    the family. *)
Theorem spellings_route_alike (family : list string) (m1 m2 : string)
        (approved : bool) (id : option rpc_id) (params result : option json)
        (error : option JSONRPCError) (s : State) :
  In family families -> In m1 family -> In m2 family ->
  handleMessage env approved (mkMsg id (Some m1) params result error) s
  = handleMessage env approved (mkMsg id (Some m2) params result error) s
  /\ handleMessage env approved (mkMsg id (Some m1) params result error) s
     = handleToolCall env approved (hd EmptyString family) id
         (js_or params (JObj [])) s.
Proof.
  intros Hf H1 H2. cbn in Hf.
  destruct Hf as [<- | [<- | [<- | [<- | []]]]]; cbn in H1, H2;
    destruct H1 as [<- | [<- | [<- | []]]];
    destruct H2 as [<- | [<- | [<- | []]]];
    split; reflexivity.
Qed.

Lemma loadSession_missing (id : string) (fs : FileSystem) :
  files fs !! session_path env id = None -> loadSession env id fs = JNull.
Proof.
  intros H. unfold loadSession, fs_readFile. rewrite H.
  destruct (existsSync _ _); [|reflexivity].
  destruct (fs_fault env _); reflexivity.
Qed.

(** C9.  [resumeSession] with an id under which nothing is stored returns
    false and leaves the whole state as it was: session id, model,
    workspace directory and history.  The client is modified only
    after a load that gave a record. *)
Theorem resume_missing_session (id : string) (s : State) :
  files (fs (wd s)) !! session_path env id = None ->
  resumeSession env id s = Ok false s
  /\ forall s0 b s',
       resumeSession env id s0 = Ok b s' -> cl s' <> cl s0 ->
       truthy (loadSession env id (fs (wd s0))) = true.
Proof.
  intros H. split.
  - destruct s as [c w]. cbn in H.
    unfold resumeSession, bind, gets. cbn.
    rewrite (loadSession_missing id _ H). reflexivity.
  - intros [c0 w0] b s' Hrun Hne.
    destruct (truthy (loadSession env id (fs w0))) eqn:E; [exact E|].
    exfalso. apply Hne. unfold resumeSession, bind, gets in Hrun. cbn in Hrun.
    rewrite E in Hrun. cbn in Hrun. injection Hrun as _ <-. reflexivity.
Qed.

(** *** The session store *)

Lemma type_of_type_name (t : EntryType) : type_of_name (type_name t) = Some t.
Proof. destruct t; reflexivity. Qed.

Lemma entry_of_entry_json (e : HistoryEntry) : entry_of_json (entry_json e) = Some e.
Proof.
  destruct e as [[] d ts]; reflexivity.
Qed.

Lemma history_of_history_json (h : list HistoryEntry) :
  history_of_json (Some (JArr (map entry_json h))) = h.
Proof.
  unfold history_of_json. induction h as [|e h IH]; [reflexivity|].
  change (omap entry_of_json (map entry_json (e :: h)))
    with (match entry_of_json (entry_json e) with
          | Some y => y :: omap entry_of_json (map entry_json h)
          | None => omap entry_of_json (map entry_json h)
          end).
  rewrite entry_of_entry_json, IH. reflexivity.
Qed.

Lemma session_of_session_json (d : SessionData) : session_of_json (session_json d) = d.
Proof.
  destruct d as [sid m wsd ts h]. unfold session_of_json.
  change (get_prop (session_json (mkSession sid m wsd ts h)) "history")
    with (Some (JArr (map entry_json h))).
  rewrite history_of_history_json. reflexivity.
Qed.

Lemma wf_session_json (d : SessionData) :
  wf_history (sd_history d) -> wf_json (session_json d) = true.
Proof.
  intros H. unfold session_json. cbn. rewrite andb_true_r.
  induction H as [|e h He _ IH]; [reflexivity|].
  cbn. rewrite He, IH. reflexivity.
Qed.

Lemma saveSession_files (id : string) (d : SessionData) (fs : FileSystem) :
  store_ok env id ->
  files (saveSession env id d fs)
  = <[session_path env id := JsonText.stringify (session_json d)]> (files fs).
Proof.
  intros (Hm & Hw & _). unfold saveSession, fs_mkdir, fs_writeFile.
  rewrite Hm, Hw. destruct (existsSync _ _); reflexivity.
Qed.

Lemma loadSession_stored (id : string) (v : json) (fs : FileSystem) :
  fs_fault env (OpRead (session_path env id)) = None ->
  wf_json v = true ->
  files fs !! session_path env id = Some (JsonText.stringify v) ->
  loadSession env id fs = v.
Proof.
  intros Hr Hwf Hf. unfold loadSession, existsSync, fs_readFile.
  rewrite Hr, Hf. rewrite (bool_decide_eq_true_2 (is_Some (Some _))) by eauto.
  rewrite orb_true_r. rewrite JsonFacts.parse_stringify by exact Hwf. reflexivity.
Qed.

Lemma load_after_save (id : string) (d : SessionData) (fs : FileSystem) :
  store_ok env id -> wf_history (sd_history d) ->
  loadSession env id (saveSession env id d fs) = session_json d.
Proof.
  intros Hok Hwf. apply loadSession_stored.
  - apply Hok.
  - apply wf_session_json, Hwf.
  - rewrite saveSession_files by exact Hok. apply lookup_insert_eq.
Qed.

(** C6.  A session saved under its id and loaded by that id comes back
    equal in all fields, with the history in the same order (the store
    accepting the write, and the objects in the history having
    distinct keys, as JavaScript objects have). *)
Theorem save_load_round_trip (d : SessionData) (fs : FileSystem) :
  store_ok env (sd_sessionId d) -> wf_history (sd_history d) ->
  let loaded := loadSession env (sd_sessionId d)
                  (saveSession env (sd_sessionId d) d fs) in
  loaded = session_json d
  /\ session_of_json loaded = d
  /\ sd_history (session_of_json loaded) = sd_history d.
Proof.
  intros Hok Hwf loaded. subst loaded.
  rewrite load_after_save by assumption.
  rewrite session_of_session_json. auto.
Qed.

Lemma appendLog_files (e : LogEntry) (fs : FileSystem) :
  files (appendLog (fs_fault env) e fs) = files fs.
Proof. unfold appendLog, fs_appendLog. destruct (fs_fault env _); reflexivity. Qed.

Lemma appendLog_dirs (e : LogEntry) (fs : FileSystem) :
  dirs (appendLog (fs_fault env) e fs) = dirs fs.
Proof. unfold appendLog, fs_appendLog. destruct (fs_fault env _); reflexivity. Qed.

Lemma persistSession_saves (s : State) (sid : string) :
  sessionId (cl s) = Some sid -> str_truthy sid = true -> autoSave (cl s) = true ->
  persistSession env s
  = Ok tt (mkState (cl s)
             (set_fs (saveSession env sid
                        (mkSession sid (model (cl s)) (workspaceDir (cl s))
                           (toISOString env (clock env (ticks (wd s))))
                           (history (cl s)))
                        (fs (wd s)))
                (set_ticks (S (ticks (wd s))) (wd s)))).
Proof.
  intros Hs Ht Ha. destruct s as [c w]. cbn in *.
  unfold persistSession, bind, gets. cbn. rewrite Ha, Hs. cbn.
  unfold opt_str_truthy. rewrite Ht. reflexivity.
Qed.

(** A prompt sent in a session that exists stores the session, with the
    history as it then is. *)
Lemma sendPrompt_persists (message : string) (s : State) (sid : string) :
  sessionId (cl s) = Some sid -> str_truthy sid = true ->
  autoSave (cl s) = true -> store_ok env sid ->
  exists s' d,
    sendPrompt env message s = Ok tt s'
    /\ files (fs (wd s')) !! session_path env sid
       = Some (JsonText.stringify (session_json d))
    /\ sd_history d = history (cl s')
    /\ exists e, history (cl s') = history (cl s) ++ [e].
Proof.
  intros Hs Ht Ha Hok. destruct s as [c w].
  destruct c as [u t sid0 rid q iw m d h a]. cbn in Hs, Ha. subst sid0 a.
  exec_in Ht;
    (eexists _, _; split; [reflexivity|]; cbn;
     rewrite saveSession_files by exact Hok; rewrite lookup_insert_eq;
     split; [reflexivity|]; split; [reflexivity|]; eexists; reflexivity).
Qed.

(** So does an approved tool call, however it ends. *)
Lemma approved_call_persists (toolName : string) (id : option rpc_id)
      (params : json) (s : State) (sid : string) :
  In toolName tool_names ->
  sessionId (cl s) = Some sid -> str_truthy sid = true ->
  autoSave (cl s) = true -> store_ok env sid ->
  exists s' d,
    handleToolCall env true toolName id params s = Ok tt s'
    /\ files (fs (wd s')) !! session_path env sid
       = Some (JsonText.stringify (session_json d))
    /\ sd_history d = history (cl s')
    /\ exists h', history (cl s') = history (cl s) ++ h'.
Proof.
  intros Hin Hs Ht Ha Hok. destruct s as [c w].
  destruct c as [u t sid0 rid q iw m d h a]. cbn in Hs, Ha. subst sid0 a.
  cbn in Hin.
  destruct Hin as [<- | [<- | [<- | [<- | []]]]]; exec_in Ht;
    (eexists _, _; split; [reflexivity|]; cbn;
     rewrite saveSession_files by exact Hok; rewrite lookup_insert_eq;
     split; [reflexivity|]; split; [reflexivity|];
     rewrite <- ?app_assoc; eexists; reflexivity).
Qed.

(** C10.  On rejection [handleToolCall] returns without persisting: the
    files and directories of the store are as before, while the
    [tool_call] entry is in the history in memory.  The entry reaches
    the stored session with the next event that persists, a later
    prompt or an approved tool call, however that one ends. *)
Theorem rejection_is_not_persisted (msg : JSONRPCMessage) (s : State) :
  accepted msg ->
  exists s' e,
    handleMessage env false msg s = Ok tt s'
    /\ files (fs (wd s')) = files (fs (wd s))
    /\ dirs (fs (wd s')) = dirs (fs (wd s))
    /\ he_type e = tool_call
    /\ history (cl s') = history (cl s) ++ [e]
    /\ forall sid,
         sessionId (cl s) = Some sid -> str_truthy sid = true ->
         autoSave (cl s) = true -> store_ok env sid ->
         (forall message, exists s'' d,
             sendPrompt env message s' = Ok tt s''
             /\ files (fs (wd s'')) !! session_path env sid
                = Some (JsonText.stringify (session_json d))
             /\ In e (sd_history d))
         /\ (forall msg', accepted msg' -> exists s'' d,
               handleMessage env true msg' s' = Ok tt s''
               /\ files (fs (wd s'')) !! session_path env sid
                  = Some (JsonText.stringify (session_json d))
               /\ In e (sd_history d)).
Proof.
  intros Hacc. destruct (accepted_routed msg Hacc) as (tn & _ & Hroute).
  rewrite Hroute.
  assert (Hrej : exists s' e,
             handleToolCall env false tn (rpc_id_of msg)
               (js_or (rpc_params msg) (JObj [])) s = Ok tt s'
             /\ files (fs (wd s')) = files (fs (wd s))
             /\ dirs (fs (wd s')) = dirs (fs (wd s))
             /\ he_type e = tool_call
             /\ history (cl s') = history (cl s) ++ [e]
             /\ sessionId (cl s') = sessionId (cl s)
             /\ autoSave (cl s') = autoSave (cl s)).
  { destruct s as [c w]. exec;
      (eexists _, _; split; [reflexivity|]; cbn;
       rewrite !appendLog_files, !appendLog_dirs; repeat split; reflexivity). }
  destruct Hrej as (s' & e & Hrun & Hf & Hd & He & Hh & Hsid & Hauto).
  exists s', e. repeat (split; [assumption|]).
  intros sid Hs Ht Ha Hok. rewrite <- Hsid in Hs. rewrite <- Hauto in Ha. split.
  - intros message.
    destruct (sendPrompt_persists message s' sid Hs Ht Ha Hok)
      as (s'' & d & H1 & H2 & H3 & e' & H4).
    exists s'', d. repeat (split; [assumption|]).
    rewrite H3, H4, Hh. apply in_or_app. left. apply in_or_app. right. left. reflexivity.
  - intros msg' Hacc'.
    destruct (accepted_routed msg' Hacc') as (tn' & Hin' & Hroute').
    rewrite Hroute'.
    destruct (approved_call_persists tn' (rpc_id_of msg')
                (js_or (rpc_params msg') (JObj [])) s' sid Hin' Hs Ht Ha Hok)
      as (s'' & d & H1 & H2 & H3 & h' & H4).
    exists s'', d. repeat (split; [assumption|]).
    rewrite H3, H4, Hh. apply in_or_app. left. apply in_or_app. right. left. reflexivity.
Qed.

Lemma fallback_truthy (t : N) : str_truthy (fallback_session_id t) = true.
Proof. reflexivity. Qed.

(** A message without a method changes nothing in the client. *)
Lemma response_ignored (approved : bool) (resp : JSONRPCMessage) (s : State) :
  rpc_method resp = None ->
  exists s', handleMessage env approved resp s = Ok tt s' /\ cl s' = cl s.
Proof.
  intros H. unfold handleMessage. rewrite H. cbn.
  destruct (truthy_opt (rpc_result resp)); exec; eexists; split; reflexivity.
Qed.

(** C3, amended.  When [sendPrompt] is called without a session, the
    engine first sends a [session/new] request and then the prompt;
    [sendRPC] resolves to null without waiting for the response, so the
    session id adopted is the locally generated [session-<Date.now()>],
    and the response of the server, when it arrives, leaves it alone. *)
Theorem new_session_id_is_local (message : string) (s : State) :
  opt_str_truthy (sessionId (cl s)) = false ->
  exists s',
    sendPrompt env message s = Ok tt s'
    /\ sessionId (cl s') = Some (fallback_session_id (clock env (S (ticks (wd s)))))
    /\ pushed (wd s')
       = pushed (wd s) ++ [new_request (requestId (cl s));
                           prompt_request (js_succ (requestId (cl s))) message]
    /\ forall approved resp,
         rpc_method resp = None ->
         exists s'', handleMessage env approved resp s' = Ok tt s''
                     /\ sessionId (cl s'') = sessionId (cl s').
Proof.
  intros Hs. destruct s as [c w]. cbn in Hs.
  assert (exists s',
    sendPrompt env message (mkState c w) = Ok tt s'
    /\ sessionId (cl s') = Some (fallback_session_id (clock env (S (ticks w))))
    /\ pushed (wd s')
       = pushed w ++ [new_request (requestId c);
                      prompt_request (js_succ (requestId c)) message])
    as (s' & H1 & H2 & H3).
  { exec_in Hs; rewrite ?fallback_truthy in *; try discriminate;
      (eexists; split; [reflexivity|]; cbn; rewrite <- ?app_assoc;
       split; reflexivity). }
  exists s'. repeat (split; [assumption|]).
  intros approved resp Hr.
  destruct (response_ignored approved resp s' Hr) as (s'' & Hrun & Hcl).
  exists s''. rewrite Hcl. auto.
Qed.

(** After a prompt there is a session, and the history has one more
    entry, the prompt. *)
Lemma sendPrompt_effect (message : string) (s : State) :
  exists s' sid e,
    sendPrompt env message s = Ok tt s'
    /\ sessionId (cl s') = Some sid /\ str_truthy sid = true
    /\ autoSave (cl s') = autoSave (cl s)
    /\ history (cl s') = history (cl s) ++ [e]
    /\ he_type e = prompt /\ he_data e = JStr message.
Proof.
  destruct s as [c w]. destruct c as [u t sid0 rid q iw m d h a].
  destruct (opt_str_truthy sid0) eqn:Hs.
  - destruct sid0 as [sid|]; [cbn in Hs | discriminate].
    exec_in Hs;
      (eexists _, sid, _; split; [reflexivity|]; cbn; repeat split; assumption).
  - exec_in Hs;
      (eexists _, _, _; split; [reflexivity|]; cbn;
       repeat split; apply fallback_truthy).
Qed.

Ltac prune_tool Hsucc :=
  match goal with
  | H : writeFile env ?a ?b ?fs = (?o, _) |- _ =>
      let r := fresh "r" in
      let Hr := fresh "Hr" in
      let He := fresh "He" in
      destruct (Hsucc fs) as (r & Hr & He); rewrite H in Hr; cbn in Hr;
      first [discriminate Hr | injection Hr as ->];
      repeat match goal with
             | E : tr_error _ = _ |- _ => rewrite E in He; cbn in He
             end;
      try congruence
  end.

(** An approved write that succeeds: two more entries, the call and its
    result, and the session is stored with them. *)
Lemma write_call_effect (id : option rpc_id) (params : json) (s : State)
      (sid : string) :
  sessionId (cl s) = Some sid -> str_truthy sid = true ->
  autoSave (cl s) = true -> store_ok env sid ->
  (forall fs, succeeds (writeFile env (get_prop params "path")
                          (get_prop params "content") fs)) ->
  exists s' e1 e2 d,
    handleToolCall env true "writeTextFile" id params s = Ok tt s'
    /\ sessionId (cl s') = Some sid
    /\ history (cl s') = history (cl s) ++ [e1; e2]
    /\ (he_type e1 = tool_call
        /\ he_data e1 = JObj [("tool", JStr "writeTextFile"); ("params", params)])
    /\ (he_type e2 = tool_result
        /\ he_data e2 = JObj [("tool", JStr "writeTextFile");
                              ("result", JObj [("success", JBool true)])])
    /\ files (fs (wd s')) !! session_path env sid
       = Some (JsonText.stringify (session_json d))
    /\ sd_history d = history (cl s').
Proof.
  intros Hs Ht Ha Hok Hsucc. destruct s as [c w].
  destruct c as [u t sid0 rid q iw m d h a]. cbn in Hs, Ha. subst sid0 a.
  exec_in Ht; prune_tool Hsucc;
    (eexists _, _, _, _; split; [reflexivity|]; cbn;
     rewrite saveSession_files by exact Hok; rewrite lookup_insert_eq;
     rewrite <- ?app_assoc; repeat split; reflexivity).
Qed.

(** C2, amended.  After one prompt and one approved, successful
    [writeTextFile] call in a fresh client, the stored session has
    exactly three history entries, in the order [prompt], [tool_call],
    [tool_result]: the call is recorded at receipt, before the
    approval. *)
Theorem prompt_then_write_history (message : string) (msg : JSONRPCMessage)
        (s0 : State) :
  (exists method, rpc_method msg = Some method
                  /\ In method TOOL_METHODS.WRITE_FILE) ->
  history (cl s0) = [] -> autoSave (cl s0) = true ->
  (forall sid, store_ok env sid) ->
  wf_json (js_or (rpc_params msg) (JObj [])) = true ->
  (forall fs, succeeds (writeFile env
                          (get_prop (js_or (rpc_params msg) (JObj [])) "path")
                          (get_prop (js_or (rpc_params msg) (JObj [])) "content")
                          fs)) ->
  let s2 := run env s0 [EvPrompt message; EvInbound true msg] in
  exists sid,
    sessionId (cl s2) = Some sid
    /\ map he_type
         (sd_history (session_of_json (loadSession env sid (fs (wd s2)))))
       = [prompt; tool_call; tool_result].
Proof.
  intros (method & Hm & Hin) Hh Ha Hok Hwf Hsucc s2. subst s2.
  unfold run. cbn [fold_left step].
  destruct (sendPrompt_effect message s0)
    as (s1 & sid & e & Hrun1 & Hsid1 & Ht & Ha1 & Hh1 & He1 & He2).
  rewrite Hrun1. cbn [final]. rewrite Ha in Ha1. rewrite Hh in Hh1.
  assert (Hroute : handleMessage env true msg s1
                   = handleToolCall env true "writeTextFile" (rpc_id_of msg)
                       (js_or (rpc_params msg) (JObj [])) s1).
  { unfold handleMessage. rewrite Hm. cbn in Hin.
    destruct Hin as [<- | [<- | [<- | []]]]; reflexivity. }
  rewrite Hroute.
  destruct (write_call_effect (rpc_id_of msg) (js_or (rpc_params msg) (JObj []))
              s1 sid Hsid1 Ht Ha1 (Hok sid) Hsucc)
    as (s2 & e1 & e2 & d & Hrun2 & Hsid2 & Hh2 & (Ht1 & Hd1) & (Ht2 & Hd2) & Hf & Hd).
  rewrite Hrun2. cbn [final]. exists sid. split; [exact Hsid2|].
  rewrite (loadSession_stored sid (session_json d)); [ | apply Hok | | exact Hf].
  - rewrite session_of_session_json, Hd, Hh2, Hh1. cbn. congruence.
  - apply wf_session_json. rewrite Hd, Hh2, Hh1. cbn.
    repeat constructor.
    + rewrite He2. reflexivity.
    + rewrite Hd1. cbn. rewrite Hwf. reflexivity.
    + rewrite Hd2. reflexivity.
Qed.

(** *** The counter of outbound requests *)

Lemma bump_succ (j : nat) (n : Z) : bump j (js_succ n) = js_succ (bump j n).
Proof.
  unfold bump. induction j as [|j IH]; [reflexivity|].
  rewrite !Nat.iter_succ, IH. reflexivity.
Qed.

Lemma alloc_app (j k : nat) (n : Z) :
  alloc n j ++ alloc (bump j n) k = alloc n (j + k).
Proof.
  revert n. induction j as [|j IH]; intros n; [reflexivity|].
  cbn [alloc Nat.add app]. rewrite <- (IH (js_succ n)). rewrite bump_succ. reflexivity.
Qed.

Lemma bump_add (j k : nat) (n : Z) : bump k (bump j n) = bump (j + k) n.
Proof.
  unfold bump. rewrite Nat.add_comm. symmetry. apply Nat.iter_add.
Qed.

Lemma request_ids_app (l1 l2 : list JSONRPCMessage) :
  request_ids (l1 ++ l2) = request_ids l1 ++ request_ids l2.
Proof. apply omap_app. Qed.

Lemma handleMessage_counter (approved : bool) (msg : JSONRPCMessage) (s : State) :
  request_ids (pushed (wd (final (handleMessage env approved msg s))))
  = request_ids (pushed (wd s))
  /\ requestId (cl (final (handleMessage env approved msg s))) = requestId (cl s).
Proof.
  assert (Htool : forall tn, In tn tool_names ->
    request_ids (pushed (wd (final (handleToolCall env approved tn (rpc_id_of msg)
                                      (js_or (rpc_params msg) (JObj [])) s))))
    = request_ids (pushed (wd s))
    /\ requestId (cl (final (handleToolCall env approved tn (rpc_id_of msg)
                               (js_or (rpc_params msg) (JObj [])) s)))
       = requestId (cl s)).
  { intros tn Hin.
    destruct (handle_tool_response approved tn (rpc_id_of msg)
                (js_or (rpc_params msg) (JObj [])) s Hin)
      as (s' & r & -> & Hp & (_ & Hm & _) & Hr).
    cbn [final]. rewrite Hp, request_ids_app. split; [|exact Hr].
    unfold request_ids at 3. cbn. rewrite Hm. cbn. apply app_nil_r. }
  unfold handleMessage.
  destruct (negb (opt_str_truthy (rpc_method msg))).
  - destruct s as [c w]. destruct (truthy_opt (rpc_result msg)); exec; split; reflexivity.
  - cbn zeta. unfold tool_names in Htool.
    repeat (match goal with
            | |- context [if matchesTool ?m ?f then _ else _] =>
                destruct (matchesTool m f)
            end; [apply Htool; cbn; tauto|]).
    split; reflexivity.
Qed.

Lemma step_counter (s : State) (ev : Event) :
  exists j,
    request_ids (pushed (wd (step env s ev)))
    = request_ids (pushed (wd s)) ++ alloc (requestId (cl s)) j
    /\ requestId (cl (step env s ev)) = bump j (requestId (cl s)).
Proof.
  destruct ev as [| message | approved msg | sid | m | d | b].
  - destruct s as [c w]. unfold step. exec.
    + exists 1. cbn. rewrite request_ids_app. split; reflexivity.
    + exists 1. cbn. rewrite request_ids_app. split; reflexivity.
    + exists 0. cbn. rewrite app_nil_r. split; reflexivity.
  - destruct s as [c w]. unfold step. exec;
      first [ exists 2; cbn; rewrite !request_ids_app, <- app_assoc; split; reflexivity
            | exists 1; cbn; rewrite !request_ids_app; split; reflexivity ].
  - exists 0. cbn [step alloc bump Nat.iter]. rewrite app_nil_r.
    apply handleMessage_counter.
  - exists 0. destruct s as [c w]. unfold step. exec;
      cbn; rewrite app_nil_r; split; reflexivity.
  - exists 0. cbn. rewrite app_nil_r. split; reflexivity.
  - exists 0. cbn. rewrite app_nil_r. split; reflexivity.
  - exists 0. cbn. rewrite app_nil_r. split; reflexivity.
Qed.

Lemma run_counter (evs : list Event) (s : State) :
  exists j,
    request_ids (pushed (wd (run env s evs)))
    = request_ids (pushed (wd s)) ++ alloc (requestId (cl s)) j
    /\ requestId (cl (run env s evs)) = bump j (requestId (cl s)).
Proof.
  revert s. induction evs as [|ev evs IH]; intros s.
  - exists 0. cbn. rewrite app_nil_r. split; reflexivity.
  - cbn [run fold_left]. fold (run env (step env s ev) evs).
    destruct (step_counter s ev) as (j & Hj1 & Hj2).
    destruct (IH (step env s ev)) as (k & Hk1 & Hk2).
    exists (j + k). rewrite Hk1, Hk2, Hj1, Hj2, <- app_assoc, alloc_app, bump_add.
    split; reflexivity.
Qed.

Lemma length_alloc (n : Z) (j : nat) : length (alloc n j) = j.
Proof. revert n. induction j as [|j IH]; intros n; cbn; [|rewrite IH]; reflexivity. Qed.

Lemma alloc_exact (j : nat) (n : Z) :
  (0 <= n)%Z -> (n + Z.of_nat j <= 2 ^ 53)%Z ->
  alloc n j = map (fun i => (n + Z.of_nat i)%Z) (seq 0 j).
Proof.
  revert n. induction j as [|j IH]; intros n H0 Hb; [reflexivity|].
  cbn [alloc seq map]. rewrite Z.add_0_r. f_equal.
  unfold js_succ. destruct (Z.ltb_spec n (2 ^ 53)); [|lia].
  rewrite IH by lia. rewrite <- seq_shift, map_map.
  apply map_ext. intros i. lia.
Qed.

Lemma sorted_from (j : nat) (n : Z) :
  StronglySorted Z.lt (map (fun i => (n + Z.of_nat i)%Z) (seq 0 j)).
Proof.
  revert n. induction j as [|j IH]; intros n; [constructor|].
  cbn [seq map]. rewrite <- seq_shift, map_map. constructor.
  - erewrite map_ext; [apply (IH (n + 1)%Z)|]. intros i. cbn. lia.
  - apply Forall_forall. intros x Hx. apply list_elem_of_In, in_map_iff in Hx.
    destruct Hx as (i & <- & _). lia.
Qed.

Lemma sorted_lt_NoDup (l : list Z) : StronglySorted Z.lt l -> NoDup l.
Proof.
  induction 1 as [|x l _ IH Hx]; constructor; [|exact IH].
  intros Hin. rewrite Forall_forall in Hx. specialize (Hx x Hin). lia.
Qed.

(** C7.  The ids that [sendRPC] gives to outbound requests over the
    life of a client are 0, 1, 2, ... in this order: they start at 0,
    increase strictly and are never reused (for as long as the counter
    stays in the range where a JavaScript number counts exactly, up to
    2^53 requests). *)
Theorem request_ids_never_reused (url : string) (model workspaceDir : option string)
        (w0 : World) (evs : list Event) :
  pushed w0 = [] ->
  let s := run env (mkState (newClient env url model workspaceDir) w0) evs in
  let ids := request_ids (pushed (wd s)) in
  (Z.of_nat (length ids) <= 2 ^ 53)%Z ->
  ids = map Z.of_nat (seq 0 (length ids))
  /\ StronglySorted Z.lt ids
  /\ NoDup ids.
Proof.
  intros Hp s ids Hb. subst s ids.
  destruct (run_counter evs (mkState (newClient env url model workspaceDir) w0))
    as (j & Hj & _).
  cbn in Hj. rewrite Hp in Hj. cbn in Hj. rewrite Hj in *.
  rewrite length_alloc in *.
  rewrite alloc_exact by lia. cbn [Z.add].
  assert (Hs : StronglySorted Z.lt (map Z.of_nat (seq 0 j))).
  { apply (sorted_from j 0). }
  split; [reflexivity|]. split; [exact Hs | apply sorted_lt_NoDup, Hs].
Qed.
End EngineFacts.

(** ** The write queue *)

Section SerializerFacts.
Import Serializer.

Lemma drain_loop_idle (q : list JSONRPCMessage) (c : Client) (w : World) (u : string) :
  transport c = Some u ->
  drain_loop q c w []
  = match q with
    | [] => mkSys (mkState (set_isWriting false (set_writeQueue [] c)) w) []
    | msg :: q' =>
        mkSys (mkState (set_writeQueue q' c) (set_wire (wire w ++ [msg]) w)) [msg]
    end.
Proof. intros H. destruct q; cbn; rewrite ?H; reflexivity. Qed.

Lemma next_inv (y y' : Sys) (e : Ev) (u : string) :
  transport (cl (sys y)) = Some u -> inv y -> next y e = Some y' ->
  transport (cl (sys y')) = Some u
  /\ inv y'
  /\ stream y' = stream y ++ enqueued [e].
Proof.
  destruct y as [[c w] susp]. cbn [sys cl wd suspended]. intros Ht Hinv Hn.
  destruct e as [msg | k]; cbn in Hn.
  - injection Hn as <-. unfold enqueue, call_processWriteQueue, Engine.push.
    cbn. destruct Hinv as [(Hw & Hs & Hq) | (Hw & m & Hs)];
      cbn in Hw, Hs |- *; try cbn in Hq; subst; rewrite Hw; cbn.
    + rewrite Hq. cbn. rewrite Ht. unfold inv, stream. cbn.
      split; [exact Ht|]. split.
      * right. split; [reflexivity|]. eexists; reflexivity.
      * rewrite !app_nil_r. reflexivity.
    + unfold inv, stream. cbn. split; [exact Ht|]. split.
      * right. split; [exact Hw|]. eexists; reflexivity.
      * rewrite app_assoc. reflexivity.
  - unfold settle in Hn. cbn in Hn.
    destruct Hinv as [(Hw & Hs & Hq) | (Hw & m & Hs)]; cbn in Hw, Hs; subst.
    + rewrite lookup_nil in Hn. discriminate.
    + destruct k as [|k]; [|cbn in Hn; discriminate].
      cbn in Hn. injection Hn as <-.
      rewrite (drain_loop_idle _ _ _ u Ht).
      destruct (writeQueue c) as [|h q'] eqn:Hq; unfold inv, stream; cbn.
      * rewrite Hq, !app_nil_r. split; [exact Ht|]. split; [left; auto | reflexivity].
      * rewrite Hq, !app_nil_r, <- app_assoc. split; [exact Ht|].
        split; [right; split; [exact Hw | eexists; reflexivity] | reflexivity].
Qed.

Lemma enqueued_app (es1 es2 : list Ev) :
  enqueued (es1 ++ es2) = enqueued es1 ++ enqueued es2.
Proof. apply omap_app. Qed.

Lemma exec_inv (es : list Ev) (y y' : Sys) (u : string) :
  transport (cl (sys y)) = Some u -> inv y -> exec y es = Some y' ->
  transport (cl (sys y')) = Some u
  /\ inv y'
  /\ stream y' = stream y ++ enqueued es.
Proof.
  revert y. induction es as [|e es IH]; intros y Ht Hinv Hex; cbn in Hex.
  - injection Hex as <-. cbn. rewrite app_nil_r. auto.
  - destruct (next y e) as [y1|] eqn:Hn; [|discriminate].
    destruct (next_inv y y1 e u Ht Hinv Hn) as (Ht1 & Hinv1 & Hs1).
    destruct (IH y1 Ht1 Hinv1 Hex) as (Ht' & Hinv' & Hs').
    repeat split; try assumption.
    rewrite Hs', Hs1, <- app_assoc.
    change (e :: es) with ([e] ++ es). rewrite enqueued_app. reflexivity.
Qed.

(** From any state of the invariant, letting the pending writes settle
    empties the queue onto the transport, in order. *)
Lemma settle_last (c : Client) (w : World) (m : JSONRPCMessage) (u : string) :
  transport c = Some u -> writeQueue c = [] ->
  next (mkSys (mkState c w) [m]) (Settle 0)
  = Some (mkSys (mkState (set_isWriting false (set_writeQueue [] c)) w) []).
Proof.
  intros Ht Hq. cbn. unfold settle. cbn.
  rewrite (drain_loop_idle _ _ _ u Ht).
  destruct (writeQueue c); [reflexivity | discriminate].
Qed.

Lemma settle_next (c : Client) (w : World) (m h : JSONRPCMessage)
      (q : list JSONRPCMessage) (u : string) :
  transport c = Some u -> writeQueue c = h :: q ->
  next (mkSys (mkState c w) [m]) (Settle 0)
  = Some (mkSys (mkState (set_writeQueue q c) (set_wire (wire w ++ [h]) w)) [h]).
Proof.
  intros Ht Hq. cbn. unfold settle. cbn.
  rewrite (drain_loop_idle _ _ _ u Ht).
  destruct (writeQueue c) as [|h' q']; [discriminate|].
  injection Hq as -> ->. reflexivity.
Qed.

Lemma settle_all (q : list JSONRPCMessage) :
  forall (y : Sys) (u : string),
    transport (cl (sys y)) = Some u -> inv y ->
    writeQueue (cl (sys y)) = q ->
    exists y',
      exec y (repeat (Settle 0) (length (suspended y) + length q)) = Some y'
      /\ quiescent y'
      /\ wire (wd (sys y')) = stream y.
Proof.
  induction q as [|h q IH]; intros [[c w] susp] u Ht Hinv Hq;
    (destruct Hinv as [(Hw & Hs & Hq') | (Hw & msg & Hs)];
     cbn [suspended] in Hs; subst susp).
  - exists (mkSys (mkState c w) []). split; [reflexivity|].
    split; [repeat split; assumption|].
    unfold stream. cbn. symmetry.
    etransitivity; [apply (f_equal (app (wire w)) Hq) | apply app_nil_r].
  - cbn [suspended length Nat.add repeat exec].
    rewrite (settle_last c w msg u Ht Hq).
    eexists. split; [reflexivity|]. split; [repeat split; reflexivity|].
    unfold stream. cbn. symmetry.
    etransitivity; [apply (f_equal (app (wire w)) Hq) | apply app_nil_r].
  - exfalso. cbn in Hq, Hq'. congruence.
  - cbn [suspended length Nat.add repeat exec].
    rewrite (settle_next c w msg h q u Ht Hq).
    destruct (IH (mkSys (mkState (set_writeQueue q c)
                           (set_wire (wire w ++ [h]) w)) [h]) u)
      as (y' & Hex & Hqu & Hwire).
    + exact Ht.
    + right. split; [exact Hw | eexists; reflexivity].
    + reflexivity.
    + exists y'. cbn [suspended length Nat.add] in Hex.
      split; [exact Hex|]. split; [exact Hqu|].
      rewrite Hwire. unfold stream. cbn. rewrite <- app_assoc.
      apply (f_equal (app (wire w))). symmetry. exact Hq.
Qed.

(** C5.  Whatever the interleaving of enqueue calls and of completions
    of writes, the transport is given the messages in the order in
    which they were enqueued, each once: what it has received followed
    by what waits in the queue is the sequence of the enqueued
    messages.  At most one activation of [processWriteQueue] is in
    progress; a call made while one is in progress returns at once,
    leaving its message in the queue; and the activation in progress
    then writes out everything that waits. *)
Theorem write_queue_fifo (y0 y : Sys) (es : list Ev) (u : string) :
  quiescent y0 -> transport (cl (sys y0)) = Some u -> exec y0 es = Some y ->
  wire (wd (sys y)) ++ writeQueue (cl (sys y))
  = wire (wd (sys y0)) ++ enqueued es
  /\ length (suspended y) <= 1
  /\ (forall msg,
        isWriting (cl (sys y)) = true ->
        enqueue msg y = mkSys (final (Engine.push msg (sys y))) (suspended y))
  /\ exists y',
       exec y (repeat (Settle 0)
                 (length (suspended y) + length (writeQueue (cl (sys y)))))
       = Some y'
       /\ quiescent y'
       /\ wire (wd (sys y')) = wire (wd (sys y0)) ++ enqueued es.
Proof.
  intros (Hw0 & Hs0 & Hq0) Ht Hex.
  destruct (exec_inv es y0 y u Ht) as (Ht' & Hinv & Hstream); [left; auto | exact Hex |].
  unfold stream in Hstream. rewrite Hq0, app_nil_r in Hstream.
  split; [exact Hstream|]. split.
  { destruct Hinv as [(_ & -> & _) | (_ & m & ->)]; cbn; lia. }
  split.
  { intros msg Hw. unfold enqueue, call_processWriteQueue. cbn. rewrite Hw. reflexivity. }
  destruct (settle_all (writeQueue (cl (sys y))) y u Ht' Hinv eq_refl)
    as (y' & Hex' & Hqu & Hwire).
  exists y'. split; [exact Hex'|]. split; [exact Hqu|].
  rewrite Hwire. exact Hstream.
Qed.
End SerializerFacts.

(** ** The big-step drain and the step relation *)

Section Refinement.
Import Serializer.

Lemma drain_connected (u : string) (q sent : list JSONRPCMessage) :
  Engine.drain (Some u) q sent = sent ++ q.
Proof.
  revert sent. induction q as [|m q IH]; intros sent; cbn.
  - symmetry. apply app_nil_r.
  - rewrite IH, <- app_assoc. reflexivity.
Qed.

Lemma settle_run (q : list JSONRPCMessage) :
  forall (c : Client) (w : World) (m : JSONRPCMessage) (u : string),
    transport c = Some u -> writeQueue c = q ->
    exec (mkSys (mkState c w) [m]) (repeat (Settle 0) (S (length q)))
    = Some (mkSys (mkState (set_isWriting false (set_writeQueue [] c))
                     (set_wire (wire w ++ q) w)) []).
Proof.
  induction q as [|h q IH]; intros c w m u Ht Hq.
  - cbn [length repeat exec]. rewrite (settle_last c w m u Ht Hq).
    destruct w. cbn. rewrite app_nil_r. reflexivity.
  - change (repeat (Settle 0) (S (length (h :: q))))
      with (Settle 0 :: repeat (Settle 0) (S (length q))).
    change (exec ?y (?e :: ?es))
      with (match next y e with Some y' => exec y' es | None => None end).
    rewrite (settle_next c w m h q u Ht Hq).
    rewrite (IH (set_writeQueue q c) (set_wire (wire w ++ [h]) w) h u Ht eq_refl).
    cbn. rewrite <- app_assoc. reflexivity.
Qed.

(** [processWriteQueue] run to completion is the suspended function
    resumed until nothing is left: the two models of the drain agree. *)
Lemma processWriteQueue_refines (s : State) (u : string) :
  isWriting (cl s) = false -> transport (cl s) = Some u ->
  exec (call_processWriteQueue (mkSys s []))
       (repeat (Settle 0) (length (writeQueue (cl s))))
  = Some (mkSys (final (Engine.processWriteQueue s)) []).
Proof.
  destruct s as [[u0 t sid rid q iw m d h a] w]. cbn. intros -> ->.
  unfold call_processWriteQueue, Engine.processWriteQueue, bind, gets, on_client,
    on_world. cbn. rewrite drain_connected.
  destruct q as [|x q]; [destruct w; cbn; rewrite app_nil_r; reflexivity|].
  cbn [drain_loop transport set_isWriting length].
  match goal with
  | |- exec (mkSys (mkState ?c1 ?w1) _) _ = _ =>
      rewrite (settle_run q c1 w1 x u eq_refl eq_refl)
  end.
  cbn. rewrite <- app_assoc. reflexivity.
Qed.
End Refinement.

(** ** The scenarios of the specification, run *)

Section Scenarios.
Import Engine Demo.

Lemma write_request_accepted : accepted write_request.
Proof. exists "writeTextFile". split; [reflexivity | cbn; tauto]. Qed.

Lemma demo_store_ok (sid : string) : store_ok demo_env sid.
Proof. repeat split. Qed.

Lemma one_response_per_tool_request_witness :
  accepted write_request /\
  exists s' r,
    handleMessage demo_env true write_request fresh = Ok tt s'
    /\ pushed (wd s') = pushed (wd fresh) ++ [r]
    /\ is_response_to (rpc_id_of write_request) r.
Proof.
  split; [exact write_request_accepted|].
  apply (one_response_per_tool_request demo_env true write_request fresh).
  exists "writeTextFile". split; [reflexivity | cbn; tauto].
Defined.

Lemma rejected_tool_call_witness :
  accepted write_request /\
  exists s' e,
    handleMessage demo_env false write_request fresh = Ok tt s'
    /\ pushed (wd s') = pushed (wd fresh) ++ [rejection (rpc_id_of write_request)]
    /\ executed (wd s') = executed (wd fresh)
    /\ he_type e = tool_call
    /\ history (cl s') = history (cl fresh) ++ [e].
Proof.
  split; [exact write_request_accepted|].
  apply (rejected_tool_call demo_env write_request fresh).
  exists "writeTextFile". split; [reflexivity | cbn; tauto].
Defined.

Lemma spellings_route_alike_witness :
  (In TOOL_METHODS.WRITE_FILE families
   /\ In "fs/writeTextFile" TOOL_METHODS.WRITE_FILE
   /\ In "fs.writeTextFile" TOOL_METHODS.WRITE_FILE)
  /\ handleMessage demo_env true
    (mkMsg (Some (IdStr "req_1")) (Some "fs/writeTextFile") None None None) fresh
  = handleMessage demo_env true
      (mkMsg (Some (IdStr "req_1")) (Some "fs.writeTextFile") None None None) fresh
  /\ handleMessage demo_env true
       (mkMsg (Some (IdStr "req_1")) (Some "fs/writeTextFile") None None None) fresh
     = handleToolCall demo_env true (hd EmptyString TOOL_METHODS.WRITE_FILE)
         (Some (IdStr "req_1")) (js_or None (JObj [])) fresh.
Proof.
  split; [cbn; tauto|].
  apply (spellings_route_alike demo_env TOOL_METHODS.WRITE_FILE);
    cbn; tauto.
Defined.

Lemma resume_missing_session_witness :
  files (fs (wd fresh)) !! session_path demo_env "none" = None
  /\ resumeSession demo_env "none" fresh = Ok false fresh.
Proof.
  split; [reflexivity|].
  apply (resume_missing_session demo_env "none" fresh). reflexivity.
Defined.

Lemma save_load_round_trip_witness :
  store_ok demo_env (sd_sessionId demo_session)
  /\ wf_history (sd_history demo_session)
  /\ session_of_json
       (loadSession demo_env (sd_sessionId demo_session)
          (saveSession demo_env (sd_sessionId demo_session) demo_session emptyFs))
     = demo_session.
Proof.
  assert (H1 : store_ok demo_env (sd_sessionId demo_session)) by (repeat split).
  assert (H2 : wf_history (sd_history demo_session)) by (repeat constructor).
  split; [exact H1|]. split; [exact H2|].
  apply (save_load_round_trip demo_env demo_session emptyFs H1 H2).
Defined.

Lemma rejection_is_not_persisted_witness :
  accepted write_request /\
  exists s' e,
    handleMessage demo_env false write_request fresh = Ok tt s'
    /\ files (fs (wd s')) = files (fs (wd fresh))
    /\ he_type e = tool_call
    /\ history (cl s') = history (cl fresh) ++ [e].
Proof.
  split; [exact write_request_accepted|].
  destruct (rejection_is_not_persisted demo_env write_request fresh)
    as (s' & e & H1 & H2 & _ & H3 & H4 & _).
  - exists "writeTextFile". split; [reflexivity | cbn; tauto].
  - exists s', e. auto.
Defined.

Lemma new_session_id_is_local_witness :
  opt_str_truthy (sessionId (cl fresh)) = false
  /\ exists s',
       sendPrompt demo_env "hello" fresh = Ok tt s'
       /\ sessionId (cl s')
          = Some (fallback_session_id (clock demo_env (S (ticks (wd fresh))))).
Proof.
  split; [reflexivity|].
  destruct (new_session_id_is_local demo_env "hello" fresh) as (s' & H1 & H2 & _).
  - reflexivity.
  - exists s'. auto.
Defined.

Lemma prompt_then_write_history_witness :
  (history (cl fresh) = [] /\ autoSave (cl fresh) = true
   /\ wf_json (js_or (rpc_params write_request) (JObj [])) = true)
  /\ exists sid,
    sessionId (cl (run demo_env fresh [EvPrompt "hello"; EvInbound true write_request]))
    = Some sid
    /\ map he_type
         (sd_history
            (session_of_json
               (loadSession demo_env sid
                  (fs (wd (run demo_env fresh
                             [EvPrompt "hello"; EvInbound true write_request]))))))
       = [prompt; tool_call; tool_result].
Proof.
  split; [repeat split|].
  apply (prompt_then_write_history demo_env "hello" write_request fresh).
  - exists "writeTextFile". split; [reflexivity | cbn; tauto].
  - reflexivity.
  - reflexivity.
  - intros sid. repeat split.
  - reflexivity.
  - intros fs0. eexists. split; reflexivity.
Defined.

Lemma request_ids_never_reused_witness :
  let ids := request_ids (pushed (wd (run demo_env fresh scenario))) in
  (pushed emptyWorld = [] /\ (Z.of_nat (length ids) <= 2 ^ 53)%Z)
  /\ ids = map Z.of_nat (seq 0 (length ids))
  /\ StronglySorted Z.lt ids
  /\ NoDup ids.
Proof.
  intros ids.
  assert (Hb : (Z.of_nat (length ids) <= 2 ^ 53)%Z) by (vm_compute; discriminate).
  split; [split; [reflexivity | exact Hb]|].
  apply (request_ids_never_reused demo_env "http://localhost:3000" None None
           emptyWorld scenario eq_refl Hb).
Defined.

Lemma write_queue_fifo_witness :
  Serializer.quiescent idle
  /\ transport (cl (Serializer.sys idle)) = Some "http://localhost:3000"
  /\ exists y,
    Serializer.exec idle two_sends = Some y
    /\ wire (wd (Serializer.sys y)) ++ writeQueue (cl (Serializer.sys y))
       = wire (wd (Serializer.sys idle)) ++ Serializer.enqueued two_sends
    /\ length (Serializer.suspended y) <= 1.
Proof.
  split; [repeat split|]. split; [reflexivity|].
  eexists. split; [reflexivity|].
  match goal with
  | |- context [Serializer.suspended ?y] =>
      destruct (write_queue_fifo idle y two_sends "http://localhost:3000")
        as (H1 & H2 & _); [repeat split | reflexivity | reflexivity |]
  end.
  split; [exact H1 | exact H2].
Defined.

(** In the scenario of the specification the stored history has three
    entries, not two: the tool call is there between the prompt and
    the result. *)
Lemma scenario_stores_three_entries :
  map he_type (persisted_history (run demo_env fresh scenario))
  = [prompt; tool_call; tool_result]
  /\ map he_type (persisted_history (run demo_env fresh scenario))
     <> [prompt; tool_result]
  /\ length (persisted_history (run demo_env fresh scenario)) <> 2.
Proof. vm_compute. repeat split; discriminate. Qed.

(** The agent answers [session/new] with the id "mock-session-1"; the
    client keeps the id it made up itself. *)
Lemma server_session_id_not_adopted :
  opt_str_field (default JNull (rpc_result (session_new_response 1))) "sessionId"
  = Some "mock-session-1"
  /\ sessionId (cl (run demo_env fresh new_session_scenario))
     = Some "session-1700000000002"
  /\ sessionId (cl (run demo_env fresh new_session_scenario))
     <> Some "mock-session-1".
Proof. vm_compute. repeat split; discriminate. Qed.
End Scenarios.

(** ** Strings *)

Section StringFacts.
Import JsonText.

Lemma chars_app (a b : string) : chars (a ++ b)%string = (chars a ++ chars b)%list.
Proof.
  unfold chars. induction a as [|c a IH]; cbn; [|rewrite <- IH]; reflexivity.
Qed.

Lemma chars_inj (a b : string) : chars a = chars b -> a = b.
Proof.
  intros H. rewrite <- (string_of_list_ascii_of_string a),
    <- (string_of_list_ascii_of_string b). unfold chars in H. rewrite H. reflexivity.
Qed.

Lemma strip_prefix_Some (p cs r : list ascii) :
  strip_prefix p cs = Some r <-> cs = (p ++ r)%list.
Proof.
  revert cs. induction p as [|a p IH]; intros cs; cbn.
  - split; congruence.
  - destruct cs as [|c cs]; [split; discriminate|].
    destruct (Ascii.eqb_spec a c) as [->|Hne].
    + rewrite IH. split; congruence.
    + split; [discriminate | congruence].
Qed.

Lemma endsWith_app (a p : string) : endsWith (a ++ p)%string p = true.
Proof.
  unfold endsWith. rewrite chars_app, length_app.
  apply andb_true_intro. split.
  - apply Nat.leb_le. lia.
  - apply bool_decide_eq_true.
    replace (length (chars a) + length (chars p) - length (chars p))
      with (length (chars a)) by lia.
    apply drop_app_length.
Qed.

Lemma endsWith_inv (s p : string) :
  endsWith s p = true -> exists a, s = (a ++ p)%string.
Proof.
  unfold endsWith. intros H. apply andb_prop in H as [_ H].
  apply bool_decide_eq_true in H.
  exists (string_of_list_ascii (take (length (chars s) - length (chars p)) (chars s))).
  apply chars_inj. rewrite chars_app. unfold chars in *.
  rewrite list_ascii_of_string_of_list_ascii.
  etransitivity; [symmetry; apply (take_drop (length (list_ascii_of_string s)
                                               - length (list_ascii_of_string p)))|].
  f_equal. exact H.
Qed.

(** Where [replace] finds the pattern: either nowhere, and the string
    stays, or after some [a], and the result is the string without
    that occurrence. *)
Lemma replace_chars_cases (p cs : list ascii) :
  (replace_chars p [] cs = cs /\ forall a t, cs <> (a ++ p ++ t)%list)
  \/ exists a t, cs = (a ++ p ++ t)%list /\ replace_chars p [] cs = (a ++ t)%list.
Proof.
  induction cs as [|c cs IH].
  - cbn. destruct (strip_prefix p []) eqn:E.
    + apply strip_prefix_Some in E. right. exists [], l. split; [exact E | reflexivity].
    + left. split; [reflexivity|]. intros a t H.
      destruct a; [|discriminate].
      assert (strip_prefix p [] = Some t) by (apply strip_prefix_Some; exact H).
      congruence.
  - cbn. destruct (strip_prefix p (c :: cs)) eqn:E.
    + apply strip_prefix_Some in E. right. exists [], l. split; [exact E | reflexivity].
    + destruct IH as [[IH1 IH2] | (a & t & IH1 & IH2)].
      * left. split; [rewrite IH1; reflexivity|]. intros a t H.
        destruct a as [|x a].
        -- assert (strip_prefix p (c :: cs) = Some t)
             by (apply strip_prefix_Some; exact H).
           congruence.
        -- injection H as _ H. exact (IH2 a t H).
      * right. exists (c :: a), t. split; [rewrite IH1; reflexivity|].
        rewrite IH2. reflexivity.
Qed.

(** [.json] does not overlap itself: what follows an occurrence of it
    that starts inside [a ++ .json] before the end of [a] lies in [a]. *)
Lemma dotjson_first (a t : list ascii) :
  (forall u v, a <> (u ++ dotjson ++ v)%list) ->
  replace_chars dotjson [] (a ++ dotjson ++ t) = (a ++ t)%list.
Proof.
  induction a as [|c a IH]; intros Hfree.
  - reflexivity.
  - cbn [app replace_chars].
    destruct (strip_prefix dotjson (c :: a ++ dotjson ++ t)) eqn:E.
    + exfalso.
      clear IH. apply strip_prefix_Some in E.
      destruct a as [|c1 [|c2 [|c3 [|c4 a']]]]; cbn in E; try congruence.
      injection E as -> -> -> -> -> E.
      apply (Hfree [] a'). reflexivity.
    + rewrite IH; [reflexivity|].
      intros u v H. apply (Hfree (c :: u) v). rewrite H. reflexivity.
Qed.

Lemma includes_chars (s : string) :
  ~ includes s ".json" -> forall u v, chars s <> (u ++ dotjson ++ v)%list.
Proof.
  intros H u v E. apply H.
  exists (string_of_list_ascii u), (string_of_list_ascii v).
  apply chars_inj. rewrite !chars_app. unfold chars at 2 4.
  rewrite !list_ascii_of_string_of_list_ascii. exact E.
Qed.

(** Removing the first [.json] from a name that has none before the
    end of [a] takes out the one after [a]. *)
Lemma replace_first_json (a t : string) :
  ~ includes a ".json" -> replace (a ++ ".json" ++ t)%string ".json" EmptyString = (a ++ t)%string.
Proof.
  intros H. unfold replace. apply chars_inj. unfold chars at 1.
  rewrite list_ascii_of_string_of_list_ascii, !chars_app.
  apply (dotjson_first (chars a) (chars t)), includes_chars, H.
Qed.

Lemma short_excludes (s sub : string) :
  length (chars s) < length (chars sub) -> ~ includes s sub.
Proof.
  intros Hlt (a & b & E). apply (f_equal chars) in E.
  rewrite !chars_app in E. apply (f_equal (@length ascii)) in E.
  rewrite !length_app in E. lia.
Qed.

Lemma append_nil_r (s : string) : (s ++ EmptyString)%string = s.
Proof.
  induction s as [|c s IH]; [reflexivity|].
  change (String c (s ++ EmptyString)%string = String c s). rewrite IH. reflexivity.
Qed.

(** A name that ends in [.json] and gives [id] once its first [.json]
    is out, [id] having none, is [id.json]. *)
Lemma replace_json_inv (f id : string) :
  endsWith f ".json" = true -> replace f ".json" EmptyString = id ->
  ~ includes id ".json" -> f = (id ++ ".json")%string.
Proof.
  intros He Hr Hfree. destruct (endsWith_inv f ".json" He) as (x & ->).
  unfold replace in Hr. apply (f_equal chars) in Hr. unfold chars at 1 in Hr.
  rewrite list_ascii_of_string_of_list_ascii, chars_app in Hr.
  change (replace_chars dotjson [] (chars x ++ dotjson) = chars id) in Hr.
  destruct (replace_chars_cases dotjson (chars x ++ dotjson))
    as [[_ H] | (a & t & H1 & H2)].
  - exfalso. apply (H (chars x) []). rewrite app_nil_r. reflexivity.
  - rewrite H2 in Hr.
    assert (Ht : t = []).
    { apply (f_equal (@rev ascii)) in H1. rewrite !rev_app_distr in H1.
      destruct (rev t) as [|t1 [|t2 [|t3 [|t4 [|t5 r]]]]] eqn:Er.
      - apply (f_equal (@rev ascii)) in Er. rewrite rev_involutive in Er. exact Er.
      - cbn in H1. discriminate.
      - cbn in H1. discriminate.
      - cbn in H1. discriminate.
      - cbn in H1. discriminate.
      - exfalso. cbn in H1. injection H1 as <- <- <- <- <- H1.
        apply (includes_chars id Hfree (a ++ rev r) []).
        rewrite <- Hr. apply (f_equal (@rev ascii)) in Er.
        rewrite rev_involutive in Er. rewrite Er. cbn.
        rewrite <- !app_assoc. reflexivity. }
    subst t. rewrite !app_nil_r in *. 
    apply app_inv_tail in H1. f_equal. apply chars_inj. congruence.
Qed.
End StringFacts.

(** ** The session store: failures, other sessions, deleting, listing *)

Section StoreFacts.
Context (env : Env).

(** What a load gives depends on the file of the session only. *)
Lemma loadSession_files (id : string) (fs1 fs2 : FileSystem) :
  files fs1 !! session_path env id = files fs2 !! session_path env id ->
  loadSession env id fs1 = loadSession env id fs2.
Proof.
  intros H. unfold loadSession, existsSync, fs_readFile. rewrite <- H.
  destruct (files fs1 !! session_path env id) as [c|] eqn:E.
  - rewrite !(bool_decide_eq_true_2 (is_Some (Some c))) by eauto.
    rewrite !orb_true_r. reflexivity.
  - destruct (fs_fault env _); repeat (destruct (_ || _)); reflexivity.
Qed.

Lemma saveSession_other_files (id : string) (d : SessionData) (fs : FileSystem)
      (p : string) :
  p <> session_path env id ->
  files (saveSession env id d fs) !! p = files fs !! p.
Proof.
  intros Hp. unfold saveSession, fs_mkdir, fs_writeFile.
  destruct (existsSync SESSIONS_DIR fs).
  - destruct (fs_fault env (OpWrite _)); cbn;
      [reflexivity | apply lookup_insert_ne; congruence].
  - destruct (fs_fault env (OpMkdir _)); [reflexivity|].
    destruct (fs_fault env (OpWrite _)); cbn;
      [reflexivity | apply lookup_insert_ne; congruence].
Qed.


Lemma deleteSession_other_files (refused : Refusals) (id : string)
      (fs : FileSystem) (p : string) :
  p <> session_path env id ->
  files (deleteSession env refused id fs) !! p = files fs !! p.
Proof.
  intros Hp. unfold deleteSession, fs_unlink.
  destruct (existsSync _ _); [|reflexivity].
  destruct (refused _); [reflexivity|].
  destruct (files fs !! session_path env id); [|reflexivity].
  cbn. apply lookup_delete_ne. congruence.
Qed.

(** X2.  Saving or deleting one session leaves the others alone: a
    session whose file is another one loads as before, whether the
    operation went through or not. *)
Theorem other_sessions_untouched (refused : Refusals) (id id' : string)
        (d : SessionData) (fs : FileSystem) :
  session_path env id' <> session_path env id ->
  loadSession env id' (saveSession env id d fs) = loadSession env id' fs
  /\ loadSession env id' (deleteSession env refused id fs) = loadSession env id' fs.
Proof.
  intros H. split; apply loadSession_files.
  - apply saveSession_other_files, H.
  - apply deleteSession_other_files, H.
Qed.

Lemma resumeSession_null (id : string) (s : State) :
  loadSession env id (fs (wd s)) = JNull -> Engine.resumeSession env id s = Ok false s.
Proof.
  intros H. destruct s as [c w]. unfold Engine.resumeSession, bind, gets. cbn in *.
  rewrite H. reflexivity.
Qed.


Lemma deleteSession_file (refused : Refusals) (id : string) (fs : FileSystem) :
  files (deleteSession env refused id fs) !! session_path env id
  = match refused (session_path env id) with
    | None => None
    | Some _ => files fs !! session_path env id
    end.
Proof.
  unfold deleteSession, fs_unlink, existsSync.
  destruct (refused _); [destruct (_ || _); reflexivity|].
  destruct (files fs !! session_path env id) eqn:E.
  - rewrite (bool_decide_eq_true_2 (is_Some (Some s))) by eauto.
    rewrite orb_true_r. cbn. apply lookup_delete_eq.
  - destruct (_ || _); exact E.
Qed.

Lemma deleteSession_twice (refused : Refusals) (id : string) (fs : FileSystem) :
  deleteSession env refused id (deleteSession env refused id fs)
  = deleteSession env refused id fs.
Proof.
  unfold deleteSession, fs_unlink.
  destruct (existsSync (session_path env id) fs) eqn:E1; [|rewrite E1; reflexivity].
  destruct (refused (session_path env id)) eqn:E2; [rewrite E1; reflexivity|].
  destruct (files fs !! session_path env id) eqn:E3;
    [|rewrite E1, ?E3; reflexivity].
  cbn. rewrite lookup_delete_eq.
  match goal with |- (if ?b then _ else _) = _ => destruct b end; reflexivity.
Qed.

(** X4.  Once [deleteSession] has run with the removal not refused,
    nothing is stored under the id: the session loads as null and
    cannot be resumed; the directories stay, and deleting a second
    time changes nothing. *)
Theorem deleted_session_is_gone (refused : Refusals) (id : string) (s : State) :
  refused (session_path env id) = None ->
  let fs' := deleteSession env refused id (fs (wd s)) in
  loadSession env id fs' = JNull
  /\ Engine.resumeSession env id (mkState (cl s) (set_fs fs' (wd s)))
     = Ok false (mkState (cl s) (set_fs fs' (wd s)))
  /\ deleteSession env refused id fs' = fs'
  /\ dirs fs' = dirs (fs (wd s)).
Proof.
  intros H fs'.
  assert (Hl : loadSession env id fs' = JNull).
  { apply loadSession_missing. subst fs'. rewrite deleteSession_file, H. reflexivity. }
  split; [exact Hl|]. split; [apply resumeSession_null; exact Hl|].
  split; [apply deleteSession_twice|].
  subst fs'. unfold deleteSession, fs_unlink.
  destruct (existsSync _ _); [|reflexivity].
  destruct (refused _); [reflexivity|]. destruct (files _ !! _); reflexivity.
Qed.
End StoreFacts.

Section ListFacts.
Context (readdir : Readdir).

Lemma listSessions_Done (fs : FileSystem) (entries : list (string * bool)) :
  existsSync SESSIONS_DIR fs = true -> readdir SESSIONS_DIR fs = Done entries ->
  listSessions readdir fs
  = map (fun f => replace f ".json" EmptyString)
        (List.filter (fun f => endsWith f ".json") (map fst entries)).
Proof. intros H1 H2. unfold listSessions. rewrite H1, H2. reflexivity. Qed.

(** X5.  For an id that has no [.json] inside, [listSessions] gives the
    id exactly when the directory of the sessions holds the file
    [<id>.json]. *)
Theorem listed_iff_file (fs : FileSystem) (entries : list (string * bool))
        (id : string) :
  existsSync SESSIONS_DIR fs = true -> readdir SESSIONS_DIR fs = Done entries ->
  ~ includes id ".json" ->
  In id (listSessions readdir fs) <-> In (id ++ ".json")%string (map fst entries).
Proof.
  intros H1 H2 Hfree. rewrite (listSessions_Done fs entries H1 H2).
  rewrite in_map_iff. split.
  - intros (f & Hr & Hin). apply filter_In in Hin as [Hin He].
    rewrite <- (replace_json_inv f id He Hr Hfree). exact Hin.
  - intros Hin. exists (id ++ ".json")%string. split.
    + rewrite <- (append_nil_r ".json") at 1.
      rewrite (replace_first_json id EmptyString Hfree). apply append_nil_r.
    + apply filter_In. split; [exact Hin | apply endsWith_app].
Qed.

End ListFacts.

(** ** The engine: what the claims leave out *)

Section MoreEngineFacts.
Context (env : Env).
Import Engine.

Local Arguments js_or : simpl never.
Local Arguments appendLog : simpl never.
Local Arguments saveSession : simpl never.
Local Arguments loadSession : simpl never.
Local Arguments toolResult_json : simpl never.
Local Arguments member : simpl never.
Local Arguments str_truthy : simpl never.
Local Arguments js_succ : simpl never.
Local Arguments JsonText.stringify : simpl never.
Local Arguments session_json : simpl never.

Ltac split_branch :=
  match goal with
  | |- context [match ?x with _ => _ end] =>
      lazymatch x with
      | context [match _ with _ => _ end] => fail
      | _ => destruct x eqn:?
      end
  end.

Ltac unfold_ops :=
  unfold handleToolCall, execute, sendPrompt, startSession, resumeSession,
    bind, try_catch, call_tool, throw_if_error, join_args, persistSession,
    processWriteQueue, sendRPCResponse, sendRPC, logReceipt, push_history,
    push, isoNow, now, ret, throw, gets, on_world, on_client, when.

Ltac exec := repeat (progress (unfold_ops; cbn) || split_branch).

Ltac exec_in H :=
  repeat (progress (unfold_ops; cbn; rewrite ?H; cbn) || split_branch).

Lemma matchesTool_In (method : string) (l : list string) :
  matchesTool method l = true <-> In method l.
Proof.
  unfold matchesTool. rewrite existsb_exists. split.
  - intros (x & Hin & He). apply String.eqb_eq in He. subst. exact Hin.
  - intros H. exists method. split; [exact H | apply String.eqb_refl].
Qed.

Lemma matchesTool_unknown (method : string) :
  ~ In method known_spellings ->
  matchesTool method TOOL_METHODS.WRITE_FILE = false
  /\ matchesTool method TOOL_METHODS.READ_FILE = false
  /\ matchesTool method TOOL_METHODS.LIST_DIRECTORY = false
  /\ matchesTool method TOOL_METHODS.CREATE_TERMINAL = false.
Proof.
  intros H. repeat split; apply not_true_is_false; intros E;
    apply matchesTool_In in E; apply H; unfold known_spellings;
    rewrite !in_app_iff; tauto.
Qed.

(** X7.  An inbound request or notification whose method is not a tool
    spelling is dropped: no response is pushed, nothing is logged and
    nothing changes. *)
Theorem unknown_method_ignored (approved : bool) (msg : JSONRPCMessage)
        (method : string) (s : State) :
  rpc_method msg = Some method -> method <> EmptyString ->
  ~ In method known_spellings ->
  handleMessage env approved msg s = Ok tt s.
Proof.
  intros Hm Hne Hun. unfold handleMessage. rewrite Hm.
  cbn -[matchesTool].
  destruct (matchesTool_unknown method Hun) as (-> & -> & -> & ->).
  unfold str_truthy. destruct (String.eqb_spec method EmptyString); [contradiction|].
  reflexivity.
Qed.

(** X8.  A message without a method (a response of the agent) never
    makes the client send anything or change its own state; it is
    appended to the audit log when its result is truthy, and otherwise,
    as for every error response, it leaves no trace at all. *)
Theorem inbound_response_effect (approved : bool) (msg : JSONRPCMessage) (s : State) :
  rpc_method msg = None ->
  exists s',
    handleMessage env approved msg s = Ok tt s'
    /\ cl s' = cl s
    /\ pushed (wd s') = pushed (wd s) /\ wire (wd s') = wire (wd s)
    /\ files (fs (wd s')) = files (fs (wd s))
    /\ (truthy_opt (rpc_result msg) = false -> s' = s).
Proof.
  intros H. unfold handleMessage. rewrite H. cbn. destruct s as [c w].
  destruct (truthy_opt (rpc_result msg)); exec.
  - eexists. split; [reflexivity|]. cbn. rewrite appendLog_files.
    repeat split. discriminate.
  - eexists. split; [reflexivity|]. repeat split.
Qed.


(** X10.  When the collaborator of a file tool fails, by throwing or by
    returning a non-empty [error], the one response pushed is the error
    -32603 with that message; the tool was called once, and the history
    grows by the [tool_call] entry only. *)
Theorem tool_failure_response (toolName message : string) (id : option rpc_id)
        (params : json) (s : State) :
  In toolName file_tools ->
  (forall fs, fails_with message (file_tool_call env toolName params fs)) ->
  exists s' e,
    handleToolCall env true toolName id params s = Ok tt s'
    /\ pushed (wd s') = pushed (wd s) ++ [internal_error id message]
    /\ length (executed (wd s')) = S (length (executed (wd s)))
    /\ history (cl s') = history (cl s) ++ [e]
    /\ he_type e = tool_call.
Proof.
  intros Hin Hfail. destruct s as [c w]. cbn in Hin.
  destruct Hin as [<- | [<- | [<- | []]]]; unfold file_tool_call in Hfail;
    cbn in Hfail; exec;
    match goal with
    | H : _ env _ _ ?fs = (?o, _) |- _ =>
        destruct (Hfail fs) as [Hf | (r0 & Hf & Hf1 & Hf2)]; rewrite H in Hf;
        cbn in Hf; try discriminate Hf
    | H : _ env _ ?fs = (?o, _) |- _ =>
        destruct (Hfail fs) as [Hf | (r0 & Hf & Hf1 & Hf2)]; rewrite H in Hf;
        cbn in Hf; try discriminate Hf
    end;
    try (injection Hf as ->);
    repeat match goal with
           | E : tr_error _ = _ |- _ => rewrite E in *
           end;
    try congruence;
    (eexists _, _; split; [reflexivity|]; cbn; rewrite ?length_app; cbn;
     unfold internal_error; repeat split; try reflexivity; try lia; congruence).
Qed.


(** X12.  Whatever the command returns, a non-zero exit code or an
    [error] member included, [createTerminal] with an array of
    arguments is answered with a result, never with an error: it
    carries [terminal-1] and the exit code and output of the command. *)
Theorem terminal_exit_code_is_result (id : option rpc_id) (params : json)
        (args : list json) (result : ToolResult) (s : State) :
  js_or (get_prop params "args") (JArr []) = JArr args ->
  (forall fs, fst (runShellCommand env (get_prop params "command") (JArr args) fs)
              = Returned result) ->
  exists s' e,
    handleToolCall env true "createTerminal" id params s = Ok tt s'
    /\ pushed (wd s') = pushed (wd s) ++ [result_response id (terminal_payload result)]
    /\ history (cl s') = history (cl s) ++ [e]
    /\ he_type e = tool_call.
Proof.
  intros Hargs Hret. destruct s as [c w].
  exec_in Hargs;
    match goal with
    | H : runShellCommand env _ _ ?fs = (?o, _) |- _ =>
        let Hf := fresh in pose proof (Hret fs) as Hf; rewrite H in Hf;
        cbn in Hf; try discriminate Hf; try (injection Hf as ->)
    end;
    (eexists _, _; split; [reflexivity|]; cbn; repeat split; reflexivity).
Qed.

(** X13.  When [params.args] is truthy and not an array, the command is
    not run: joining the arguments throws inside the [try], and the
    request is answered with an error -32603. *)
Theorem terminal_bad_args (id : option rpc_id) (params v : json) (s : State) :
  get_prop params "args" = Some v -> truthy v = true ->
  (forall vs, v <> JArr vs) ->
  exists s' message,
    handleToolCall env true "createTerminal" id params s = Ok tt s'
    /\ pushed (wd s') = pushed (wd s) ++ [internal_error id message]
    /\ executed (wd s') = executed (wd s).
Proof.
  intros Hv Ht Hna. destruct s as [c w].
  assert (Hargs : js_or (get_prop params "args") (JArr []) = v).
  { rewrite Hv. unfold js_or. rewrite Ht. reflexivity. }
  exec_in Hargs; try (exfalso; eapply Hna; reflexivity);
    (eexists _, _; split; [reflexivity|]; cbn; split; reflexivity).
Qed.

(** *** The write queue over the life of a client *)

Lemma handleMessage_cases (approved : bool) (msg : JSONRPCMessage) (s : State) :
  (exists tn, In tn tool_names
              /\ handleMessage env approved msg s
                 = handleToolCall env approved tn (rpc_id_of msg)
                     (js_or (rpc_params msg) (JObj [])) s)
  \/ handleMessage env approved msg s = logReceipt env INFO (msg_json msg) s
  \/ handleMessage env approved msg s = Ok tt s.
Proof.
  unfold handleMessage.
  destruct (negb (opt_str_truthy (rpc_method msg))).
  - destruct (truthy_opt (rpc_result msg)); cbn; auto.
  - cbn zeta.
    repeat (match goal with
            | |- context [if matchesTool ?m ?f then _ else _] =>
                destruct (matchesTool m f)
            end; [left; eexists; split; [|reflexivity]; cbn; tauto|]).
    auto.
Qed.

Ltac flushed :=
  cbn;
  repeat match goal with
         | |- context [match ?x with Some _ => _ | None => _ end] => destruct x
         end;
  rewrite <- ?app_assoc; cbn;
  repeat match goal with |- _ /\ _ => split end;
  try reflexivity;
  eexists;
  (split; [first [reflexivity | symmetry; apply app_nil_r]|]);
  (split; [first [reflexivity | symmetry; apply app_nil_r]|]);
  first [ left; reflexivity | right; split; [reflexivity | eexists; reflexivity] ].

Lemma handleToolCall_flush (approved : bool) (tn : string) (id : option rpc_id)
      (params : json) (s : State) :
  In tn tool_names -> writeQueue (cl s) = [] -> isWriting (cl s) = false ->
  exists r, handleToolCall env approved tn id params s = r
            /\ flushes s (final r) false.
Proof.
  intros Hin Hq Hw. destruct s as [[u t sid rid q iw m d h a] w].
  cbn in Hq, Hw. subst q iw. unfold flushes. cbn in Hin.
  destruct Hin as [<- | [<- | [<- | [<- | []]]]]; destruct approved; exec;
    (eexists; split; [reflexivity|]; flushed).
Qed.

Lemma step_flush (s : State) (ev : Event) :
  writeQueue (cl s) = [] -> isWriting (cl s) = false ->
  flushes s (step env s ev) (is_start ev).
Proof.
  intros Hq Hw.
  assert (exists s', step env s ev = s' /\ flushes s s' (is_start ev))
    as (s' & -> & H); [|exact H].
  destruct ev as [| message | approved msg | sid | m | d | b].
  - destruct s as [[u t sid rid q iw m d h a] w]. cbn in Hq, Hw. subst q iw.
    unfold step, flushes. exec; (eexists; split; [reflexivity|]; flushed).
  - destruct s as [[u t sid rid q iw m d h a] w]. cbn in Hq, Hw. subst q iw.
    unfold step, flushes. exec; (eexists; split; [reflexivity|]; flushed).
  - unfold step. destruct (handleMessage_cases approved msg s)
      as [(tn & Hin & ->) | [-> | ->]].
    + destruct (handleToolCall_flush approved tn (rpc_id_of msg)
                  (js_or (rpc_params msg) (JObj [])) s Hin Hq Hw) as (r & -> & H).
      eauto.
    + destruct s as [[u t sid rid q iw m d h a] w]. cbn in Hq, Hw. subst q iw.
      unfold flushes. exec; (eexists; split; [reflexivity|]; flushed).
    + destruct s as [[u t sid rid q iw m d h a] w]. cbn in Hq, Hw. subst q iw.
      unfold flushes. eexists; split; [reflexivity|]. flushed.
  - destruct s as [[u t sid0 rid q iw m d h a] w]. cbn in Hq, Hw. subst q iw.
    unfold step, flushes. exec; (eexists; split; [reflexivity|]; flushed).
  - destruct s as [[u t sid0 rid q iw m0 d h a] w]. cbn in Hq, Hw. subst q iw.
    unfold step, flushes. eexists; split; [reflexivity|]. flushed.
  - destruct s as [[u t sid0 rid q iw m0 d0 h a] w]. cbn in Hq, Hw. subst q iw.
    unfold step, flushes. eexists; split; [reflexivity|]. flushed.
  - destruct s as [[u t sid0 rid q iw m0 d0 h a] w]. cbn in Hq, Hw. subst q iw.
    unfold step, flushes. eexists; split; [reflexivity|]. flushed.
Qed.

(** X14.  Between two operations of a connected client the write queue
    is empty and the flag is down, and every message that was pushed
    has been handed to the transport, in the order of the pushes. *)
Theorem connected_run_flushes (evs : list Event) (s : State) :
  is_Some (transport (cl s)) -> writeQueue (cl s) = [] -> isWriting (cl s) = false ->
  let s' := run env s evs in
  is_Some (transport (cl s'))
  /\ writeQueue (cl s') = [] /\ isWriting (cl s') = false
  /\ exists l, pushed (wd s') = pushed (wd s) ++ l /\ wire (wd s') = wire (wd s) ++ l.
Proof.
  revert s. induction evs as [|ev evs IH]; intros s Ht Hq Hw; cbn zeta.
  - cbn. repeat split; try assumption. exists []. rewrite !app_nil_r. split; reflexivity.
  - cbn [run fold_left]. fold (run env (step env s ev) evs).
    destruct (step_flush s ev Hq Hw) as (Hq1 & Hw1 & l1 & Hp1 & Hwire1 & Htr1).
    assert (Ht1 : is_Some (transport (cl (step env s ev)))).
    { destruct Htr1 as [-> | [_ H]]; assumption. }
    destruct (IH (step env s ev) Ht1 Hq1 Hw1) as (Ht2 & Hq2 & Hw2 & l2 & Hp2 & Hwire2).
    repeat split; try assumption.
    exists (l1 ++ l2). destruct Ht1 as [u1 Hu1]. rewrite Hu1 in Hwire1.
    rewrite Hp2, Hwire2, Hp1, Hwire1, <- !app_assoc. split; reflexivity.
Qed.

(** X15.  Before [startSession] nothing reaches the agent: whatever a
    client without a transport is asked to send is taken off the queue
    and lost, the transport being given nothing. *)
Theorem unconnected_client_sends_nothing (evs : list Event) (s : State) :
  transport (cl s) = None -> writeQueue (cl s) = [] -> isWriting (cl s) = false ->
  Forall (fun ev => is_start ev = false) evs ->
  let s' := run env s evs in
  wire (wd s') = wire (wd s) /\ writeQueue (cl s') = [] /\ transport (cl s') = None.
Proof.
  revert s. induction evs as [|ev evs IH]; intros s Ht Hq Hw Hevs; cbn zeta.
  - cbn. auto.
  - apply Forall_cons in Hevs as [Hev Hevs].
    cbn [run fold_left]. fold (run env (step env s ev) evs).
    destruct (step_flush s ev Hq Hw) as (Hq1 & Hw1 & l1 & Hp1 & Hwire1 & Htr1).
    assert (Ht1 : transport (cl (step env s ev)) = None).
    { destruct Htr1 as [-> | [H _]]; [assumption | congruence]. }
    rewrite Ht1 in Hwire1.
    destruct (IH (step env s ev) Ht1 Hq1 Hw1 Hevs) as (H1 & H2 & H3).
    repeat split; congruence.
Qed.

(** *** History and session over the life of a client *)

Ltac grown :=
  cbn; rewrite <- ?app_assoc;
  eexists; first [reflexivity | symmetry; apply app_nil_r].

Lemma step_history (s : State) (ev : Event) :
  is_resume ev = false ->
  exists s', step env s ev = s'
             /\ exists h, history (cl s') = history (cl s) ++ h.
Proof.
  intros Hev. destruct ev as [| message | approved msg | sid | m | d | b];
    try discriminate Hev.
  - destruct s as [c w]. unfold step. exec; (eexists; split; [reflexivity|]; grown).
  - destruct s as [c w]. unfold step. exec; (eexists; split; [reflexivity|]; grown).
  - unfold step. destruct (handleMessage_cases approved msg s)
      as [(tn & Hin & ->) | [-> | ->]].
    + destruct s as [c w]. cbn in Hin.
      destruct Hin as [<- | [<- | [<- | [<- | []]]]]; destruct approved; exec;
        (eexists; split; [reflexivity|]; grown).
    + destruct s as [c w]. exec; (eexists; split; [reflexivity|]; grown).
    + eexists; split; [reflexivity|]. grown.
  - eexists; split; [reflexivity|]. grown.
  - eexists; split; [reflexivity|]. grown.
  - eexists; split; [reflexivity|]. grown.
Qed.

(** X16.  The history in memory only grows: as long as no session is
    resumed, what it held stays in place and new entries go to the
    end. *)
Theorem history_append_only (evs : list Event) (s : State) :
  Forall (fun ev => is_resume ev = false) evs ->
  exists h, history (cl (run env s evs)) = history (cl s) ++ h.
Proof.
  revert s. induction evs as [|ev evs IH]; intros s Hevs.
  - exists []. symmetry. apply app_nil_r.
  - apply Forall_cons in Hevs as [Hev Hevs].
    cbn [run fold_left]. fold (run env (step env s ev) evs).
    destruct (step_history s ev Hev) as (s' & -> & h1 & H1).
    destruct (IH s' Hevs) as (h2 & H2).
    exists (h1 ++ h2). rewrite H2, H1, <- app_assoc. reflexivity.
Qed.

Ltac kept :=
  cbn; rewrite <- ?app_assoc; (split; [reflexivity|]);
  eexists; (split; [first [reflexivity | symmetry; apply app_nil_r]|]);
  unfold no_session_new; repeat (constructor; [cbn; discriminate|]); constructor.

Lemma step_session (s : State) (ev : Event) (sid : string) :
  is_resume ev = false ->
  sessionId (cl s) = Some sid -> str_truthy sid = true ->
  exists s', step env s ev = s'
             /\ sessionId (cl s') = Some sid
             /\ exists l, pushed (wd s') = pushed (wd s) ++ l /\ no_session_new l.
Proof.
  intros Hev Hs Ht. destruct s as [[u t sid0 rid q iw m0 d0 h a] w].
  cbn in Hs. subst sid0.
  destruct ev as [| message | approved msg | sid1 | m | d | b];
    try discriminate Hev.
  - unfold step. exec; (eexists; split; [reflexivity|]; kept).
  - unfold step. exec_in Ht; (eexists; split; [reflexivity|]; kept).
  - unfold step. destruct (handleMessage_cases approved msg
                             (mkState (mkClient u t (Some sid) rid q iw m0 d0 h a) w))
      as [(tn & Hin & ->) | [-> | ->]].
    + cbn in Hin.
      destruct Hin as [<- | [<- | [<- | [<- | []]]]]; destruct approved; exec;
        (eexists; split; [reflexivity|]; kept).
    + exec; (eexists; split; [reflexivity|]; kept).
    + eexists; split; [reflexivity|]. kept.
  - eexists; split; [reflexivity|]. kept.
  - eexists; split; [reflexivity|]. kept.
  - eexists; split; [reflexivity|]. kept.
Qed.

(** X17.  A client that has a session keeps it: as long as no session
    is resumed the id stays, and no [session/new] request is sent
    again. *)
Theorem session_is_kept (evs : list Event) (s : State) (sid : string) :
  sessionId (cl s) = Some sid -> str_truthy sid = true ->
  Forall (fun ev => is_resume ev = false) evs ->
  let s' := run env s evs in
  sessionId (cl s') = Some sid
  /\ exists l, pushed (wd s') = pushed (wd s) ++ l /\ no_session_new l.
Proof.
  revert s. induction evs as [|ev evs IH]; intros s Hs Ht Hevs; cbn zeta.
  - split; [exact Hs|]. exists []. split; [symmetry; apply app_nil_r | constructor].
  - apply Forall_cons in Hevs as [Hev Hevs].
    cbn [run fold_left]. fold (run env (step env s ev) evs).
    destruct (step_session s ev sid Hev Hs Ht) as (s' & -> & Hs1 & l1 & Hp1 & Hn1).
    destruct (IH s' Hs1 Ht Hevs) as (Hs2 & l2 & Hp2 & Hn2).
    split; [exact Hs2|]. exists (l1 ++ l2). split.
    + rewrite Hp2, Hp1, <- app_assoc. reflexivity.
    + apply Forall_app. split; assumption.
Qed.

Ltac stored_nothing :=
  cbn; rewrite ?appendLog_files, ?appendLog_dirs; repeat split; reflexivity.

Lemma step_quiet (s : State) (ev : Event) :
  autoSave (cl s) = false -> quiet ev ->
  exists s', step env s ev = s'
             /\ autoSave (cl s') = false
             /\ files (fs (wd s')) = files (fs (wd s))
             /\ dirs (fs (wd s')) = dirs (fs (wd s)).
Proof.
  intros Ha Hev. destruct s as [[u t sid0 rid q iw m0 d0 h a] w].
  cbn in Ha. subst a.
  destruct ev as [| message | approved msg | sid1 | m | d | b].
  - unfold step. exec; (eexists; split; [reflexivity|]; stored_nothing).
  - unfold step. exec; (eexists; split; [reflexivity|]; stored_nothing).
  - destruct approved; [destruct Hev|].
    unfold step. destruct (handleMessage_cases false msg
                             (mkState (mkClient u t sid0 rid q iw m0 d0 h false) w))
      as [(tn & Hin & ->) | [-> | ->]].
    + exec; (eexists; split; [reflexivity|]; stored_nothing).
    + exec; (eexists; split; [reflexivity|]; stored_nothing).
    + eexists; split; [reflexivity|]. stored_nothing.
  - unfold step. exec; (eexists; split; [reflexivity|]; stored_nothing).
  - eexists; split; [reflexivity|]. stored_nothing.
  - eexists; split; [reflexivity|]. stored_nothing.
  - destruct b; [destruct Hev|]. eexists; split; [reflexivity|]. stored_nothing.
Qed.

(** X18.  With auto-save off the store is left alone: prompts, rejected
    tool calls, the handshake and resuming write no file and make no
    directory. *)
Theorem autosave_off_stores_nothing (evs : list Event) (s : State) :
  autoSave (cl s) = false -> Forall quiet evs ->
  files (fs (wd (run env s evs))) = files (fs (wd s))
  /\ dirs (fs (wd (run env s evs))) = dirs (fs (wd s)).
Proof.
  revert s. induction evs as [|ev evs IH]; intros s Ha Hevs.
  - split; reflexivity.
  - apply Forall_cons in Hevs as [Hev Hevs].
    cbn [run fold_left]. fold (run env (step env s ev) evs).
    destruct (step_quiet s ev Ha Hev) as (s' & -> & Ha1 & Hf1 & Hd1).
    destruct (IH s' Ha1 Hevs) as (Hf2 & Hd2).
    split; congruence.
Qed.

(** *** Resuming *)

Lemma resumeSession_loaded (id : string) (d : SessionData) (s : State) :
  loadSession env id (fs (wd s)) = session_json d ->
  exists s',
    resumeSession env id s = Ok true s'
    /\ sessionId (cl s') = Some (sd_sessionId d)
    /\ model (cl s') = sd_model d
    /\ workspaceDir (cl s') = sd_workspaceDir d
    /\ history (cl s') = sd_history d
    /\ (requestId (cl s') = requestId (cl s)
        /\ transport (cl s') = transport (cl s)
        /\ writeQueue (cl s') = writeQueue (cl s)
        /\ isWriting (cl s') = isWriting (cl s)
        /\ autoSave (cl s') = autoSave (cl s))
    /\ pushed (wd s') = pushed (wd s)
    /\ wire (wd s') = wire (wd s)
    /\ files (fs (wd s')) = files (fs (wd s)).
Proof.
  intros H. destruct s as [c w]. cbn in H.
  unfold resumeSession, bind, gets, on_client, logReceipt, isoNow, now, on_world, ret.
  cbn. rewrite H.
  change (truthy (session_json d)) with true. cbn.
  eexists. split; [reflexivity|]. cbn. rewrite appendLog_files.
  change (get_prop (session_json d) "history")
    with (Some (JArr (map entry_json (sd_history d)))).
  rewrite history_of_history_json. destruct d; repeat split.
Qed.

(** X19.  A session that was saved is resumed with the session id, the
    model, the workspace directory and the history of the record; the
    history is not replayed: nothing is sent, and the counter of
    requests stays where it was. *)
Theorem resume_restores (id : string) (d : SessionData) (c : Client) (w : World) :
  store_ok env id -> wf_history (sd_history d) ->
  exists s',
    resumeSession env id (mkState c (set_fs (saveSession env id d (fs w)) w))
    = Ok true s'
    /\ sessionId (cl s') = Some (sd_sessionId d)
    /\ model (cl s') = sd_model d
    /\ workspaceDir (cl s') = sd_workspaceDir d
    /\ history (cl s') = sd_history d
    /\ requestId (cl s') = requestId c
    /\ pushed (wd s') = pushed w /\ wire (wd s') = wire w.
Proof.
  intros Hok Hwf.
  destruct (resumeSession_loaded id d
              (mkState c (set_fs (saveSession env id d (fs w)) w)))
    as (s' & H & H1 & H2 & H3 & H4 & (H5 & _) & H6 & H7 & _).
  { cbn. apply load_after_save; assumption. }
  exists s'. cbn in *. repeat split; assumption.
Qed.

Lemma sendPrompt_in_session (message : string) (s : State) (sid : string) :
  sessionId (cl s) = Some sid -> str_truthy sid = true ->
  exists s' e,
    sendPrompt env message s = Ok tt s'
    /\ sessionId (cl s') = Some sid
    /\ history (cl s') = history (cl s) ++ [e]
    /\ he_type e = prompt /\ he_data e = JStr message
    /\ pushed (wd s') = pushed (wd s) ++ [prompt_request (requestId (cl s)) message].
Proof.
  intros Hs Ht. destruct s as [[u t sid0 rid q iw m0 d0 h a] w].
  cbn in Hs. subst sid0.
  exec_in Ht; (eexists _, _; split; [reflexivity|]; cbn; repeat split; reflexivity).
Qed.

(** X20.  A prompt in a resumed session goes on where the record ends:
    one request is sent, the [session/prompt] (no [session/new]), the
    session id is the one of the record, and the history is the stored
    one with the prompt at its end. *)
Theorem resumed_session_continues (id message : string) (d : SessionData)
        (s : State) :
  loadSession env id (fs (wd s)) = session_json d ->
  str_truthy (sd_sessionId d) = true ->
  let s2 := run env s [EvResume id; EvPrompt message] in
  sessionId (cl s2) = Some (sd_sessionId d)
  /\ (exists e, history (cl s2) = sd_history d ++ [e]
                /\ he_type e = prompt /\ he_data e = JStr message)
  /\ pushed (wd s2) = pushed (wd s) ++ [prompt_request (requestId (cl s)) message].
Proof.
  intros Hl Ht s2. subst s2. unfold run. cbn [fold_left step].
  destruct (resumeSession_loaded id d s Hl)
    as (s1 & -> & Hs1 & _ & _ & Hh1 & (Hr1 & _) & Hp1 & _).
  cbn [final].
  destruct (sendPrompt_in_session message s1 (sd_sessionId d) Hs1 Ht)
    as (s2 & e & -> & Hs2 & Hh2 & He1 & He2 & Hp2).
  cbn [final]. split; [exact Hs2|]. split.
  - exists e. rewrite Hh2, Hh1. auto.
  - rewrite Hp2, Hp1, Hr1. reflexivity.
Qed.

Lemma sendPrompt_stores (message : string) (s : State) :
  autoSave (cl s) = true -> (forall sid, store_ok env sid) ->
  exists s' sid ts e,
    sendPrompt env message s = Ok tt s'
    /\ sessionId (cl s') = Some sid
    /\ files (fs (wd s')) !! session_path env sid
       = Some (JsonText.stringify
                 (session_json (mkSession sid (model (cl s')) (workspaceDir (cl s'))
                                  ts (history (cl s')))))
    /\ history (cl s') = history (cl s) ++ [e]
    /\ he_data e = JStr message.
Proof.
  intros Ha Hok. destruct s as [[u t sid0 rid q iw m0 d0 h a] w].
  cbn in Ha. subst a.
  destruct (opt_str_truthy sid0) eqn:Hs.
  - destruct sid0 as [sid|]; [cbn in Hs | discriminate].
    exec_in Hs;
      (eexists _, sid, _, _; split; [reflexivity|]; cbn;
       rewrite saveSession_files by apply Hok; rewrite lookup_insert_eq;
       repeat split; reflexivity).
  - exec_in Hs; rewrite ?fallback_truthy in *; try discriminate;
      (eexists _, _, _, _; split; [reflexivity|]; cbn;
       rewrite saveSession_files by apply Hok; rewrite lookup_insert_eq;
       repeat split; reflexivity).
Qed.

(** X21.  What a prompt stores survives the client: any other client
    that resumes the session on the same store has the session id,
    the model, the workspace directory and the whole history of the
    client that sent the prompt. *)
Theorem prompt_survives_restart (message : string) (s : State) (c2 : Client) :
  autoSave (cl s) = true -> wf_history (history (cl s)) ->
  (forall sid, store_ok env sid) ->
  exists s1 sid s2,
    sendPrompt env message s = Ok tt s1
    /\ sessionId (cl s1) = Some sid
    /\ resumeSession env sid (mkState c2 (wd s1)) = Ok true s2
    /\ sessionId (cl s2) = Some sid
    /\ model (cl s2) = model (cl s1)
    /\ workspaceDir (cl s2) = workspaceDir (cl s1)
    /\ history (cl s2) = history (cl s1).
Proof.
  intros Ha Hwf Hok.
  destruct (sendPrompt_stores message s Ha Hok)
    as (s1 & sid & ts & e & Hrun & Hs1 & Hf & Hh & He).
  set (d := mkSession sid (model (cl s1)) (workspaceDir (cl s1)) ts (history (cl s1))).
  assert (Hl : loadSession env sid (fs (wd (mkState c2 (wd s1)))) = session_json d).
  { cbn. apply loadSession_stored; [apply Hok | | exact Hf].
    apply wf_session_json. cbn. rewrite Hh. apply Forall_app. split; [exact Hwf|].
    constructor; [|constructor]. rewrite He. reflexivity. }
  destruct (resumeSession_loaded sid d (mkState c2 (wd s1)) Hl)
    as (s2 & Hres & H1 & H2 & H3 & H4 & _).
  exists s1, sid, s2. repeat split; assumption.
Qed.

End MoreEngineFacts.

(** ** The file tools, alone and under the engine *)

Section ToolFacts.
Context (env : Env) (bun : bool) (readdir : Readdir).
Import Engine.

Local Arguments js_or : simpl never.
Local Arguments appendLog : simpl never.
Local Arguments saveSession : simpl never.
Local Arguments loadSession : simpl never.
Local Arguments toolResult_json : simpl never.
Local Arguments member : simpl never.
Local Arguments str_truthy : simpl never.
Local Arguments js_succ : simpl never.
Local Arguments JsonText.stringify : simpl never.
Local Arguments session_json : simpl never.
Local Arguments existsSync : simpl never.

Ltac split_branch :=
  match goal with
  | |- context [match ?x with _ => _ end] =>
      lazymatch x with
      | context [match _ with _ => _ end] => fail
      | _ => destruct x eqn:?
      end
  end.

Ltac unfold_ops :=
  unfold handleToolCall, execute, sendPrompt, startSession, resumeSession,
    bind, try_catch, call_tool, throw_if_error, join_args, persistSession,
    processWriteQueue, sendRPCResponse, sendRPC, logReceipt, push_history,
    push, isoNow, now, ret, throw, gets, on_world, on_client, when.

Ltac exec := repeat (progress (unfold_ops; cbn) || split_branch).

Ltac exec_in H :=
  repeat (progress (unfold_ops; cbn; rewrite ?H; cbn) || split_branch).

Lemma existsSync_file (p c : string) (fs : FileSystem) :
  files fs !! p = Some c -> existsSync p fs = true.
Proof.
  intros H. unfold existsSync. rewrite H.
  rewrite (bool_decide_eq_true_2 (is_Some (Some c))) by eauto. apply orb_true_r.
Qed.

Lemma found_file (p c : string) (fs : FileSystem) :
  files fs !! p = Some c ->
  (if bun then bool_decide (is_Some (files fs !! p)) else existsSync p fs) = true.
Proof.
  intros H. destruct bun; [|exact (existsSync_file p c fs H)].
  rewrite H. apply bool_decide_eq_true. eauto.
Qed.

Lemma readFile_present (p c : string) (fs : FileSystem) :
  files fs !! p = Some c -> fs_fault env (OpRead p) = None ->
  Tools.readFile (fs_fault env) bun p fs
  = mkToolResult None (Some c) None None None None None None.
Proof.
  intros H Hr. unfold Tools.readFile. rewrite (found_file p c fs H).
  cbn. unfold fs_readFile. rewrite Hr, H. reflexivity.
Qed.


(** X22.  What [writeFile] wrote, [readFile] reads back: after a write
    that the system takes, the tool reports success with the path, and
    a read of the same path gives the content that was written,
    whatever the file held before. *)
Theorem written_file_reads_back (p c : string) (fs : FileSystem) :
  fs_fault env (OpWrite p) = None -> fs_fault env (OpRead p) = None ->
  let out := Tools.writeFile (fs_fault env) p c fs in
  fst out = mkToolResult (Some true) None None None None None None (Some p)
  /\ Tools.readFile (fs_fault env) bun p (snd out)
     = mkToolResult None (Some c) None None None None None None.
Proof.
  intros Hw Hr out. subst out. unfold Tools.writeFile, fs_writeFile. rewrite Hw. cbn.
  split; [reflexivity|]. apply readFile_present; [|exact Hr].
  cbn. apply lookup_insert_eq.
Qed.





End ToolFacts.

(** ** The mock agent *)

Section MockFacts.
Import MockServer.

Lemma unsent_map_set (res : nat) (m : list (nat * bool)) :
  unsent (map_set res false m) <= S (unsent m).
Proof.
  unfold unsent. induction m as [|[k v] m IH]; cbn; [lia|].
  destruct (Nat.eqb res k); cbn.
  - destruct v; cbn; lia.
  - destruct v; cbn; lia.
Qed.

Lemma unsent_filter (f : nat * bool -> bool) (m : list (nat * bool)) :
  unsent (List.filter f m) <= unsent m.
Proof.
  unfold unsent. induction m as [|[k v] m IH]; cbn; [lia|].
  destruct (f (k, v)); destruct v; cbn; lia.
Qed.

Lemma mark_first_unsent (open : list nat) (m m' : list (nat * bool)) :
  mark_first open m = Some m' -> S (unsent m') = unsent m.
Proof.
  unfold unsent. revert m'. induction m as [|[k v] m IH]; intros m' H; cbn in H.
  - discriminate.
  - destruct (existsb (Nat.eqb k) open && negb v) eqn:E.
    + injection H as <-. apply andb_prop in E as [_ E].
      destruct v; [discriminate|]. reflexivity.
    + destruct (mark_first open m) as [r|]; [|discriminate].
      injection H as <-. specialize (IH r eq_refl).
      destruct v; cbn; lia.
Qed.

Lemma on_post_calls (json : json) (sv sv' : Server) (out : list Output) :
  on_post json sv = Some (sv', out) ->
  calls out + pending sv' = pending sv.
Proof.
  unfold on_post, pending. intros H.
  destruct json; try discriminate H;
    repeat match type of H with
           | context [if ?b then _ else _] => destruct b
           | context [match mark_first ?o ?m with _ => _ end] =>
               let E := fresh "E" in
               destruct (mark_first o m) eqn:E;
               [apply mark_first_unsent in E|]
           end;
    injection H as <- <-; cbn; unfold unsent in *; lia.
Qed.

Lemma serve_calls (sv : Server) (r : Request) :
  calls (snd (serve sv r)) + pending (fst (serve sv r))
  <= pending sv + (if is_connect r then 1 else 0).
Proof.
  destruct r as [res | res | json]; unfold serve.
  - cbn [fst snd is_connect]. unfold pending, connect. cbn.
    pose proof (unsent_map_set res (clientSessions sv)). unfold unsent in *. lia.
  - cbn [fst snd is_connect]. unfold pending, close. cbn.
    pose proof (unsent_filter (fun kv => negb (Nat.eqb res (fst kv)))
                  (clientSessions sv)). unfold unsent in *. lia.
  - destruct (on_post json sv) as [[sv' out]|] eqn:E; cbn [fst snd is_connect].
    + apply on_post_calls in E. lia.
    + change (calls []) with 0. lia.
Qed.

Lemma serve_all_calls (rs : list Request) (sv : Server) :
  calls (snd (serve_all sv rs)) + pending (fst (serve_all sv rs))
  <= pending sv + length (List.filter is_connect rs).
Proof.
  revert sv. induction rs as [|r rs IH]; intros sv; cbn; [lia|].
  pose proof (serve_calls sv r) as H1.
  destruct (serve sv r) as [sv1 out1]. cbn in H1.
  specialize (IH sv1). destruct (serve_all sv1 rs) as [sv2 out2]. cbn in *.
  unfold calls in *. rewrite List.filter_app, length_app.
  destruct (is_connect r); cbn; lia.
Qed.

(** X25.  The mock agent sets off the demo tool call at most once per
    connection: over any sequence of connections, disconnections and
    posted messages, the timers that send the tool call are no more
    than the connections that were made. *)
Theorem tool_calls_bounded (rs : list Request) :
  calls (snd (serve_all (mkServer [] []) rs)) <= length (List.filter is_connect rs).
Proof.
  pose proof (serve_all_calls rs (mkServer [] [])) as H. cbn in H. lia.
Qed.
End MockFacts.

(** ** The client and the mock agent *)

Section Exchange.
Context (env : Env).
Import Engine MockServer.

Local Arguments js_or : simpl never.
Local Arguments appendLog : simpl never.
Local Arguments saveSession : simpl never.
Local Arguments loadSession : simpl never.
Local Arguments toolResult_json : simpl never.
Local Arguments str_truthy : simpl never.
Local Arguments js_succ : simpl never.
Local Arguments JsonText.stringify : simpl never.
Local Arguments session_json : simpl never.

Ltac split_branch :=
  match goal with
  | |- context [match ?x with _ => _ end] =>
      lazymatch x with
      | context [match _ with _ => _ end] => fail
      | _ => destruct x eqn:?
      end
  end.

Ltac unfold_ops :=
  unfold handleToolCall, execute, sendPrompt, startSession, resumeSession,
    bind, try_catch, call_tool, throw_if_error, join_args, persistSession,
    processWriteQueue, sendRPCResponse, sendRPC, logReceipt, push_history,
    push, isoNow, now, ret, throw, gets, on_world, on_client, when.

Ltac exec := repeat (progress (unfold_ops; cbn) || split_branch).

Lemma response_completes (id : option rpc_id) (r : JSONRPCMessage) (sv : Server) :
  is_response_to id r ->
  on_post (msg_json r) sv = Some (sv, [SetTimeout 500 (fun _ => completion)]).
Proof.
  intros (_ & Hm & Hre). destruct r as [i m p res err]. cbn in *. subst m.
  unfold on_post, msg_json, method_is. cbn.
  destruct i as [[n|x]|], p as [p|], res as [res|], err as [err|]; cbn;
    try reflexivity;
    exfalso; destruct Hre as [H1 H2];
    first [ specialize (H2 eq_refl); destruct H2; discriminate
          | specialize (H1 ltac:(eauto)); discriminate ].
Qed.

(** X26.  The demo exchange comes to an end: the tool call of the mock
    agent is answered by the client with one response under the id of
    the call, whether the operator approves or not; to that response
    the agent reacts with the [session/update] notification alone; and
    this the client drops without sending anything. *)
Theorem demo_exchange_terminates (t : N) (approved : bool) (s : State) (sv : Server) :
  exists s' r,
    handleMessage env approved (of_wire (toolCallReq t)) s = Ok tt s'
    /\ pushed (wd s') = pushed (wd s) ++ [r]
    /\ is_response_to (rpc_id_of (of_wire (toolCallReq t))) r
    /\ on_post (msg_json r) sv = Some (sv, [SetTimeout 500 (fun _ => completion)])
    /\ forall approved', handleMessage env approved' (of_wire completion) s' = Ok tt s'.
Proof.
  destruct (handle_tool_response env approved "writeTextFile"
              (rpc_id_of (of_wire (toolCallReq t)))
              (js_or (rpc_params (of_wire (toolCallReq t))) (JObj [])) s)
    as (s' & r & H1 & H2 & H3 & _); [cbn; tauto|].
  exists s', r. split; [exact H1|]. split; [exact H2|]. split; [exact H3|].
  split; [exact (response_completes _ r sv H3)|].
  intros approved'. reflexivity.
Qed.
End Exchange.

(** ** The entry point *)

Section MainFacts.
Context (env : Env) (readdir : Readdir).
Import Engine.

Local Arguments js_or : simpl never.
Local Arguments appendLog : simpl never.
Local Arguments saveSession : simpl never.
Local Arguments loadSession : simpl never.
Local Arguments toolResult_json : simpl never.
Local Arguments member : simpl never.
Local Arguments str_truthy : simpl never.
Local Arguments js_succ : simpl never.
Local Arguments JsonText.stringify : simpl never.
Local Arguments session_json : simpl never.
Local Arguments listSessions : simpl never.
Local Arguments Main.env_or : simpl never.
Local Arguments initialize_params : simpl never.

Ltac split_branch :=
  match goal with
  | |- context [match ?x with _ => _ end] =>
      lazymatch x with
      | context [match _ with _ => _ end] => fail
      | _ => destruct x eqn:?
      end
  end.

Ltac unfold_ops :=
  unfold Main.startup, handleToolCall, execute, sendPrompt, startSession,
    resumeSession,
    bind, try_catch, call_tool, throw_if_error, join_args, persistSession,
    processWriteQueue, sendRPCResponse, sendRPC, logReceipt, push_history,
    push, isoNow, now, ret, throw, gets, on_world, on_client, when.

Ltac exec_in H :=
  repeat (progress (unfold_ops; cbn; rewrite ?H; cbn) || split_branch).

Lemma loadSession_logged (id : string) (e : LogEntry) (f : FileSystem) :
  loadSession env id (appendLog (fs_fault env) e f) = loadSession env id f.
Proof. apply loadSession_files. rewrite appendLog_files. reflexivity. Qed.

Lemma bind_ok {A B : Type} (m : M A) (k : A -> M B) (s : State) (a : A) (s' : State) :
  m s = Ok a s' -> bind m k s = k a s'.
Proof. intros H. unfold bind. rewrite H. reflexivity. Qed.

Lemma startSession_sent (s : State) :
  valid_url env (url (cl s)) = true ->
  exists s1,
    startSession env s = Ok tt s1
    /\ (url (cl s1) = url (cl s) /\ sessionId (cl s1) = sessionId (cl s)
        /\ workspaceDir (cl s1) = workspaceDir (cl s))
    /\ requestId (cl s1) = js_succ (requestId (cl s))
    /\ pushed (wd s1) = pushed (wd s) ++ [initialize_request (cl s)]
    /\ files (fs (wd s1)) = files (fs (wd s)).
Proof.
  intros Hv. destruct s as [[u t sid rid q iw m d h a] w]. cbn in Hv.
  exec_in Hv;
    (eexists; split; [reflexivity|]; cbn; rewrite ?appendLog_files;
     repeat split; reflexivity).
Qed.

Lemma sendPrompt_new (message : string) (s : State) :
  opt_str_truthy (sessionId (cl s)) = false ->
  exists s',
    sendPrompt env message s = Ok tt s'
    /\ pushed (wd s')
       = pushed (wd s) ++ [new_request (requestId (cl s));
                           prompt_request (js_succ (requestId (cl s))) message].
Proof.
  intros Hs. destruct s as [[u t sid rid q iw m d h a] w]. cbn in Hs.
  exec_in Hs; rewrite ?fallback_truthy in *; try discriminate;
    (eexists; split; [reflexivity|]; cbn; rewrite <- ?app_assoc; reflexivity).
Qed.


Lemma startup_fresh (op : Main.Operator) (s : State) :
  valid_url env (url (cl s)) = true ->
  opt_str_truthy (sessionId (cl s)) = false ->
  listSessions readdir (fs (wd s)) = [] \/ Main.action op = Main.ActNew ->
  exists s',
    Main.startup env readdir op s = Ok false s'
    /\ pushed (wd s')
       = pushed (wd s)
           ++ [initialize_request (cl s);
               new_request (js_succ (requestId (cl s)));
               prompt_request (js_succ (js_succ (requestId (cl s))))
                 ("You are a coding agent. Current Workspace: "
                    ++ workspaceDir (cl s))].
Proof.
  intros Hv Hs Hnew.
  destruct (startSession_sent s Hv) as (s1 & H1 & (Hu1 & Hs1 & Hw1) & Hr1 & Hp1 & _).
  rewrite <- Hs1 in Hs.
  destruct (sendPrompt_new
              ("You are a coding agent. " ++ Main.getSystemPrompt (cl s1)) s1 Hs)
    as (s2 & H2 & Hp2).
  exists s2. split.
  - unfold Main.startup.
    rewrite (bind_ok (gets wd) _ s (wd s) s eq_refl). cbv beta.
    assert (Hm : match listSessions readdir (fs (wd s)), Main.action op with
                 | _ :: _, Main.ActResume =>
                     startSession env ;;
                     resumeSession env (Main.selectedSession op)
                 | _, _ => ret false
                 end = ret false).
    { destruct Hnew as [-> | ->]; [reflexivity|].
      destruct (listSessions readdir (fs (wd s))); reflexivity. }
    rewrite Hm. rewrite (bind_ok (ret false) _ s false s eq_refl). cbv beta.
    cbn [negb when].
    rewrite (bind_ok (startSession env) _ s tt s1 H1). cbv beta.
    rewrite (bind_ok _ _ s1 tt s2); [reflexivity|].
    unfold bind at 1, gets. exact H2.
  - rewrite Hp2, Hp1, Hr1, <- app_assoc. unfold Main.getSystemPrompt.
    rewrite Hw1. reflexivity.
Qed.

(** X27.  Started without a session to resume, the program sends the
    handshake, makes a session and sends the system prompt, which names
    the workspace: three requests, under the ids 0, 1 and 2. *)
Theorem fresh_start_sends_system_prompt (op : Main.Operator)
        (AGENT_URL MODEL WORKSPACE : option string) (w : World) :
  let c := Main.client env AGENT_URL MODEL WORKSPACE in
  valid_url env (url c) = true ->
  listSessions readdir (fs w) = [] \/ Main.action op = Main.ActNew ->
  exists s',
    Main.startup env readdir op (mkState c w) = Ok false s'
    /\ pushed (wd s')
       = pushed w ++ [initialize_request c; new_request 1;
                      prompt_request 2
                        ("You are a coding agent. Current Workspace: "
                           ++ workspaceDir c)].
Proof.
  intros c Hv Hnew.
  exact (startup_fresh op (mkState c w) Hv eq_refl Hnew).
Qed.



Lemma startup_resumed (op : Main.Operator) (s : State) (d : SessionData) :
  valid_url env (url (cl s)) = true ->
  listSessions readdir (fs (wd s)) <> [] -> Main.action op = Main.ActResume ->
  loadSession env (Main.selectedSession op) (fs (wd s)) = session_json d ->
  exists s',
    Main.startup env readdir op s = Ok true s'
    /\ pushed (wd s') = pushed (wd s) ++ [initialize_request (cl s)]
    /\ sessionId (cl s') = Some (sd_sessionId d)
    /\ history (cl s') = sd_history d.
Proof.
  intros Hv Hl Ha Hload.
  destruct (startSession_sent s Hv) as (s1 & H1 & _ & _ & Hp1 & Hf1).
  assert (Hload1 : loadSession env (Main.selectedSession op) (fs (wd s1))
                   = session_json d).
  { rewrite (loadSession_files env _ (fs (wd s1)) (fs (wd s))); [exact Hload|].
    rewrite Hf1. reflexivity. }
  destruct (resumeSession_loaded env (Main.selectedSession op) d s1 Hload1)
    as (s2 & H2 & Hs2 & _ & _ & Hh2 & _ & Hp2 & _).
  exists s2. split; [|split; [|split]].
  - unfold Main.startup.
    rewrite (bind_ok (gets wd) _ s (wd s) s eq_refl). cbv beta.
    destruct (listSessions readdir (fs (wd s))) as [|x l0]; [congruence|].
    rewrite Ha.
    rewrite (bind_ok _ _ s true s2).
    + reflexivity.
    + rewrite (bind_ok (startSession env) _ s tt s1 H1). exact H2.
  - rewrite Hp2, Hp1. reflexivity.
  - exact Hs2.
  - exact Hh2.
Qed.

(** X29.  When the chosen session loads, the program sends the
    handshake and nothing else: the client takes the session id and
    the history of the record, and the system prompt is not sent
    again. *)
Theorem resumed_start_sends_handshake_only (op : Main.Operator)
        (AGENT_URL MODEL WORKSPACE : option string) (w : World) (d : SessionData) :
  let c := Main.client env AGENT_URL MODEL WORKSPACE in
  valid_url env (url c) = true ->
  listSessions readdir (fs w) <> [] -> Main.action op = Main.ActResume ->
  loadSession env (Main.selectedSession op) (fs w) = session_json d ->
  exists s',
    Main.startup env readdir op (mkState c w) = Ok true s'
    /\ pushed (wd s') = pushed w ++ [initialize_request c]
    /\ sessionId (cl s') = Some (sd_sessionId d)
    /\ history (cl s') = sd_history d.
Proof.
  intros c Hv Hl Ha Hload.
  exact (startup_resumed op (mkState c w) d Hv Hl Ha Hload).
Qed.



End MainFacts.

(** ** More scenarios, run *)

Section MoreScenarios.
Import Engine Demo Fixtures.


Lemma stored_has_dir : existsSync SESSIONS_DIR stored = true.
Proof. vm_compute. reflexivity. Qed.

Lemma stored_loads : loadSession demo_env "s1" stored = session_json demo_session.
Proof.
  apply (load_after_save demo_env "s1" demo_session emptyFs).
  - apply demo_store_ok.
  - repeat constructor.
Qed.


Lemma other_sessions_untouched_witness :
  session_path demo_env "s2" <> session_path demo_env "s1"
  /\ loadSession demo_env "s2" (saveSession demo_env "s1" demo_session emptyFs)
     = loadSession demo_env "s2" emptyFs
  /\ loadSession demo_env "s1" (deleteSession demo_env no_refusal "s2" stored)
     = loadSession demo_env "s1" stored.
Proof.
  assert (H : session_path demo_env "s2" <> session_path demo_env "s1")
    by (vm_compute; discriminate).
  split; [exact H|]. split.
  - apply (other_sessions_untouched demo_env no_refusal "s1" "s2" demo_session
             emptyFs H).
  - apply (other_sessions_untouched demo_env no_refusal "s2" "s1" demo_session
             stored).
    intros E. apply H. symmetry. exact E.
Defined.


Lemma deleted_session_is_gone_witness :
  no_refusal (session_path demo_env "s1") = None
  /\ loadSession demo_env "s1" stored = session_json demo_session
  /\ loadSession demo_env "s1" (deleteSession demo_env no_refusal "s1" stored) = JNull.
Proof.
  split; [reflexivity|]. split; [exact stored_loads|].
  destruct (deleted_session_is_gone demo_env no_refusal "s1" (with_fs stored fresh)
              eq_refl) as (H & _).
  exact H.
Defined.

Lemma listed_iff_file_witness :
  (existsSync SESSIONS_DIR stored = true /\ ~ includes "s1" ".json")
  /\ In "s1" (listSessions demo_readdir stored).
Proof.
  assert (Hfree : ~ includes "s1" ".json") by (apply short_excludes; cbn; lia).
  split; [split; [exact stored_has_dir | exact Hfree]|].
  apply (proj2 (listed_iff_file demo_readdir stored _ "s1" stored_has_dir eq_refl
                  Hfree)).
  left. reflexivity.
Defined.


Lemma unknown_method_ignored_witness :
  ~ In "session/update" known_spellings
  /\ handleMessage demo_env true (request "session/update" []) fresh = Ok tt fresh.
Proof.
  assert (H : ~ In "session/update" known_spellings).
  { intros H. cbn in H. repeat (destruct H as [H | H]; [discriminate H|]).
    destruct H. }
  split; [exact H|].
  apply (unknown_method_ignored demo_env true (request "session/update" [])
           "session/update" fresh eq_refl); [discriminate | exact H].
Defined.

Lemma inbound_response_effect_witness :
  rpc_method (session_new_response 1) = None
  /\ exists s',
       handleMessage demo_env true (session_new_response 1) fresh = Ok tt s'
       /\ cl s' = cl fresh /\ pushed (wd s') = pushed (wd fresh).
Proof.
  split; [reflexivity|].
  destruct (inbound_response_effect demo_env true (session_new_response 1) fresh
              eq_refl) as (s' & H1 & H2 & H3 & _).
  exists s'. auto.
Defined.

Lemma tool_failure_response_witness :
  In "readTextFile" file_tools
  /\ exists s' e,
       handleToolCall demo_env true "readTextFile" (Some (IdStr "req_2")) (JObj []) fresh
       = Ok tt s'
       /\ pushed (wd s')
          = pushed (wd fresh)
              ++ [internal_error (Some (IdStr "req_2"))
                    "The path argument must be of type string"]
       /\ history (cl s') = history (cl fresh) ++ [e].
Proof.
  assert (Hin : In "readTextFile" file_tools) by (cbn; tauto).
  split; [exact Hin|].
  destruct (tool_failure_response demo_env "readTextFile"
              "The path argument must be of type string" (Some (IdStr "req_2"))
              (JObj []) fresh Hin) as (s' & e & H1 & H2 & _ & H3 & _).
  - intros fs0. right. eexists. split; [reflexivity|]. split; reflexivity.
  - exists s', e. auto.
Defined.


Lemma terminal_exit_code_is_result_witness :
  js_or (get_prop (JObj [("command", JStr "ls")]) "args") (JArr []) = JArr []
  /\ exists s' e,
       handleToolCall demo_env true "createTerminal" (Some (IdStr "req_2"))
         (JObj [("command", JStr "ls")]) fresh = Ok tt s'
       /\ pushed (wd s')
          = pushed (wd fresh)
              ++ [result_response (Some (IdStr "req_2"))
                    (JObj [("id", JStr "terminal-1"); ("exitCode", JNum 0);
                           ("stdout", JStr EmptyString); ("stderr", JStr EmptyString)])]
       /\ history (cl s') = history (cl fresh) ++ [e]
       /\ he_type e = tool_call.
Proof.
  split; [reflexivity|].
  apply (terminal_exit_code_is_result demo_env (Some (IdStr "req_2"))
           (JObj [("command", JStr "ls")]) []
           (mkToolResult None None None None (Some 0%Z) (Some EmptyString)
              (Some EmptyString) None) fresh eq_refl).
  intros fs0. reflexivity.
Defined.

Lemma terminal_bad_args_witness :
  (get_prop (JObj [("command", JStr "ls"); ("args", JStr "-l")]) "args"
   = Some (JStr "-l") /\ truthy (JStr "-l") = true)
  /\ exists s' message,
       handleToolCall demo_env true "createTerminal" (Some (IdStr "req_2"))
         (JObj [("command", JStr "ls"); ("args", JStr "-l")]) fresh = Ok tt s'
       /\ pushed (wd s')
          = pushed (wd fresh) ++ [internal_error (Some (IdStr "req_2")) message]
       /\ executed (wd s') = executed (wd fresh).
Proof.
  split; [split; reflexivity|].
  apply (terminal_bad_args demo_env (Some (IdStr "req_2"))
           (JObj [("command", JStr "ls"); ("args", JStr "-l")]) (JStr "-l") fresh
           eq_refl eq_refl).
  intros vs. discriminate.
Defined.

Lemma connected_run_flushes_witness :
  (is_Some (transport (cl connected)) /\ writeQueue (cl connected) = []
   /\ isWriting (cl connected) = false)
  /\ exists l,
       pushed (wd (run demo_env connected [EvPrompt "hello"; EvInbound false write_request]))
       = pushed (wd connected) ++ l
       /\ wire (wd (run demo_env connected [EvPrompt "hello"; EvInbound false write_request]))
          = wire (wd connected) ++ l.
Proof.
  assert (Ht : is_Some (transport (cl connected))) by (eexists; reflexivity).
  split; [split; [exact Ht | split; reflexivity]|].
  destruct (connected_run_flushes demo_env
              [EvPrompt "hello"; EvInbound false write_request] connected Ht
              eq_refl eq_refl) as (_ & _ & _ & H).
  exact H.
Defined.

Lemma unconnected_client_sends_nothing_witness :
  (transport (cl fresh) = None
   /\ Forall (fun ev => is_start ev = false) [EvPrompt "hello"])
  /\ wire (wd (run demo_env fresh [EvPrompt "hello"])) = wire (wd fresh)
  /\ length (pushed (wd (run demo_env fresh [EvPrompt "hello"]))) = 2.
Proof.
  assert (Hev : Forall (fun ev => is_start ev = false) [EvPrompt "hello"])
    by (repeat constructor).
  split; [split; [reflexivity | exact Hev]|].
  destruct (unconnected_client_sends_nothing demo_env [EvPrompt "hello"] fresh
              eq_refl eq_refl eq_refl Hev) as (H & _).
  split; [exact H | reflexivity].
Defined.

Lemma history_append_only_witness :
  Forall (fun ev => is_resume ev = false) scenario
  /\ exists h, history (cl (run demo_env fresh scenario)) = history (cl fresh) ++ h.
Proof.
  assert (Hev : Forall (fun ev => is_resume ev = false) scenario)
    by (repeat constructor).
  split; [exact Hev|].
  apply (history_append_only demo_env scenario fresh Hev).
Defined.

Lemma session_is_kept_witness :
  (sessionId (cl in_session) = Some "s1" /\ str_truthy "s1" = true)
  /\ sessionId (cl (run demo_env in_session [EvPrompt "hello"; EvPrompt "again"]))
     = Some "s1"
  /\ exists l,
       pushed (wd (run demo_env in_session [EvPrompt "hello"; EvPrompt "again"]))
       = pushed (wd in_session) ++ l
       /\ no_session_new l.
Proof.
  split; [split; reflexivity|].
  apply (session_is_kept demo_env [EvPrompt "hello"; EvPrompt "again"] in_session "s1"
           eq_refl eq_refl).
  repeat constructor.
Defined.

Lemma autosave_off_stores_nothing_witness :
  (autoSave (cl (step demo_env fresh (EvSetAutoSave false))) = false
   /\ Forall quiet [EvPrompt "hello"; EvInbound false write_request])
  /\ files (fs (wd (run demo_env (step demo_env fresh (EvSetAutoSave false))
                      [EvPrompt "hello"; EvInbound false write_request])))
     = files (fs (wd fresh)).
Proof.
  assert (Hq : Forall quiet [EvPrompt "hello"; EvInbound false write_request])
    by (repeat constructor).
  split; [split; [reflexivity | exact Hq]|].
  destruct (autosave_off_stores_nothing demo_env
              [EvPrompt "hello"; EvInbound false write_request]
              (step demo_env fresh (EvSetAutoSave false)) eq_refl Hq) as (H & _).
  exact H.
Defined.

Lemma resume_restores_witness :
  (store_ok demo_env "s1" /\ wf_history (sd_history demo_session))
  /\ exists s',
       resumeSession demo_env "s1"
         (mkState (cl fresh)
            (set_fs (saveSession demo_env "s1" demo_session (fs emptyWorld)) emptyWorld))
       = Ok true s'
       /\ sessionId (cl s') = Some "s1"
       /\ history (cl s') = sd_history demo_session
       /\ pushed (wd s') = [].
Proof.
  assert (H1 : store_ok demo_env "s1") by apply demo_store_ok.
  assert (H2 : wf_history (sd_history demo_session)) by (repeat constructor).
  split; [split; assumption|].
  destruct (resume_restores demo_env "s1" demo_session (cl fresh) emptyWorld H1 H2)
    as (s' & Hr & Hs & _ & _ & Hh & _ & Hp & _).
  exists s'. auto.
Defined.

Lemma resumed_session_continues_witness :
  (loadSession demo_env "s1" (fs (wd (with_fs stored fresh))) = session_json demo_session
   /\ str_truthy (sd_sessionId demo_session) = true)
  /\ sessionId (cl (run demo_env (with_fs stored fresh) [EvResume "s1"; EvPrompt "more"]))
     = Some "s1"
  /\ pushed (wd (run demo_env (with_fs stored fresh) [EvResume "s1"; EvPrompt "more"]))
     = [prompt_request 0 "more"].
Proof.
  assert (H1 : loadSession demo_env "s1" (fs (wd (with_fs stored fresh)))
               = session_json demo_session) by exact stored_loads.
  split; [split; [exact H1 | reflexivity]|].
  destruct (resumed_session_continues demo_env "s1" "more" demo_session
              (with_fs stored fresh) H1 eq_refl) as (Hs & _ & Hp).
  split; [exact Hs | exact Hp].
Defined.

Lemma prompt_survives_restart_witness :
  (autoSave (cl fresh) = true /\ wf_history (history (cl fresh)))
  /\ exists s1 sid s2,
       sendPrompt demo_env "hello" fresh = Ok tt s1
       /\ sessionId (cl s1) = Some sid
       /\ resumeSession demo_env sid (mkState (cl fresh) (wd s1)) = Ok true s2
       /\ history (cl s2) = history (cl s1).
Proof.
  assert (H2 : wf_history (history (cl fresh))) by constructor.
  split; [split; [reflexivity | exact H2]|].
  destruct (prompt_survives_restart demo_env "hello" fresh (cl fresh) eq_refl H2
              demo_store_ok) as (s1 & sid & s2 & Ha & Hb & Hc & _ & _ & _ & Hd).
  exists s1, sid, s2. auto.
Defined.

Lemma written_file_reads_back_witness :
  (fs_fault demo_env (OpWrite "a.txt") = None
   /\ fs_fault demo_env (OpRead "a.txt") = None)
  /\ Tools.readFile (fs_fault demo_env) false "a.txt"
       (snd (Tools.writeFile (fs_fault demo_env) "a.txt" "hi" emptyFs))
     = mkToolResult None (Some "hi") None None None None None None.
Proof.
  split; [split; reflexivity|].
  destruct (written_file_reads_back demo_env false "a.txt" "hi" emptyFs eq_refl eq_refl)
    as (_ & H).
  exact H.
Defined.



Lemma fresh_start_sends_system_prompt_witness :
  let c := Main.client demo_env None None None in
  (valid_url demo_env (url c) = true /\ Main.action start_new = Main.ActNew)
  /\ exists s',
       Main.startup demo_env no_entries start_new (mkState c emptyWorld) = Ok false s'
       /\ pushed (wd s')
          = [initialize_request c; new_request 1;
             prompt_request 2 "You are a coding agent. Current Workspace: /work"].
Proof.
  intros c. split; [split; reflexivity|].
  apply (fresh_start_sends_system_prompt demo_env no_entries start_new None None None
           emptyWorld eq_refl (or_intror eq_refl)).
Defined.


Lemma resumed_start_sends_handshake_only_witness :
  let c := Main.client demo_env None None None in
  (listSessions demo_readdir stored <> []
   /\ loadSession demo_env (Main.selectedSession resume_s1) stored
      = session_json demo_session)
  /\ exists s',
       Main.startup demo_env demo_readdir resume_s1
         (mkState c (set_fs stored emptyWorld)) = Ok true s'
       /\ pushed (wd s') = [initialize_request c]
       /\ sessionId (cl s') = Some "s1".
Proof.
  intros c.
  assert (H1 : listSessions demo_readdir stored <> []) by (vm_compute; discriminate).
  split; [split; [exact H1 | exact stored_loads]|].
  destruct (resumed_start_sends_handshake_only demo_env demo_readdir resume_s1
              None None None (set_fs stored emptyWorld) demo_session eq_refl H1
              eq_refl stored_loads) as (s' & Ha & Hb & Hc & _).
  exists s'. auto.
Defined.

End MoreScenarios.
